(** * BookTubePhonetics: the manifest-driven segment downloader (main.py)

    A shallow embedding of [main.py] and the properties of its time parser,
    manifest reader, segment naming, authorization check and segment
    acquirer.

    Conventions of the embedding.
    - A Python [str] is a [string]; a character is a code point below 256,
      so the tables of [str.strip], [str.lower] and [int] are the ones
      CPython uses on that range.
    - A raised exception is a value of [Exn]; a function that can only raise
      [ValueError] returns an [option].
    - The file system, the console and the two external tools are explicit:
      a [World] is threaded through every effectful function, and each
      function returns the list of [Event]s it caused, in order.
    - A [pathlib.Path] is the list of its components below the root; a cell
      used as a component is kept whole. *)

From Stdlib Require Import ZArith NArith Ascii String List Bool Lia.
From stdpp Require Import gmap strings list.

Local Open Scope string_scope.
Local Open Scope Z_scope.

(** ** Python's [str] built-ins *)

Module PyStr.

Definition code (c : ascii) : N := N_of_ascii c.

(** [str.isspace] on one character: the set [str.strip()] removes. *)
Definition is_space (c : ascii) : bool :=
  let n := code c in
  ((9 <=? n) && (n <=? 13) || (28 <=? n) && (n <=? 32)
   || (n =? 133) || (n =? 160))%N.

(** The white space [int()] skips: [Py_ISSPACE] on the characters below
    127, [Py_UNICODE_ISSPACE] above. *)
Definition is_int_space (c : ascii) : bool :=
  let n := code c in
  ((9 <=? n) && (n <=? 13) || (n =? 32) || (n =? 133) || (n =? 160))%N.

Definition digit_value (c : ascii) : option N :=
  let n := code c in
  if ((48 <=? n) && (n <=? 57))%N then Some (n - 48)%N else None.

Definition digit_char (d : N) : ascii := ascii_of_N (48 + d).

Definition is_digit (c : ascii) : bool :=
  match digit_value c with Some _ => true | None => false end.

(** Texts made of decimal digits only. *)
Fixpoint digits_only (s : string) : bool :=
  match s with
  | EmptyString => true
  | String c r => is_digit c && digits_only r
  end.

Definition is_empty (s : string) : bool :=
  match s with EmptyString => true | String _ _ => false end.

Fixpoint lstrip (p : ascii -> bool) (s : string) : string :=
  match s with
  | EmptyString => EmptyString
  | String c r => if p c then lstrip p r else s
  end.

Fixpoint rstrip (p : ascii -> bool) (s : string) : string :=
  match s with
  | EmptyString => EmptyString
  | String c r =>
      let r' := rstrip p r in
      if is_empty r' && p c then EmptyString else String c r'
  end.

(** [s.strip()] *)
Definition strip (s : string) : string := rstrip is_space (lstrip is_space s).

(** [s.split(sep)] for a one-character separator: never the empty list. *)
Fixpoint split (sep : ascii) (s : string) : list string :=
  match s with
  | EmptyString => [EmptyString]
  | String c r =>
      if Ascii.eqb c sep then EmptyString :: split sep r
      else match split sep r with
           | h :: t => String c h :: t
           | [] => [String c EmptyString]
           end
  end.

Definition lower_char (c : ascii) : ascii :=
  let n := code c in
  if ((65 <=? n) && (n <=? 90)
      || (192 <=? n) && (n <=? 222) && negb (n =? 215))%N
  then ascii_of_N (n + 32) else c.

(** [s.lower()] *)
Fixpoint lower (s : string) : string :=
  match s with
  | EmptyString => EmptyString
  | String c r => String (lower_char c) (lower r)
  end.

Fixpoint startswith (p s : string) : bool :=
  match p, s with
  | EmptyString, _ => true
  | String a p', String b s' => Ascii.eqb a b && startswith p' s'
  | String _ _, EmptyString => false
  end.

(** [p in s] *)
Fixpoint contains (p s : string) : bool :=
  startswith p s ||
  match s with
  | EmptyString => false
  | String _ r => contains p r
  end.

(** The digits of [int()]'s argument after the sign: a digit first, then
    digits with single underscores between them.  Returns the value read
    and the rest of the text. *)
Fixpoint scan_digits (acc : N) (s : string) : option (N * string) :=
  match s with
  | EmptyString => Some (acc, s)
  | String c r =>
      match digit_value c with
      | Some d => scan_digits (10 * acc + d) r
      | None =>
          if Ascii.eqb c "_" then
            match r with
            | String c' r' =>
                match digit_value c' with
                | Some d => scan_digits (10 * acc + d) r'
                | None => None
                end
            | EmptyString => None
            end
          else Some (acc, s)
      end
  end.

Definition scan_unsigned (s : string) : option (N * string) :=
  match s with
  | String c r =>
      match digit_value c with
      | Some d => scan_digits d r
      | None => None
      end
  | EmptyString => None
  end.

(** [int(s)]; [None] is [ValueError]. *)
Definition int (s : string) : option Z :=
  let t := lstrip is_int_space s in
  let '(neg, u) :=
    match t with
    | String "+" r => (false, r)
    | String "-" r => (true, r)
    | _ => (false, t)
    end in
  match scan_unsigned u with
  | Some (n, rest) =>
      if is_empty (lstrip is_int_space rest)
      then Some (if neg then - Z.of_N n else Z.of_N n)
      else None
  | None => None
  end.

(** The decimal digits of a natural number, most significant first. *)
Fixpoint dec_digits (fuel : nat) (n : N) (acc : string) : string :=
  let acc' := String (digit_char (n mod 10)) acc in
  match fuel with
  | O => acc'
  | S f => if (n <? 10)%N then acc' else dec_digits f (n / 10) acc'
  end.

Definition str_N (n : N) : string :=
  dec_digits (N.to_nat (N.log2 n)) n EmptyString.

(** [str(z)] *)
Definition str_Z (z : Z) : string :=
  if z <? 0 then String "-" (str_N (Z.to_N (- z))) else str_N (Z.to_N z).

Fixpoint zeros (k : nat) (s : string) : string :=
  match k with O => s | S k' => String "0" (zeros k' s) end.

(** [f"{z:02d}"]: the sign counts in the width and stays in front. *)
Definition format_02d (z : Z) : string :=
  if z <? 0 then
    let d := str_N (Z.to_N (- z)) in
    String "-" (zeros (1 - String.length d) d)
  else
    let d := str_N (Z.to_N z) in
    zeros (2 - String.length d) d.

(** [sep.join(l)] *)
Fixpoint join (sep : string) (l : list string) : string :=
  match l with
  | [] => EmptyString
  | [x] => x
  | x :: r => x ++ sep ++ join sep r
  end.

End PyStr.

(** ** Time Parser *)

(** The inner [time_to_seconds] of [parse_time_range]. *)
Definition time_to_seconds (time_str : string) : option Z :=
  let parts := PyStr.split ":" time_str in
  match parts with
  | [p0; p1] =>
      a ← PyStr.int p0; b ← PyStr.int p1; Some (a * 60 + b)
  | [p0; p1; p2] =>
      a ← PyStr.int p0; b ← PyStr.int p1; c ← PyStr.int p2;
      Some (a * 3600 + b * 60 + c)
  | p0 :: _ => PyStr.int p0
  | [] => None
  end.

Definition parse_time_range (time_str : string) : option (Z * Z) :=
  match PyStr.split "-" time_str with
  | [start; end_] =>
      s ← time_to_seconds (PyStr.strip start);
      e ← time_to_seconds (PyStr.strip end_);
      Some (s, e)
  | _ => None
  end.

(** Python's floor division and modulo coincide with [Z.div] and [Z.modulo]
    for the positive divisors used here. *)
Definition format_time (seconds : Z) : string :=
  let hours := seconds / 3600 in
  let minutes := (seconds mod 3600) / 60 in
  let secs := seconds mod 60 in
  if 0 <? hours
  then PyStr.format_02d hours ++ ":" ++ PyStr.format_02d minutes ++ ":"
       ++ PyStr.format_02d secs
  else PyStr.format_02d minutes ++ ":" ++ PyStr.format_02d secs.

(** A component [int] reads as a number that is not negative. *)
Definition nonneg_numeric (p : string) : bool :=
  match PyStr.int p with Some v => 0 <=? v | None => false end.

(** A valid time token: at most three [:]-separated components, each a
    non-negative number. *)
Definition valid_time_token (t : string) : bool :=
  let parts := PyStr.split ":" t in
  (length parts <=? 3)%nat && forallb nonneg_numeric parts.

(** ** Manifest Reader: the category label of a header row *)

(** The characters before the first [")"], and the text from it on. *)
Fixpoint span_group (s : string) : string * string :=
  match s with
  | EmptyString => (EmptyString, EmptyString)
  | String c r =>
      if Ascii.eqb c ")" then (EmptyString, s)
      else let '(g, t) := span_group r in (String c g, t)
  end.

(** [([^)]+)\)] matched right after an opening parenthesis: the greedy run
    of characters other than [")"] must be non-empty and be followed by
    [")"]; no shorter run can be followed by one. *)
Definition match_group (s : string) : option string :=
  match span_group s with
  | (String c g, String _ _) => Some (String c g)
  | _ => None
  end.

(** [re.search(r'\(([^)]+)\)', s)]: the group of the leftmost match. *)
Fixpoint re_search_group (s : string) : option string :=
  match s with
  | EmptyString => None
  | String c r =>
      if Ascii.eqb c "(" then
        match match_group r with
        | Some g => Some g
        | None => re_search_group r
        end
      else re_search_group r
  end.

Definition extract_prefix_from_header (header : string) : option string :=
  match re_search_group header with
  | Some g => Some g
  | None => None
  end.

(** ** The world: file system, console, external tools *)

Inductive Node := File (size : N) | Dir.

(** What [subprocess.run] hands back, or [CalledProcessError] carries. *)
Record Completed := {
  returncode : Z;
  stdout : string;
  stderr : string
}.

Inductive Exn :=
| ValueError
| OSError
| CalledProcessError (cmd : list string) (r : Completed)
| SystemExit (status : Z).

(** The lines written to the console, one constructor per [print]. *)
Inductive Msg :=
| MsgDownloading (method : nat)
| MsgDownloaded (name : string) (size : N)
| MsgMethodFailed (method : nat)
| MsgErrorDownloading (video_id : string)
| MsgError (text : string)
| MsgTipUpdate
| MsgTipCookies
| MsgDownloadFailed (video_id : string)
| MsgTrimming (start : string) (duration : Z)
| MsgDone (output_path : list string)
| MsgErrorTrimming (video_id : string)
| MsgCookiesRequired
| MsgUsingCookiesFile (cookies_file : list string)
| MsgUsingBrowserCookies
| MsgProcessingPrefix (prefix : string)
| MsgOutputFolder (folder : list string)
| MsgSkipping (video_id : string) (len : nat)
| MsgProcessing (video_id time_range : string)
| MsgStartEnd (start_time end_time : Z)
| MsgOutput (output_path : list string).

(** The arguments of one call of [download_youtube_segment] from [main],
    with the category and the segment number its output name was built
    from. *)
Record Job := {
  category : string;
  videoReference : string;
  start_time : Z;
  end_time : Z;
  segmentIndex : Z;
  output_path : list string;
  cookies_file_path : option (list string)
}.

Inductive Event :=
| EvPrint (m : Msg)
| EvMkdir (p : list string)
| EvOpen (p : list string)
| EvRow (row : list string)
| EvJob (j : Job)
| EvResult (ok : bool)
| EvRun (cmd : list string) (r : Completed)
| EvUnlink (p : list string).

(** How the method loop of [download_youtube_segment] is left: by [break]
    (or by running out of methods), or by [return]. *)
Inductive LoopExit := Fallthrough | Returned (ok : bool).

(** The variables [main] carries from one manifest row to the next. *)
Record LoopState := {
  prefix : option string;
  output_folder : option (list string);
  video_id_counts : gmap string Z
}.

Module Path.

(** [p / name], for a [name] that makes one component of the path: it is
    not empty, it is not ["."], and it has no ["/"]. *)
Definition join (p : list string) (name : string) : list string :=
  (p ++ [name])%list.

(** [p.parent] *)
Definition parent (p : list string) : list string := removelast p.

(** [p.name] *)
Definition name (p : list string) : string := List.last p EmptyString.

(** [str(p)] of an absolute path *)
Definition str (p : list string) : string := String "/" (PyStr.join "/" p).

End Path.

Declare Scope prog_scope.

Section Program.

(** The part of the environment the program cannot see (network, browser
    stores, ...), and the external tools: a command line run in an
    environment and a file system gives a result and changes both. *)
Variable Env : Type.
Variable run_tool :
  list string -> Env -> gmap (list string) Node ->
  Completed * Env * gmap (list string) Node.
(** [os.path.expanduser("~")] *)
Variable home : list string.
(** [str(e)] of a [CalledProcessError] *)
Variable str_CalledProcessError : list string -> Completed -> string.

Record World := {
  fs : gmap (list string) Node;
  env : Env
}.

(** A computation may raise, changes the world, and leaves events. *)
Definition M (A : Type) : Type := World -> (Exn + A) * World * list Event.

Definition ret {A} (a : A) : M A := fun w => (inr a, w, []).

Definition bind {A B} (m : M A) (f : A -> M B) : M B :=
  fun w =>
    match m w with
    | (inl e, w', t) => (inl e, w', t)
    | (inr a, w', t) =>
        let '(r, w'', t') := f a w' in (r, w'', (t ++ t')%list)
    end.

Definition raise {A} (e : Exn) : M A := fun w => (inl e, w, []).

Definition emit (ev : Event) : M unit := fun w => (inr tt, w, [ev]).

Definition print (m : Msg) : M unit := emit (EvPrint m).

(** [try: m  except CalledProcessError as e: h e] *)
Definition try_except {A} (m : M A) (h : list string -> Completed -> M A)
  : M A :=
  fun w =>
    match m w with
    | (inl (CalledProcessError cmd r), w', t) =>
        let '(r', w'', t') := h cmd r w' in (r', w'', (t ++ t')%list)
    | other => other
    end.

Notation "x ← y ; z" := (bind y (fun x : _ => z))
  (at level 20, y at level 100, z at level 200, only parsing) : prog_scope.
Notation "' x ← y ; z" := (bind y (fun x : _ => z))
  (at level 20, x pattern, y at level 100, z at level 200, only parsing)
  : prog_scope.
Notation "x ;; z" := (bind x (fun _ => z))
  (at level 100, z at level 200, only parsing, right associativity)
  : prog_scope.
Local Open Scope prog_scope.

(** *** File system primitives *)

Definition lookup_node (f : gmap (list string) Node) (p : list string)
  : option Node :=
  match p with [] => Some Dir | _ => f !! p end.

(** [p.exists()] *)
Definition path_exists (p : list string) : M bool :=
  fun w => (inr (bool_decide (is_Some (lookup_node (fs w) p))), w, []).

(** [p.stat().st_size]; the size of a directory depends on the platform
    and is taken to be 0. *)
Definition st_size (p : list string) : M N :=
  fun w =>
    match lookup_node (fs w) p with
    | Some (File n) => (inr n, w, [])
    | Some Dir => (inr 0%N, w, [])
    | None => (inl OSError, w, [])
    end.

(** [p.unlink()]; the paths unlinked are temporary artifacts, which are
    regular files whenever they exist. *)
Definition unlink (p : list string) : M unit :=
  fun w =>
    match lookup_node (fs w) p with
    | Some _ =>
        (inr tt, {| fs := delete p (fs w); env := env w |}, [EvUnlink p])
    | None => (inl OSError, w, [])
    end.

(** [p.mkdir(exist_ok=True)] *)
Definition mkdir (p : list string) : M unit :=
  fun w =>
    match lookup_node (fs w) p with
    | Some Dir => (inr tt, w, [])
    | Some (File _) => (inl OSError, w, [])
    | None =>
        match lookup_node (fs w) (Path.parent p) with
        | Some Dir =>
            (inr tt, {| fs := <[p := Dir]> (fs w); env := env w |},
             [EvMkdir p])
        | _ => (inl OSError, w, [])
        end
    end.

(** [subprocess.run(cmd, check=True, capture_output=True)] of a tool that
    is started and runs to its end: [run_tool] gives what it reports and
    what it changes.  A tool that cannot be started, for which
    [subprocess.run] raises [OSError], is not among the tools described
    here. *)
Definition subprocess_run (cmd : list string) : M Completed :=
  fun w =>
    let '(r, e', f') := run_tool cmd (env w) (fs w) in
    let w' := {| fs := f'; env := e' |} in
    if returncode r =? 0 then (inr r, w', [EvRun cmd r])
    else (inl (CalledProcessError cmd r), w', [EvRun cmd r]).

(** *** Segment Acquirer *)

Definition cookies_method (cookies_file temp_path : list string)
    (url : string) : list string :=
  ["yt-dlp"; "-i"; "--extract-audio"; "--audio-format"; "wav";
   "--audio-quality"; "0"; "--ffmpeg-location"; "/opt/homebrew/bin";
   "--cookies"; Path.str cookies_file;
   "--output"; Path.str temp_path; url].

Definition browser_method (temp_path : list string) (url : string)
    (browser : string) : list string :=
  ["yt-dlp"; "-i"; "--extract-audio"; "--audio-format"; "wav";
   "--audio-quality"; "0"; "--ffmpeg-location"; "/opt/homebrew/bin";
   "--cookies-from-browser"; browser;
   "--output"; Path.str temp_path; url].

Definition browsers : list string := ["chrome"; "safari"; "firefox"].

Definition trim_cmd (temp_path : list string) (start_time_str : string)
    (duration : Z) (output_path : list string) : list string :=
  ["/opt/homebrew/bin/ffmpeg"; "-i"; Path.str temp_path;
   "-ss"; start_time_str; "-t"; PyStr.str_Z duration;
   "-acodec"; "pcm_s16le"; "-ar"; "44100"; "-ac"; "2"; "-y";
   Path.str output_path].

(** Lines 51-82: the methods, in the order they are tried. *)
Definition build_download_methods (cookies_file : option (list string))
    (temp_path : list string) (url : string) : M (list (list string)) :=
  from_file ←
    (match cookies_file with
     | Some c =>
         e ← path_exists c;
         ret (if e then [cookies_method c temp_path url] else [])
     | None => ret []
     end : M (list (list string)));
  ret ((from_file ++ map (browser_method temp_path url) browsers)%list).

(** [temp_path.exists() and temp_path.stat().st_size > 0] *)
Definition temp_nonempty (temp_path : list string) : M bool :=
  e ← path_exists temp_path;
  if e then n ← st_size temp_path; ret (0 <? n)%N else ret false.

(** [not temp_path.exists() or temp_path.stat().st_size == 0] *)
Definition temp_missing_or_empty (temp_path : list string) : M bool :=
  e ← path_exists temp_path;
  if negb e then ret true else n ← st_size temp_path; ret (n =? 0)%N.

(** [if temp_path.exists(): temp_path.unlink()] *)
Definition unlink_if_exists (temp_path : list string) : M unit :=
  e ← path_exists temp_path;
  if e then unlink temp_path else ret tt.

(** [e.stderr if e.stderr else e.stdout if e.stdout else str(e)] *)
Definition fetch_error_text (cmd : list string) (r : Completed) : string :=
  if negb (PyStr.is_empty (stderr r)) then stderr r
  else if negb (PyStr.is_empty (stdout r)) then stdout r
  else str_CalledProcessError cmd r.

Definition trim_error_text (r : Completed) : string :=
  if negb (PyStr.is_empty (stderr r)) then stderr r
  else if negb (PyStr.is_empty (stdout r)) then stdout r
  else "Unknown error".

(** Lines 106-112: what is printed when every method has failed. *)
Definition report_exhausted (video_id : string) (last_error : option string)
  : M unit :=
  print (MsgErrorDownloading video_id);;
  match last_error with
  | Some e =>
      if PyStr.is_empty e then ret tt
      else
        print (MsgError e);;
        (if PyStr.contains "403" e || PyStr.contains "Forbidden" e
         then print MsgTipUpdate else ret tt);;
        (if PyStr.contains "bot" (PyStr.lower e)
            || PyStr.contains "cookies" (PyStr.lower e)
         then print MsgTipCookies else ret tt)
  | None => ret tt
  end.

(** Lines 86-116: the loop over [enumerate(download_methods, 1)]; [n] is
    [len(download_methods)] and [i] the number of the first method left. *)
Fixpoint try_methods (video_id : string) (temp_path : list string)
    (n i : nat) (last_error : option string)
    (methods : list (list string)) : M LoopExit :=
  match methods with
  | [] => ret Fallthrough
  | download_cmd :: rest =>
      last_error ←
        try_except
          (print (MsgDownloading i);;
           _ ← subprocess_run download_cmd;
           ret last_error)
          (fun cmd r => ret (Some (fetch_error_text cmd r)));
      got ← temp_nonempty temp_path;
      if got then
        size ← st_size temp_path;
        print (MsgDownloaded (Path.name temp_path) size);;
        ret Fallthrough
      else if (i <? n)%nat then
        print (MsgMethodFailed i);;
        try_methods video_id temp_path n (S i) last_error rest
      else
        report_exhausted video_id last_error;;
        unlink_if_exists temp_path;;
        ret (Returned false)
  end.

(** Lines 125-154: the [try] block around the transcode command. *)
Definition trim_segment (video_id : string) (temp_path : list string)
    (start_time_str : string) (duration : Z) (output_path : list string)
  : M bool :=
  try_except
    (print (MsgTrimming start_time_str duration);;
     _ ← subprocess_run
           (trim_cmd temp_path start_time_str duration output_path);
     unlink_if_exists temp_path;;
     print (MsgDone output_path);;
     ret true)
    (fun _ r =>
       print (MsgErrorTrimming video_id);;
       print (MsgError (trim_error_text r));;
       unlink_if_exists temp_path;;
       ret false).

Definition url_of (video_id : string) : string :=
  "https://www.youtube.com/watch?v=" ++ video_id.

(** Lines 47-48 *)
Definition temp_path_of (output_path : list string) (video_id : string)
  : list string :=
  let temp_dir := Path.parent output_path in
  Path.join temp_dir ("temp_" ++ video_id ++ ".wav").

Definition download_youtube_segment (video_id : string)
    (start_time end_time : Z) (output_path : list string)
    (cookies_file : option (list string)) : M bool :=
  let url := url_of video_id in
  let duration := end_time - start_time in
  let start_time_str := format_time start_time in
  let temp_path := temp_path_of output_path video_id in
  download_methods ← build_download_methods cookies_file temp_path url;
  left ← try_methods video_id temp_path (length download_methods) 1 None
           download_methods;
  match left with
  | Returned ok => ret ok
  | Fallthrough =>
      bad ← temp_missing_or_empty temp_path;
      if bad then
        print (MsgDownloadFailed video_id);;
        unlink_if_exists temp_path;;
        ret false
      else
        trim_segment video_id temp_path start_time_str duration output_path
  end.

(** *** Run Orchestrator *)

Definition base_dir : list string :=
  ["Users"; "ndesai-air"; "Documents"; "GitHub"; "ling320"].
Definition csv_path : list string := Path.join base_dir "id.csv".
Definition wav_dir : list string := Path.join base_dir "wav".
Definition cookies_file : list string := Path.join base_dir "cookies.txt".

Definition chrome_paths : list (list string) :=
  [(home ++ [".config"; "google-chrome"])%list;
   (home ++ ["Library"; "Application Support"; "Google"; "Chrome"])%list].
Definition safari_paths : list (list string) :=
  [(home ++ ["Library"; "Cookies"])%list].
Definition firefox_paths : list (list string) :=
  [(home ++ [".mozilla"; "firefox"])%list;
   (home ++ ["Library"; "Application Support"; "Firefox"])%list].
Definition all_browser_paths : list (list string) :=
  (chrome_paths ++ safari_paths ++ firefox_paths)%list.

(** Lines 186-189: the first existing path ends the search. *)
Fixpoint any_exists (paths : list (list string)) : M bool :=
  match paths with
  | [] => ret false
  | p :: rest => e ← path_exists p; if e then ret true else any_exists rest
  end.

(** [len(row) > 0 and 'id (' in row[0].lower()] *)
Definition is_header_row (row : list string) : bool :=
  match row with
  | [] => false
  | c0 :: _ => PyStr.contains "id (" (PyStr.lower c0)
  end.

Definition with_prefix (st : LoopState) (p : option string) : LoopState :=
  {| prefix := p;
     output_folder := output_folder st;
     video_id_counts := video_id_counts st |}.

(** Lines 256-259 *)
Definition count_occurrence (video_id : string) (counts : gmap string Z)
  : gmap string Z :=
  match counts !! video_id with
  | Some n => <[video_id := n + 1]> counts
  | None => <[video_id := 0]> counts
  end.

(** The body of the loop over the manifest rows (lines 217-278); the
    result is the loop variables after the row. *)
Definition process_row (has_cookies_file : bool) (st : LoopState)
    (row : list string) : M LoopState :=
  if is_header_row row then
    let new_prefix := extract_prefix_from_header (nth 0 row EmptyString) in
    match new_prefix with
    | Some p =>
        if PyStr.is_empty p then ret (with_prefix st new_prefix)
        else
          print (MsgProcessingPrefix p);;
          let folder := Path.join wav_dir p in
          mkdir folder;;
          print (MsgOutputFolder folder);;
          ret {| prefix := Some p;
                 output_folder := Some folder;
                 video_id_counts := ∅ |}
    | None => ret (with_prefix st None)
    end
  else
    match row with
    | c0 :: c1 :: _ =>
        match prefix st, output_folder st with
        | Some pre, Some folder =>
            if PyStr.is_empty pre then ret st
            else
              let video_id := PyStr.strip c0 in
              let time_range := PyStr.strip c1 in
              if PyStr.is_empty video_id || PyStr.is_empty time_range
              then ret st
              else if negb (String.length video_id =? 11)%nat then
                print (MsgSkipping video_id (String.length video_id));;
                ret st
              else
                match parse_time_range time_range with
                | None => raise ValueError
                | Some (start_time, end_time) =>
                    let counts :=
                      count_occurrence video_id (video_id_counts st) in
                    let seg_num := counts !!! video_id in
                    let output_filename :=
                      pre ++ "-" ++ video_id ++ "_seg"
                      ++ PyStr.str_Z seg_num ++ ".wav" in
                    let output_path := Path.join folder output_filename in
                    print (MsgProcessing video_id time_range);;
                    print (MsgStartEnd start_time end_time);;
                    print (MsgOutput output_path);;
                    let cookies_file_path :=
                      if has_cookies_file then Some cookies_file else None in
                    emit (EvJob
                            {| category := pre;
                               videoReference := video_id;
                               start_time := start_time;
                               end_time := end_time;
                               segmentIndex := seg_num;
                               output_path := output_path;
                               cookies_file_path := cookies_file_path |});;
                    ok ← download_youtube_segment video_id start_time
                           end_time output_path cookies_file_path;
                    emit (EvResult ok);;
                    ret {| prefix := Some pre;
                           output_folder := Some folder;
                           video_id_counts := counts |}
                end
        | _, _ => ret st
        end
    | _ => ret st
    end.

(** [for row in reader: ...] *)
Fixpoint process_rows (has_cookies_file : bool) (st : LoopState)
    (rows : list (list string)) : M LoopState :=
  match rows with
  | [] => ret st
  | row :: rest =>
      emit (EvRow row);;
      st' ← process_row has_cookies_file st row;
      process_rows has_cookies_file st' rest
  end.

Definition initial_state : LoopState :=
  {| prefix := None; output_folder := None; video_id_counts := ∅ |}.

(** Lines 163-199: is any authorization source there? *)
Definition check_cookies : M (bool * bool) :=
  has_cookies_file ← path_exists cookies_file;
  has_browser_cookies ←
    (if negb has_cookies_file then any_exists all_browser_paths
     else ret false);
  ret (has_cookies_file, has_browser_cookies).

(** [main()]; [manifest] is the rows [csv.reader] yields from [id.csv],
    for a file that opens and decodes. *)
Definition main (manifest : list (list string)) : M unit :=
  mkdir wav_dir;;
  '(has_cookies_file, has_browser_cookies) ← check_cookies;
  if negb has_cookies_file && negb has_browser_cookies then
    print MsgCookiesRequired;;
    raise (SystemExit 1)
  else
    print (if has_cookies_file then MsgUsingCookiesFile cookies_file
           else MsgUsingBrowserCookies);;
    emit (EvOpen csv_path);;
    _ ← process_rows has_cookies_file initial_state manifest;
    ret tt.

(** *** The attempt loop in the words of the specification *)

(** Is there a temporary artifact of non-zero size? *)
Definition artifact_nonempty (f : gmap (list string) Node)
    (temp_path : list string) : bool :=
  match lookup_node f temp_path with
  | Some (File n) => (0 <? n)%N
  | _ => false
  end.

(** "For each attempt, invoke the fetch collaborator; a non-zero-size
    temporary artifact existing after the call counts as a successful
    fetch, even if the invoked tool reported a non-zero exit status. Stop
    attempting further methods as soon as a non-empty temporary artifact
    exists."  The result is the methods attempted, whether one of them
    succeeded, and the world after the last attempt; what the tool
    reported is not looked at. *)
Fixpoint fetch_attempts (temp_path : list string)
    (methods : list (list string)) (w : World)
  : list (list string) * bool * World :=
  match methods with
  | [] => ([], false, w)
  | m :: rest =>
      let '(_, e', f') := run_tool m (env w) (fs w) in
      let w' := {| fs := f'; env := e' |} in
      if artifact_nonempty f' temp_path then ([m], true, w')
      else
        let '(tried, ok, w'') := fetch_attempts temp_path rest w' in
        (m :: tried, ok, w'')
  end.

(** "If a stored credential file exists, one attempt using it, followed by
    one attempt per browser source (fixed order)." *)
Definition planned_methods (f : gmap (list string) Node)
    (cookies_file : option (list string)) (temp_path : list string)
    (url : string) : list (list string) :=
  (match cookies_file with
   | Some c =>
       if bool_decide (is_Some (lookup_node f c))
       then [cookies_method c temp_path url] else []
   | None => []
   end
   ++ [browser_method temp_path url "chrome";
       browser_method temp_path url "safari";
       browser_method temp_path url "firefox"])%list.

(** The world with the temporary artifact removed. *)
Definition without (temp_path : list string) (w : World) : World :=
  {| fs := delete temp_path (fs w); env := env w |}.

End Program.

Arguments fs {Env} w.
Arguments env {Env} w.
Arguments Build_World {Env} fs env.
Arguments ret {Env A} a w.
Arguments bind {Env A B} m f w.
Arguments raise {Env A} e w.
Arguments emit {Env} ev w.
Arguments print {Env} m w.
Arguments try_except {Env A} m h w.
Arguments path_exists {Env} p w.
Arguments st_size {Env} p w.
Arguments unlink {Env} p w.
Arguments mkdir {Env} p w.
Arguments subprocess_run {Env} run_tool cmd w.
Arguments build_download_methods {Env} cookies_file temp_path url w.
Arguments temp_nonempty {Env} temp_path w.
Arguments temp_missing_or_empty {Env} temp_path w.
Arguments unlink_if_exists {Env} temp_path w.
Arguments report_exhausted {Env} video_id last_error w.
Arguments try_methods {Env} run_tool str_CalledProcessError video_id temp_path
  n i last_error methods w.
Arguments download_youtube_segment {Env} run_tool str_CalledProcessError
  video_id start_time end_time output_path cookies_file w.
Arguments trim_segment {Env} run_tool video_id temp_path start_time_str
  duration output_path w.
Arguments any_exists {Env} paths w.
Arguments process_row {Env} run_tool str_CalledProcessError has_cookies_file
  st row w.
Arguments process_rows {Env} run_tool str_CalledProcessError has_cookies_file
  st rows w.
Arguments check_cookies {Env} home w.
Arguments main {Env} run_tool home str_CalledProcessError manifest w.
Arguments fetch_attempts {Env} run_tool temp_path methods w.
Arguments without {Env} temp_path w.

(** ** Reading a run *)

(** The exit status of the process: 0 when [main] returns, the argument of
    [sys.exit], and 1 for an exception nobody caught. *)
Definition exit_status {A} (r : Exn + A) : Z :=
  match r with
  | inr _ => 0
  | inl (SystemExit n) => n
  | inl _ => 1
  end.

(** Two tools that change the world alike and may differ only in what they
    report: exit status and captured output. *)
Definition same_effects {Env : Type}
    (tool1 tool2 :
       list string -> Env -> gmap (list string) Node ->
       Completed * Env * gmap (list string) Node) : Prop :=
  forall cmd e f,
    (tool1 cmd e f).1.2 = (tool2 cmd e f).1.2
    /\ (tool1 cmd e f).2 = (tool2 cmd e f).2.

(** The command lines run, in order. *)
Fixpoint commands_run (evs : list Event) : list (list string) :=
  match evs with
  | [] => []
  | EvRun cmd _ :: rest => cmd :: commands_run rest
  | _ :: rest => commands_run rest
  end.

(** The jobs handed to the Segment Acquirer, in order. *)
Fixpoint jobs_of (evs : list Event) : list Job :=
  match evs with
  | [] => []
  | EvJob j :: rest => j :: jobs_of rest
  | _ :: rest => jobs_of rest
  end.

(** What the Segment Acquirer returned, call by call. *)
Fixpoint results_of (evs : list Event) : list bool :=
  match evs with
  | [] => []
  | EvResult ok :: rest => ok :: results_of rest
  | _ :: rest => results_of rest
  end.

(** The exit statuses the tools reported, in order. *)
Fixpoint returncodes (evs : list Event) : list Z :=
  match evs with
  | [] => []
  | EvRun _ r :: rest => returncode r :: returncodes rest
  | _ :: rest => returncodes rest
  end.

(** A command line of the transcode collaborator. *)
Definition is_transcode (cmd : list string) : bool :=
  match cmd with
  | tool :: _ => String.eqb tool "/opt/homebrew/bin/ffmpeg"
  | [] => false
  end.

(** The events [download_youtube_segment] can leave. *)
Definition acquirer_event (ev : Event) : bool :=
  match ev with
  | EvRun _ _ | EvUnlink _ => true
  | EvPrint m =>
      match m with
      | MsgDownloading _ | MsgDownloaded _ _ | MsgMethodFailed _
      | MsgErrorDownloading _ | MsgError _ | MsgTipUpdate | MsgTipCookies
      | MsgDownloadFailed _ | MsgTrimming _ _ | MsgDone _
      | MsgErrorTrimming _ => true
      | _ => false
      end
  | _ => false
  end.

(** The one line that tells the outcome of the authorization check. *)
Definition auth_verdict (ev : Event) : bool :=
  match ev with
  | EvPrint MsgCookiesRequired | EvPrint (MsgUsingCookiesFile _)
  | EvPrint MsgUsingBrowserCookies => true
  | _ => false
  end.

(** The events of reading the manifest and working on its rows. *)
Definition manifest_event (ev : Event) : bool :=
  match ev with
  | EvOpen _ | EvRow _ | EvJob _ | EvResult _ | EvRun _ _ => true
  | _ => false
  end.

(** [p.exists()] in a given file system. *)
Definition node_exists (f : gmap (list string) Node) (p : list string) : bool :=
  bool_decide (is_Some (lookup_node f p)).

(** Is there a stored credential file or a browser credential directory? *)
Definition has_authorization (home : list string)
    (f : gmap (list string) Node) : bool :=
  node_exists f cookies_file
  || existsb (node_exists f) (all_browser_paths home).

(** A header row that carries a category label. *)
Definition introduces_category (row : list string) : bool :=
  is_header_row row &&
  match extract_prefix_from_header (nth 0 row EmptyString) with
  | Some p => negb (PyStr.is_empty p)
  | None => false
  end.

(** The number of jobs for [video_id] since the last row that introduced a
    category; the events are given latest first. *)
Fixpoint jobs_in_category (video_id : string) (latest_first : list Event)
  : nat :=
  match latest_first with
  | [] => 0
  | EvJob j :: earlier =>
      (if String.eqb (videoReference j) video_id then 1 else 0)
      + jobs_in_category video_id earlier
  | EvRow row :: earlier =>
      if introduces_category row then 0
      else jobs_in_category video_id earlier
  | _ :: earlier => jobs_in_category video_id earlier
  end.

(** The segment number the next job for [video_id] gets. *)
Definition next_index (counts : gmap string Z) (video_id : string) : Z :=
  match counts !! video_id with Some n => n + 1 | None => 0 end.

(** The job [main] makes of a data row it accepts. *)
Definition job_for (has_cookies_file : bool) (pre : string)
    (folder : list string) (video_id : string) (start_time end_time : Z)
    (seg_num : Z) : Job :=
  {| category := pre;
     videoReference := video_id;
     start_time := start_time;
     end_time := end_time;
     segmentIndex := seg_num;
     output_path :=
       Path.join folder
         (pre ++ "-" ++ video_id ++ "_seg" ++ PyStr.str_Z seg_num ++ ".wav");
     cookies_file_path :=
       if has_cookies_file then Some cookies_file else None |}.

(** The loop variables after a job for [video_id]. *)
Definition advance (st : LoopState) (video_id : string) : LoopState :=
  {| prefix := prefix st;
     output_folder := output_folder st;
     video_id_counts :=
       <[video_id := next_index (video_id_counts st) video_id]>
         (video_id_counts st) |}.

(** Every job in [evs] carries the number of jobs its reference had before
    it in the category; [latest_first] is what happened before [evs]. *)
Fixpoint indices_consistent (latest_first : list Event) (evs : list Event)
  : Prop :=
  match evs with
  | [] => True
  | ev :: rest =>
      match ev with
      | EvJob j =>
          segmentIndex j
          = Z.of_nat (jobs_in_category (videoReference j) latest_first)
      | _ => True
      end
      /\ indices_consistent (ev :: latest_first) rest
  end.

(** Events that are neither a row nor a job. *)
Definition neutral_event (ev : Event) : bool :=
  match ev with
  | EvRow _ | EvJob _ => false
  | _ => true
  end.

(** The counters agree with what happened so far. *)
Definition counters_agree (counts : gmap string Z) (latest_first : list Event)
  : Prop :=
  forall video_id,
    counts !! video_id =
      match jobs_in_category video_id latest_first with
      | O => None
      | S k => Some (Z.of_nat k)
      end.

(** ** Sample worlds *)

Module Sample.

(** A tool that follows a script: each call takes the next entry, reports
    its exit status and, when the entry names a size, writes a file of
    that size where the command line says (after [--output] for the fetch
    tool, the last argument for the transcode tool).  With the script
    used up, a call fails and writes nothing. *)
Definition path_of_str (s : string) : list string :=
  tail (PyStr.split "/" s).

Fixpoint arg_after (flag : string) (cmd : list string) : option string :=
  match cmd with
  | a :: ((b :: _) as r) =>
      if String.eqb a flag then Some b else arg_after flag r
  | _ => None
  end.

Definition target (cmd : list string) : option (list string) :=
  match cmd with
  | "yt-dlp" :: _ => path_of_str <$> arg_after "--output" cmd
  | _ => Some (path_of_str (List.last cmd EmptyString))
  end.

Definition scripted_tool (cmd : list string) (script : list (Z * option N))
    (f : gmap (list string) Node)
  : Completed * list (Z * option N) * gmap (list string) Node :=
  match script with
  | [] =>
      ({| returncode := 1; stdout := ""; stderr := "ERROR: 403 Forbidden" |},
       [], f)
  | (rc, out) :: rest =>
      ({| returncode := rc; stdout := ""; stderr := "" |}, rest,
       match out, target cmd with
       | Some n, Some p => <[p := File n]> f
       | _, _ => f
       end)
  end.

(** The same tool, except that it always reports success. *)
Definition quiet_tool (cmd : list string) (script : list (Z * option N))
    (f : gmap (list string) Node)
  : Completed * list (Z * option N) * gmap (list string) Node :=
  let '(_, rest, f') := scripted_tool cmd script f in
  ({| returncode := 0; stdout := ""; stderr := "" |}, rest, f').

Fixpoint prefixes (p : list string) : list (list string) :=
  match p with
  | [] => []
  | c :: r => [c] :: map (cons c) (prefixes r)
  end.

Definition dirs (ps : list (list string)) : gmap (list string) Node :=
  list_to_map (map (fun p => (p, Dir)) ps).

Definition home : list string := ["Users"; "ndesai-air"].

Definition str_error (cmd : list string) (r : Completed) : string :=
  "Command returned non-zero exit status.".

(** The project directory and its [wav] directory exist; so does
    Safari's cookie directory. *)
Definition fs_browser : gmap (list string) Node :=
  dirs (prefixes wav_dir
        ++ [home ++ ["Library"]; home ++ ["Library"; "Cookies"]])%list.

(** The project directory exists, and nothing else. *)
Definition fs_bare : gmap (list string) Node := dirs (prefixes base_dir).

Definition world (f : gmap (list string) Node) (script : list (Z * option N))
  : World (list (Z * option N)) :=
  {| fs := f; env := script |}.

Definition run (f : gmap (list string) Node) (script : list (Z * option N))
    (manifest : list (list string)) :=
  main scripted_tool home str_error manifest (world f script).

Definition video : string := "abcdefghijk".

Definition folder_SC : list string := Path.join wav_dir "SC".

Definition in_SC : LoopState :=
  {| prefix := Some "SC";
     output_folder := Some folder_SC;
     video_id_counts := ∅ |}.

Definition out_seg0 : list string :=
  Path.join folder_SC "SC-abcdefghijk_seg0.wav".

(** Every call of a tool fails and writes nothing. *)
Definition failing : World (list (Z * option N)) := world fs_browser [].

(** The first fetch reports exit status 1 and leaves 100 bytes; the
    transcode command succeeds. *)
Definition tolerant : World (list (Z * option N)) :=
  world fs_browser [(1, Some 100%N); (0, Some 40%N)].

Definition data_row : list string := [video; "0:10-0:20"].

(** A header, a row whose time range has no [-], and a good row. *)
Definition manifest_bad_time : list (list string) :=
  [["id (SC)"; "time"]; [video; "soon"]; data_row].

(** A header, a header without a label, and a good row. *)
Definition manifest_unlabelled : list (list string) :=
  [["id (SC)"; "time"]; ["id ("; "time"]; data_row].

(** Two jobs for one reference in category SC, then one in category XY. *)
Definition manifest_two_categories : list (list string) :=
  [["id (SC)"; "time"]; data_row; [video; "1:00:00 - 1:00:10"];
   ["id (XY)"]; [video; "5-6"]].

(** The first job finds nothing with any of the three methods; the
    second one is fetched at once and transcoded. *)
Definition first_fails : World (list (Z * option N)) :=
  world fs_browser
    [(1, None); (1, None); (1, None); (0, Some 100%N); (0, Some 40%N)].

Definition manifest_twice : list (list string) :=
  [["id (SC)"; "time"]; data_row; [video; "0:30-0:40"]].

Definition events_two_categories : list Event :=
  (process_rows scripted_tool str_error false initial_state
     manifest_two_categories failing).2.

End Sample.

(** ** Further readings of texts and runs *)

(** Every character of the text satisfies [p]. *)
Fixpoint all_chars (p : ascii -> bool) (s : string) : bool :=
  match s with
  | EmptyString => true
  | String c r => p c && all_chars p r
  end.

Definition other_than (c : ascii) (x : ascii) : bool := negb (Ascii.eqb x c).

(** The characters [format_time] writes. *)
Definition time_char (c : ascii) : bool := PyStr.is_digit c || Ascii.eqb c ":".

(** A command line of the fetch collaborator. *)
Definition is_fetch (cmd : list string) : bool :=
  match cmd with
  | tool :: _ => String.eqb tool "yt-dlp"
  | [] => false
  end.

(** Where [main] puts the segment of a job (lines 226 and 264-265):
    [wav/<category>/<category>-<reference>_seg<n>.wav]. *)
Definition segment_path (category video_id : string) (seg_num : Z)
  : list string :=
  Path.join (Path.join wav_dir category)
    (category ++ "-" ++ video_id ++ "_seg" ++ PyStr.str_Z seg_num ++ ".wav").

(** What [main] hands to the Segment Acquirer is made as lines 241-277
    make it. *)
Definition job_as_planned (has_cookies_file : bool) (j : Job) : Prop :=
  PyStr.is_empty (category j) = false
  /\ String.length (videoReference j) = 11%nat
  /\ 0 <= start_time j /\ 0 <= end_time j /\ 0 <= segmentIndex j
  /\ output_path j
     = segment_path (category j) (videoReference j) (segmentIndex j)
  /\ cookies_file_path j
     = if has_cookies_file then Some cookies_file else None.

(** The loop variables fit together: the output folder is the folder of
    the active category, and no counter is negative. *)
Definition settled (st : LoopState) : Prop :=
  (forall p, prefix st = Some p ->
             output_folder st = Some (Path.join wav_dir p))
  /\ (forall video_id n, video_id_counts st !! video_id = Some n -> 0 <= n).

(** The reading of a header row that introduces a category. *)
Definition opens_category (ev : Event) : bool :=
  match ev with
  | EvRow row => introduces_category row
  | _ => false
  end.

(** A text that makes one component of a path: it is not empty, it is not
    ["."], and it has no ["/"]. *)
Definition single_segment (s : string) : bool :=
  negb (PyStr.is_empty s) && negb (String.eqb s ".")
  && all_chars (other_than "/") s.

(** A job whose category and reference both make one component. *)
Definition plain_job (j : Job) : bool :=
  single_segment (category j) && single_segment (videoReference j).

(** Events that leave no job, no result and no command. *)
Definition quiet_event (ev : Event) : bool :=
  match ev with
  | EvPrint _ | EvMkdir _ | EvUnlink _ | EvOpen _ => true
  | _ => false
  end.

(** ** A left-over artifact *)

Module Leftover.

(** A tool that fails and touches nothing. *)
Definition idle_tool (cmd : list string) (e : unit)
    (f : gmap (list string) Node)
  : Completed * unit * gmap (list string) Node :=
  ({| returncode := 1; stdout := ""; stderr := "" |}, e, f).

(** A file of 7 bytes is at the temporary path of the sample job. *)
Definition stale : World unit :=
  {| fs := <[temp_path_of Sample.out_seg0 Sample.video := File 7]>
             Sample.fs_browser;
     env := tt |}.

End Leftover.

(** * Properties *)

(** ** Characters and decimal numerals *)

Section Numerals.

Import PyStr.

Lemma digit_value_lt c d : digit_value c = Some d -> (d < 10)%N.
Proof.
  unfold digit_value. destruct (_ && _) eqn:E; [|discriminate].
  intros [= <-]. apply andb_true_iff in E as [_ E%N.leb_le]. lia.
Qed.

Lemma digit_value_char d : (d < 10)%N -> digit_value (digit_char d) = Some d.
Proof.
  intros H. unfold digit_value, digit_char, code.
  rewrite N_ascii_embedding by lia.
  replace ((48 <=? 48 + d)%N && (48 + d <=? 57)%N) with true.
  - f_equal. lia.
  - symmetry. apply andb_true_iff. split; apply N.leb_le; lia.
Qed.

(** What [int] does on a text whose first character is a digit. *)
Lemma int_digit_first c r d :
  digit_value c = Some d ->
  int (String c r) =
    match scan_digits d r with
    | Some (n, rest) =>
        if is_empty (lstrip is_int_space rest) then Some (Z.of_N n) else None
    | None => None
    end.
Proof.
  destruct c as [[] [] [] [] [] [] [] []]; intros H; vm_compute in H;
    try discriminate; injection H as <-; reflexivity.
Qed.

Lemma scan_digits_zero_first c r d :
  digit_value c = Some d -> scan_digits 0 (String c r) = scan_digits d r.
Proof. intros H. cbn [scan_digits]. rewrite H. f_equal; lia. Qed.

(** Reading back the digits written in front of [acc]. *)
Lemma scan_dec_digits fuel : forall n acc,
  (n < 2 ^ N.of_nat (S fuel))%N ->
  scan_digits 0 (dec_digits fuel n acc) = scan_digits n acc.
Proof.
  induction fuel as [|fuel IH]; intros n acc Hn.
  - assert (n < 10)%N by (change (2 ^ N.of_nat 1)%N with 2%N in Hn; lia).
    cbn [dec_digits]. rewrite N.mod_small by lia.
    rewrite (scan_digits_zero_first _ _ n) by now apply digit_value_char.
    reflexivity.
  - cbn [dec_digits]. destruct (N.ltb_spec n 10) as [Hlt|Hge].
    + rewrite N.mod_small by lia.
      rewrite (scan_digits_zero_first _ _ n) by now apply digit_value_char.
      reflexivity.
    + rewrite IH.
      * cbn [scan_digits]. rewrite digit_value_char by (apply N.mod_lt; lia).
        f_equal. pose proof (N.div_mod n 10). lia.
      * rewrite Nat2N.inj_succ, N.pow_succ_r' in Hn.
        apply N.Div0.div_lt_upper_bound. lia.
Qed.

Lemma log2_fuel n : (n < 2 ^ N.of_nat (S (N.to_nat (N.log2 n))))%N.
Proof.
  rewrite Nat2N.inj_succ, N2Nat.id.
  destruct (N.eq_dec n 0%N) as [->|Hn]; [reflexivity|].
  apply N.log2_spec. lia.
Qed.

Lemma scan_str_N n : scan_digits 0 (str_N n) = Some (n, EmptyString).
Proof.
  unfold str_N. rewrite scan_dec_digits by apply log2_fuel. reflexivity.
Qed.

Lemma scan_zeros k s : scan_digits 0 (zeros k s) = scan_digits 0 s.
Proof. induction k as [|k IH]; [reflexivity|]. cbn. exact IH. Qed.

Lemma digits_only_dec fuel : forall n acc,
  digits_only acc = true -> digits_only (dec_digits fuel n acc) = true.
Proof.
  assert (Hd : forall n, is_digit (digit_char (n mod 10)) = true).
  { intros n. unfold is_digit.
    rewrite digit_value_char; [reflexivity|]. apply N.mod_lt. lia. }
  induction fuel as [|fuel IH]; intros n acc Hacc; cbn [dec_digits].
  - cbn. now rewrite Hd.
  - destruct (n <? 10)%N; [cbn; now rewrite Hd|].
    apply IH. cbn. now rewrite Hd.
Qed.

Lemma digits_only_zeros k s :
  digits_only s = true -> digits_only (zeros k s) = true.
Proof. induction k; intros H; [exact H|]. cbn. now apply IHk. Qed.

Lemma dec_digits_nonempty fuel : forall n acc,
  dec_digits fuel n acc <> EmptyString.
Proof.
  induction fuel as [|fuel IH]; intros n acc; cbn [dec_digits].
  - discriminate.
  - destruct (n <? 10)%N; [discriminate|apply IH].
Qed.

Lemma zeros_length k s : String.length (zeros k s) = (k + String.length s)%nat.
Proof. induction k; cbn; [reflexivity|]. now rewrite IHk. Qed.

(** [f"{z:02d}"] of a non-negative number: digits only, two at least, and
    [int] reads the number back. *)
Lemma format_02d_digits z :
  0 <= z -> digits_only (format_02d z) = true.
Proof.
  intros Hz. unfold format_02d. destruct (Z.ltb_spec z 0); [lia|].
  apply digits_only_zeros, digits_only_dec. reflexivity.
Qed.

Lemma format_02d_width z : 0 <= z -> (2 <= String.length (format_02d z))%nat.
Proof.
  intros Hz. unfold format_02d. destruct (Z.ltb_spec z 0); [lia|].
  rewrite zeros_length. lia.
Qed.

Lemma int_digits_only s n :
  digits_only s = true -> s <> EmptyString ->
  scan_digits 0 s = Some (n, EmptyString) -> int s = Some (Z.of_N n).
Proof.
  destruct s as [|c r]; [congruence|]. cbn [digits_only]. unfold is_digit.
  destruct (digit_value c) as [d|] eqn:Hc; [|discriminate].
  intros _ _ H. rewrite (int_digit_first _ _ d Hc).
  rewrite (scan_digits_zero_first _ _ d Hc) in H. now rewrite H.
Qed.

Lemma zeros_nonempty k s : s <> EmptyString -> zeros k s <> EmptyString.
Proof. destruct k; [trivial|discriminate]. Qed.

Lemma int_format_02d z : 0 <= z -> int (format_02d z) = Some z.
Proof.
  intros Hz. rewrite <- (Z2N.id z Hz) at 2.
  apply int_digits_only.
  - now apply format_02d_digits.
  - unfold format_02d. destruct (Z.ltb_spec z 0); [lia|].
    apply zeros_nonempty, dec_digits_nonempty.
  - unfold format_02d. destruct (Z.ltb_spec z 0); [lia|].
    rewrite scan_zeros. apply scan_str_N.
Qed.

(** Splitting at a separator that is not a digit. *)
Lemma split_digits_only sep s :
  digit_value sep = None -> digits_only s = true -> split sep s = [s].
Proof.
  intros Hsep. induction s as [|c r IH]; [reflexivity|].
  cbn [digits_only split]. intros [Hc Hr]%andb_true_iff.
  destruct (Ascii.eqb_spec c sep) as [->|_].
  - unfold is_digit in Hc. rewrite Hsep in Hc. discriminate.
  - now rewrite IH.
Qed.

Lemma append_empty_l (s : string) : EmptyString ++ s = s.
Proof. reflexivity. Qed.

Lemma append_String c (s t : string) : String c s ++ t = String c (s ++ t).
Proof. reflexivity. Qed.

Lemma split_digits_app sep s t :
  digit_value sep = None -> digits_only s = true ->
  split sep (s ++ String sep t) = s :: split sep t.
Proof.
  intros Hsep. induction s as [|c r IH].
  - intros _. rewrite append_empty_l. cbn [split].
    now rewrite Ascii.eqb_refl.
  - cbn [digits_only]. intros [Hc Hr]%andb_true_iff.
    rewrite append_String. cbn [split].
    destruct (Ascii.eqb_spec c sep) as [->|_].
    + unfold is_digit in Hc. rewrite Hsep in Hc. discriminate.
    + now rewrite IH.
Qed.

End Numerals.

(** ** Time Parser *)

Section TimeParser.

Import PyStr.

Lemma split_nonempty sep s : split sep s <> [].
Proof.
  destruct s as [|c r]; cbn [split]; [discriminate|].
  destruct (Ascii.eqb c sep); [discriminate|].
  destruct (split sep r); discriminate.
Qed.

Lemma colon_not_digit : digit_value ":" = None.
Proof. reflexivity. Qed.

Lemma split_two a b :
  digits_only a = true -> digits_only b = true ->
  split ":" (a ++ ":" ++ b) = [a; b].
Proof.
  intros Ha Hb. rewrite append_String, append_empty_l.
  rewrite split_digits_app by (trivial using colon_not_digit).
  now rewrite split_digits_only by (trivial using colon_not_digit).
Qed.

Lemma split_three a b c :
  digits_only a = true -> digits_only b = true -> digits_only c = true ->
  split ":" (a ++ ":" ++ b ++ ":" ++ c) = [a; b; c].
Proof.
  intros Ha Hb Hc. rewrite append_String, append_empty_l.
  rewrite split_digits_app by (trivial using colon_not_digit).
  now rewrite split_two.
Qed.

(** The two shapes of [format_time]. *)
Lemma format_time_short n :
  0 <= n < 3600 ->
  format_time n = format_02d (n / 60) ++ ":" ++ format_02d (n mod 60).
Proof.
  intros Hn. unfold format_time.
  rewrite (Z.div_small n 3600), (Z.mod_small n 3600) by lia.
  reflexivity.
Qed.

Lemma format_time_long n :
  3600 <= n ->
  format_time n =
    format_02d (n / 3600) ++ ":" ++ format_02d ((n mod 3600) / 60) ++ ":"
    ++ format_02d (n mod 60).
Proof.
  intros Hn. unfold format_time.
  assert (0 < n / 3600) by (apply Z.div_str_pos; lia).
  destruct (Z.ltb_spec 0 (n / 3600)); [reflexivity|lia].
Qed.

Lemma time_to_seconds_format_time n :
  0 <= n -> time_to_seconds (format_time n) = Some n.
Proof.
  intros Hn. destruct (Z.lt_ge_cases n 3600) as [Hlt|Hge].
  - rewrite format_time_short by lia.
    assert (0 <= n / 60) by (apply Z.div_pos; lia).
    assert (0 <= n mod 60) by (apply Z.mod_pos_bound; lia).
    unfold time_to_seconds.
    rewrite split_two by now apply format_02d_digits.
    rewrite !int_format_02d by assumption. cbn.
    f_equal. pose proof (Z.div_mod n 60). lia.
  - rewrite format_time_long by lia.
    assert (0 <= n / 3600) by (apply Z.div_pos; lia).
    assert (0 <= n mod 3600 < 3600) by (apply Z.mod_pos_bound; lia).
    assert (0 <= n mod 3600 / 60) by (apply Z.div_pos; lia).
    assert (0 <= n mod 60) by (apply Z.mod_pos_bound; lia).
    unfold time_to_seconds.
    rewrite split_three by now apply format_02d_digits.
    rewrite !int_format_02d by assumption. cbn.
    f_equal.
    pose proof (Z.div_mod n 3600). pose proof (Z.div_mod (n mod 3600) 60).
    assert (n mod 60 = (n mod 3600) mod 60).
    { symmetry. apply Z.mod_mod_divide. exists 60. reflexivity. }
    lia.
Qed.

Lemma nonneg_numeric_int p :
  nonneg_numeric p = true -> exists v, int p = Some v /\ 0 <= v.
Proof.
  unfold nonneg_numeric. destruct (int p) as [v|]; [|discriminate].
  intros H%Z.leb_le. eauto.
Qed.

Lemma valid_time_token_seconds t :
  valid_time_token t = true -> exists n, time_to_seconds t = Some n /\ 0 <= n.
Proof.
  unfold valid_time_token, time_to_seconds.
  pose proof (split_nonempty ":" t) as Hne.
  destruct (split ":" t) as [|p0 [|p1 [|p2 [|p3 ps]]]]; [congruence| | | |];
    cbn [length forallb]; intros H;
    repeat match goal with
      | H : _ && _ = true |- _ => apply andb_true_iff in H as [? ?]
      | H : nonneg_numeric _ = true |- _ =>
          apply nonneg_numeric_int in H as (? & -> & ?)
      end; try discriminate; cbn; eexists; (split; [reflexivity|lia]).
Qed.

Lemma format_time_fields n :
  0 <= n ->
  Forall (fun field => digits_only field = true
                       /\ (2 <= String.length field)%nat)
    (split ":" (format_time n)).
Proof.
  intros Hn. destruct (Z.lt_ge_cases n 3600) as [Hlt|Hge].
  - rewrite format_time_short by lia.
    assert (0 <= n / 60) by (apply Z.div_pos; lia).
    assert (0 <= n mod 60) by (apply Z.mod_pos_bound; lia).
    rewrite split_two by now apply format_02d_digits.
    repeat constructor; auto using format_02d_digits, format_02d_width.
  - rewrite format_time_long by lia.
    assert (0 <= n / 3600) by (apply Z.div_pos; lia).
    assert (0 <= n mod 3600 < 3600) by (apply Z.mod_pos_bound; lia).
    assert (0 <= n mod 3600 / 60) by (apply Z.div_pos; lia).
    assert (0 <= n mod 60) by (apply Z.mod_pos_bound; lia).
    rewrite split_three by now apply format_02d_digits.
    repeat constructor; auto using format_02d_digits, format_02d_width.
Qed.

(** C9. A valid time token (at most three components, each a non-negative
    number) converts to a non-negative number of seconds [n];
    [format_time n] is [MM:SS] below 3600 seconds and [HH:MM:SS] from 3600
    on, every field written with two digits at least; and converting the
    formatted text gives [n] again. *)
Theorem time_token_round_trip (t : string) :
  valid_time_token t = true ->
  exists n,
    time_to_seconds t = Some n /\ 0 <= n /\
    time_to_seconds (format_time n) = Some n /\
    format_time n =
      (if n <? 3600
       then format_02d (n / 60) ++ ":" ++ format_02d (n mod 60)
       else format_02d (n / 3600) ++ ":" ++ format_02d ((n mod 3600) / 60)
            ++ ":" ++ format_02d (n mod 60)) /\
    Forall (fun field => digits_only field = true
                         /\ (2 <= String.length field)%nat)
      (split ":" (format_time n)).
Proof.
  intros Hv. destruct (valid_time_token_seconds t Hv) as (n & Hn & Hpos).
  exists n. repeat split; trivial.
  - now apply time_to_seconds_format_time.
  - destruct (Z.ltb_spec n 3600).
    + apply format_time_short. lia.
    + now apply format_time_long.
  - now apply format_time_fields.
Qed.

(** C4, as the code has it. [time_to_seconds] fails exactly when the token
    has at most three components and one of them is not a number, or has
    more than three and the first is not a number; with more than three
    components it returns what [int] makes of the first one and never
    looks at the others. *)
Theorem time_to_seconds_failure (t : string) :
  let parts := split ":" t in
  (time_to_seconds t = None <->
     ((length parts <= 3)%nat /\ Exists (fun p => int p = None) parts)
     \/ ((3 < length parts)%nat /\ int (hd EmptyString parts) = None))
  /\ ((3 < length parts)%nat ->
      time_to_seconds t = int (hd EmptyString parts)).
Proof.
  unfold time_to_seconds. pose proof (split_nonempty ":" t) as Hne.
  destruct (split ":" t) as [|p0 [|p1 [|p2 [|p3 ps]]]]; [congruence| | | |];
    cbn [length hd]; (split; [|try (intros; lia); reflexivity]).
  - split.
    + intros H. left. split; [lia|]. now constructor.
    + intros [[_ H]|[H _]]; [|lia].
      apply Exists_cons in H as [H|H]; [exact H|]. inversion H.
  - split.
    + intros H. left. split; [lia|].
      destruct (int p0) eqn:E0; [|now constructor].
      destruct (int p1) eqn:E1; [discriminate|].
      constructor 2. now constructor.
    + intros [[_ H]|[H _]]; [|lia].
      repeat (apply Exists_cons in H as [H|H]; [rewrite H|]);
        [reflexivity| |inversion H].
      now destruct (int p0).
  - split.
    + intros H. left. split; [lia|].
      destruct (int p0) eqn:E0; [|now constructor].
      destruct (int p1) eqn:E1; [|constructor 2; now constructor].
      destruct (int p2) eqn:E2; [discriminate|].
      do 2 constructor 2. now constructor.
    + intros [[_ H]|[H _]]; [|lia].
      repeat (apply Exists_cons in H as [H|H]; [rewrite H|]);
        [reflexivity| | |inversion H].
      * now destruct (int p0).
      * destruct (int p0); [|reflexivity]. now destruct (int p1).
  - split.
    + intros H. right. split; [lia|exact H].
    + intros [[H _]|[_ H]]; [lia|exact H].
Qed.

End TimeParser.

(** ** Segment Acquirer *)

Section Acquirer.

Context {Env : Type}.
Variable run_tool :
  list string -> Env -> gmap (list string) Node ->
  Completed * Env * gmap (list string) Node.
Variable str_CalledProcessError : list string -> Completed -> string.

Implicit Types (w : World Env) (temp_path : list string).

Lemma commands_run_app (a b : list Event) :
  commands_run (a ++ b) = (commands_run a ++ commands_run b)%list.
Proof. induction a as [|[] a IH]; cbn; rewrite ?IH; reflexivity. Qed.

Lemma temp_nonempty_run temp_path w :
  temp_nonempty temp_path w
  = (inr (artifact_nonempty (fs w) temp_path), w, []).
Proof.
  unfold temp_nonempty, artifact_nonempty, bind, path_exists, st_size, ret.
  destruct (lookup_node (fs w) temp_path) as [[n|]|] eqn:E; cbn; rewrite ?E;
    reflexivity.
Qed.

Lemma temp_missing_or_empty_run temp_path w :
  temp_missing_or_empty temp_path w
  = (inr (negb (artifact_nonempty (fs w) temp_path)), w, []).
Proof.
  unfold temp_missing_or_empty, artifact_nonempty, bind, path_exists,
    st_size, ret.
  destruct (lookup_node (fs w) temp_path) as [[n|]|] eqn:E; cbn; rewrite ?E;
    try reflexivity.
  cbn. do 2 f_equal. now destruct n.
Qed.

Lemma unlink_if_exists_run temp_path w :
  exists evs,
    unlink_if_exists temp_path w = (inr tt, without temp_path w, evs)
    /\ Forall (fun ev => acquirer_event ev = true) evs
    /\ commands_run evs = [].
Proof.
  unfold unlink_if_exists, bind, path_exists, unlink, without, ret.
  destruct (lookup_node (fs w) temp_path) as [nd|] eqn:E; cbn; rewrite ?E.
  - eexists. split; [reflexivity|]. split; [|reflexivity].
    repeat constructor.
  - exists []. split; [|split; [constructor|reflexivity]].
    do 2 f_equal. destruct w as [f e]; cbn in *. f_equal.
    symmetry. apply delete_id.
    destruct temp_path; [discriminate|exact E].
Qed.

Lemma report_exhausted_run video_id last_error w :
  exists evs,
    report_exhausted video_id last_error w
    = (inr tt, w, EvPrint (MsgErrorDownloading video_id) :: evs)
    /\ Forall (fun ev => acquirer_event ev = true) evs
    /\ commands_run evs = [].
Proof.
  unfold report_exhausted, bind, print, emit, ret.
  destruct last_error as [e|]; cbn.
  - destruct (PyStr.is_empty e); cbn.
    + exists []. repeat split; constructor.
    + destruct (_ || _); destruct (_ || _); cbn;
        eexists; (split; [reflexivity|]); split; repeat constructor.
  - exists []. repeat split; constructor.
Qed.

Lemma bind_inr {A B} (m : M Env A) (f : A -> M Env B) w a w' t :
  m w = (inr a, w', t) ->
  bind m f w = (let '(r, w'', t') := f a w' in (r, w'', (t ++ t')%list)).
Proof. unfold bind. now intros ->. Qed.

Lemma bind_inl {A B} (m : M Env A) (f : A -> M Env B) w e w' t :
  m w = (inl e, w', t) -> bind m f w = (inl e, w', t).
Proof. unfold bind. now intros ->. Qed.

(** The [try] block of the method loop: whatever the tool reports, control
    reaches the check of the artifact. *)
Lemma fetch_try_run i m last_error w :
  try_except
    (bind (print (MsgDownloading i))
       (fun _ => bind (subprocess_run run_tool m) (fun _ => ret last_error)))
    (fun cmd r => ret (Some (fetch_error_text str_CalledProcessError cmd r)))
    w
  = (let '(r, e', f') := run_tool m (env w) (fs w) in
     (inr (if returncode r =? 0 then last_error
           else Some (fetch_error_text str_CalledProcessError m r)),
      {| fs := f'; env := e' |},
      [EvPrint (MsgDownloading i); EvRun m r])).
Proof.
  unfold try_except, bind, print, emit, subprocess_run, ret.
  destruct (run_tool m (env w) (fs w)) as [[r e'] f'].
  now destruct (returncode r =? 0).
Qed.

Lemma try_methods_run video_id temp_path n : forall methods i last_error w,
  (i + length methods = S n)%nat -> methods <> [] ->
  forall tried ok w1,
    fetch_attempts run_tool temp_path methods w = (tried, ok, w1) ->
    exists res w2 evs,
      try_methods run_tool str_CalledProcessError video_id temp_path n i
        last_error methods w = (res, w2, evs)
      /\ Forall (fun ev => acquirer_event ev = true) evs
      /\ commands_run evs = tried
      /\ (if ok then res = inr Fallthrough /\ w2 = w1
          else res = inr (Returned false) /\ w2 = without temp_path w1
               /\ In (EvPrint (MsgErrorDownloading video_id)) evs).
Proof.
  induction methods as [|m rest IH]; [congruence|].
  intros i last_error w Hlen _ tried ok w1.
  cbn [fetch_attempts try_methods length] in *.
  pose proof (fetch_try_run i m last_error w) as Htry.
  destruct (run_tool m (env w) (fs w)) as [[r e'] f'] eqn:Hrun.
  erewrite bind_inr by exact Htry. clear Htry.
  remember {| fs := f'; env := e' |} as w' eqn:Hw'.
  assert (Hfs : fs w' = f') by now subst w'.
  erewrite bind_inr by apply temp_nonempty_run.
  rewrite Hfs. destruct (artifact_nonempty f' temp_path) eqn:Hart.
  - intros [= <- <- <-].
    unfold bind, st_size, print, emit, ret.
    unfold artifact_nonempty in Hart. rewrite Hfs.
    destruct (lookup_node f' temp_path) as [[sz|]|] eqn:E;
      try discriminate.
    do 3 eexists. split; [reflexivity|].
    split; [repeat constructor|]. split; [reflexivity|]. now split.
  - destruct (fetch_attempts run_tool temp_path rest w')
      as [[tried' ok'] w1'] eqn:Hrest.
    intros [= <- <- <-].
    destruct rest as [|m' rest'].
    + cbn in Hrest. injection Hrest as <- <- <-.
      replace (i <? n)%nat with false
        by (symmetry; apply Nat.ltb_ge; cbn in Hlen; lia).
      destruct (report_exhausted_run video_id
                  (if returncode r =? 0 then last_error
                   else Some (fetch_error_text str_CalledProcessError m r)) w')
        as (evs1 & H1 & Hacq1 & Hcmd1).
      destruct (unlink_if_exists_run temp_path w')
        as (evs2 & H2 & Hacq2 & Hcmd2).
      erewrite bind_inr by apply H1. erewrite bind_inr by apply H2.
      unfold ret. do 3 eexists. split; [reflexivity|].
      split; [|split; [|split; [reflexivity|split; [reflexivity|]]]].
      * repeat (apply Forall_cons; split; [reflexivity|]).
        rewrite app_nil_r. apply Forall_app. now split.
      * rewrite app_nil_r. cbn [app commands_run].
        now rewrite commands_run_app, Hcmd1, Hcmd2.
      * cbn. right. right. now left.
    + replace (i <? n)%nat with true
        by (symmetry; apply Nat.ltb_lt; cbn in Hlen; lia).
      unfold bind at 1. unfold print at 1, emit at 1.
      destruct (IH (S i)
                  (if returncode r =? 0 then last_error
                   else Some (fetch_error_text str_CalledProcessError m r))
                  w' ltac:(cbn in *; lia) ltac:(discriminate)
                  _ _ _ Hrest) as (res & w2 & evs & Hrun' & Hacq & Hcmd & Hok).
      rewrite Hrun'. do 3 eexists. split; [reflexivity|].
      split; [repeat (apply Forall_cons; split; [reflexivity|]); exact Hacq|].
      split; [cbn; now rewrite Hcmd|].
      destruct ok'; [exact Hok|].
      destruct Hok as (? & ? & Hin). repeat split; trivial.
      cbn. right. right. right. exact Hin.
Qed.


Lemma build_download_methods_run cookies_file temp_path url w :
  build_download_methods cookies_file temp_path url w
  = (inr (planned_methods (fs w) cookies_file temp_path url), w, []).
Proof.
  unfold build_download_methods, planned_methods, bind, path_exists, ret.
  destruct cookies_file as [c|]; [|reflexivity].
  now destruct (bool_decide _).
Qed.

Lemma planned_methods_nonempty f cookies_file temp_path url :
  planned_methods f cookies_file temp_path url <> [].
Proof.
  unfold planned_methods. destruct cookies_file as [c|]; [|discriminate].
  destruct (bool_decide _); discriminate.
Qed.

(** The loop of the specification reports success exactly when the last
    attempt left a non-empty artifact, and tries the methods in order. *)
Lemma fetch_attempts_ok temp_path : forall methods w tried w1,
  fetch_attempts run_tool temp_path methods w = (tried, true, w1) ->
  artifact_nonempty (fs w1) temp_path = true.
Proof.
  induction methods as [|m rest IH]; intros w tried w1; cbn [fetch_attempts].
  - discriminate.
  - destruct (run_tool m (env w) (fs w)) as [[r e'] f'].
    destruct (artifact_nonempty f' temp_path) eqn:Hart.
    + now intros [= <- <-].
    + destruct (fetch_attempts _ _ rest _) as [[tried' ok'] w1'] eqn:Hrest.
      intros [= <- -> <-]. eapply IH, Hrest.
Qed.

Lemma fetch_attempts_prefix temp_path : forall methods w tried ok w1,
  fetch_attempts run_tool temp_path methods w = (tried, ok, w1) ->
  tried `prefix_of` methods /\ (ok = false -> tried = methods).
Proof.
  induction methods as [|m rest IH]; intros w tried ok w1; cbn [fetch_attempts].
  - now intros [= <- <- <-].
  - destruct (run_tool m (env w) (fs w)) as [[r e'] f'].
    destruct (artifact_nonempty f' temp_path).
    + intros [= <- <- <-]. split; [|discriminate]. now exists rest.
    + destruct (fetch_attempts _ _ rest _) as [[tried' ok'] w1'] eqn:Hrest.
      intros [= <- <- <-]. destruct (IH _ _ _ _ Hrest) as [Hp Hall].
      split; [now apply prefix_cons|]. intros ->. now rewrite Hall.
Qed.

(** What one call of the Segment Acquirer does, in terms of the attempt
    loop of the specification: it never raises; when no attempt
    succeeded it returns [False] without running anything else; when one
    did, it runs the transcode command once and returns whether that
    command reported success. In both cases the temporary artifact is
    gone afterwards. *)
Lemma trim_segment_run video_id temp_path start_time_str duration
    output_path w :
  let trim := trim_cmd temp_path start_time_str duration output_path in
  exists evs,
    trim_segment run_tool video_id temp_path start_time_str duration
      output_path w
    = (inr (returncode (run_tool trim (env w) (fs w)).1.1 =? 0),
       without temp_path
         {| fs := (run_tool trim (env w) (fs w)).2;
            env := (run_tool trim (env w) (fs w)).1.2 |},
       evs)
    /\ Forall (fun ev => acquirer_event ev = true) evs
    /\ commands_run evs = [trim].
Proof.
  intros trim. unfold trim_segment, try_except, subprocess_run. fold trim.
  unfold bind at 1, print at 1, emit at 1. unfold bind at 1.
  destruct (run_tool trim (env w) (fs w)) as [[r e'] f'] eqn:Htrim.
  cbn [fst snd].
  destruct (unlink_if_exists_run temp_path {| fs := f'; env := e' |})
    as (evs2 & H2 & Hacq2 & Hcmd2).
  destruct (returncode r =? 0).
  - erewrite bind_inr by exact H2.
    unfold bind, print, emit, ret. cbn [app].
    eexists. split; [reflexivity|]. split.
    + repeat (apply Forall_cons; split; [reflexivity|]).
      apply Forall_app. split; [exact Hacq2|]. now repeat constructor.
    + cbn [commands_run]. now rewrite commands_run_app, Hcmd2.
  - unfold bind at 1, print at 1, emit at 1.
    unfold bind at 1, print at 1, emit at 1.
    erewrite bind_inr by exact H2. unfold ret. cbn [app].
    eexists. split; [reflexivity|]. split.
    + repeat (apply Forall_cons; split; [reflexivity|]).
      rewrite ?app_nil_r. exact Hacq2.
    + cbn [commands_run]. now rewrite ?app_nil_r, Hcmd2.
Qed.

Lemma download_run video_id start_time end_time output_path cookies_file w :
  let temp_path := temp_path_of output_path video_id in
  let methods :=
    planned_methods (fs w) cookies_file temp_path (url_of video_id) in
  let trim :=
    trim_cmd temp_path (format_time start_time) (end_time - start_time)
      output_path in
  forall tried ok w1,
    fetch_attempts run_tool temp_path methods w = (tried, ok, w1) ->
    exists res w2 evs,
      download_youtube_segment run_tool str_CalledProcessError video_id
        start_time end_time output_path cookies_file w = (inr res, w2, evs)
      /\ Forall (fun ev => acquirer_event ev = true) evs
      /\ (if ok then
            res = (returncode (run_tool trim (env w1) (fs w1)).1.1 =? 0)
            /\ w2 = without temp_path
                      {| fs := (run_tool trim (env w1) (fs w1)).2;
                         env := (run_tool trim (env w1) (fs w1)).1.2 |}
            /\ commands_run evs = (tried ++ [trim])%list
          else
            res = false /\ w2 = without temp_path w1
            /\ commands_run evs = tried
            /\ In (EvPrint (MsgErrorDownloading video_id)) evs).
Proof.
  intros temp_path methods trim tried ok w1 Hfetch.
  unfold download_youtube_segment.
  erewrite bind_inr by apply build_download_methods_run.
  fold temp_path methods.
  destruct (try_methods_run video_id temp_path (length methods) methods 1
              None w eq_refl (planned_methods_nonempty _ _ _ _)
              _ _ _ Hfetch)
    as (res & w2 & evs & Hrun & Hacq & Hcmd & Hok).
  destruct ok.
  - destruct Hok as [-> ->].
    erewrite bind_inr by exact Hrun. cbv beta iota.
    erewrite bind_inr by apply temp_missing_or_empty_run.
    rewrite (fetch_attempts_ok _ _ _ _ _ Hfetch). cbn [negb].
    destruct (trim_segment_run video_id temp_path (format_time start_time)
                (end_time - start_time) output_path w1)
      as (evs2 & H2 & Hacq2 & Hcmd2).
    rewrite H2. do 3 eexists. split; [reflexivity|].
    cbn [app]. split; [apply Forall_app; now split|].
    repeat split. now rewrite commands_run_app, Hcmd, Hcmd2.
  - destruct Hok as (-> & -> & Hin).
    erewrite bind_inr by exact Hrun. unfold ret.
    do 3 eexists. split; [reflexivity|]. rewrite !app_nil_r.
    repeat split; trivial.
Qed.


Lemma fetch_attempts_failed temp_path : forall methods w tried w1,
  methods <> [] ->
  fetch_attempts run_tool temp_path methods w = (tried, false, w1) ->
  artifact_nonempty (fs w1) temp_path = false.
Proof.
  induction methods as [|m rest IH]; intros w tried w1 Hne; [congruence|].
  cbn [fetch_attempts].
  destruct (run_tool m (env w) (fs w)) as [[r e'] f'].
  destruct (artifact_nonempty f' temp_path) eqn:Hart; [discriminate|].
  destruct rest as [|m' rest'].
  - cbn [fetch_attempts]. now intros [= <- <-].
  - destruct (fetch_attempts _ _ (m' :: rest') _)
      as [[tried' ok'] w1'] eqn:Hrest.
    intros [= <- -> <-]. eapply IH; [discriminate|exact Hrest].
Qed.

Lemma planned_methods_fetch f cookies_file temp_path url :
  Forall (fun cmd => is_transcode cmd = false)
    (planned_methods f cookies_file temp_path url).
Proof.
  unfold planned_methods. destruct cookies_file as [c|];
    [destruct (bool_decide _)|]; repeat constructor.
Qed.

Lemma temp_path_lookup_without output_path video_id w :
  lookup_node (fs (without (temp_path_of output_path video_id) w))
    (temp_path_of output_path video_id) = None.
Proof.
  unfold without, temp_path_of, Path.join. cbn [fs].
  destruct (Path.parent output_path
            ++ [("temp_" ++ video_id ++ ".wav")%string])%list
    as [|c p] eqn:E.
  - now apply app_eq_nil in E as [_ ?].
  - cbn [lookup_node]. apply lookup_delete_eq.
Qed.

(** C2. If no fetch attempt yields a non-empty temporary artifact, the
    Segment Acquirer reports the failure and returns [False]; the
    temporary artifact is gone afterwards; and the only commands run are
    the fetch attempts, so the transcode command is never run. *)
Theorem exhausted_fetch_reports_failure video_id start_time end_time
    output_path cookies_file w tried w1 :
  let temp_path := temp_path_of output_path video_id in
  fetch_attempts run_tool temp_path
    (planned_methods (fs w) cookies_file temp_path (url_of video_id)) w
  = (tried, false, w1) ->
  exists evs,
    download_youtube_segment run_tool str_CalledProcessError video_id
      start_time end_time output_path cookies_file w
    = (inr false, without temp_path w1, evs)
    /\ In (EvPrint (MsgErrorDownloading video_id)) evs
    /\ lookup_node (fs (without temp_path w1)) temp_path = None
    /\ Forall (fun cmd => is_transcode cmd = false) (commands_run evs).
Proof.
  intros temp_path Hfetch.
  destruct (download_run video_id start_time end_time output_path
              cookies_file w _ _ _ Hfetch)
    as (res & w2 & evs & Hrun & _ & -> & -> & Hcmd & Hin).
  exists evs. split; [exact Hrun|]. split; [exact Hin|].
  split; [apply temp_path_lookup_without|].
  rewrite Hcmd.
  destruct (fetch_attempts_prefix _ _ _ _ _ _ Hfetch) as [_ Hall].
  rewrite (Hall eq_refl). apply planned_methods_fetch.
Qed.

End Acquirer.

(** ** The exit status of the fetch tool *)

Section ExitStatus.

Context {Env : Type}.
Variables run_tool run_tool' :
  list string -> Env -> gmap (list string) Node ->
  Completed * Env * gmap (list string) Node.
Variables str_CalledProcessError str_CalledProcessError' :
  list string -> Completed -> string.

Implicit Types (w : World Env) (temp_path : list string).

Lemma fetch_attempts_same_effects temp_path :
  same_effects run_tool run_tool' ->
  forall methods w,
    fetch_attempts run_tool temp_path methods w
    = fetch_attempts run_tool' temp_path methods w.
Proof.
  intros Hsame. induction methods as [|m rest IH]; intros w; [reflexivity|].
  cbn [fetch_attempts]. destruct (Hsame m (env w) (fs w)) as [He Hf].
  destruct (run_tool m (env w) (fs w)) as [[r e1] f1].
  destruct (run_tool' m (env w) (fs w)) as [[r' e2] f2].
  cbn [fst snd] in He, Hf. subst e2 f2. now rewrite IH.
Qed.

(** C1. The methods are built in a fixed order: the stored-credential
    method first, when the credential file exists, then chrome, safari,
    firefox.  The commands the Segment Acquirer runs are the attempts of
    the specification's loop, in that order, followed by the transcode
    command exactly when an attempt succeeded; an attempt succeeds if and
    only if a temporary artifact of non-zero size exists after it.  The
    exit status plays no part: with a tool that changes the world in the
    same way and reports anything else, the same commands are run. *)
Theorem fetch_attempts_in_fixed_order video_id start_time end_time
    output_path cookies_file w :
  let temp_path := temp_path_of output_path video_id in
  let url := url_of video_id in
  let methods := planned_methods (fs w) cookies_file temp_path url in
  let trim :=
    trim_cmd temp_path (format_time start_time) (end_time - start_time)
      output_path in
  let '(tried, ok, w1) := fetch_attempts run_tool temp_path methods w in
  let '(res, w2, evs) :=
    download_youtube_segment run_tool str_CalledProcessError video_id
      start_time end_time output_path cookies_file w in
  build_download_methods cookies_file temp_path url w = (inr methods, w, [])
  /\ methods =
       (match cookies_file with
        | Some c =>
            if bool_decide (is_Some (lookup_node (fs w) c))
            then [cookies_method c temp_path url] else []
        | None => []
        end
        ++ map (browser_method temp_path url)
             ["chrome"; "safari"; "firefox"])%list
  /\ tried `prefix_of` methods
  /\ (ok = true <-> artifact_nonempty (fs w1) temp_path = true)
  /\ (ok = false -> tried = methods /\ res = inr false)
  /\ commands_run evs = (tried ++ if ok then [trim] else [])%list
  /\ (same_effects run_tool run_tool' ->
      commands_run
        (download_youtube_segment run_tool' str_CalledProcessError' video_id
           start_time end_time output_path cookies_file w).2
      = commands_run evs).
Proof.
  intros temp_path url methods trim.
  destruct (fetch_attempts run_tool temp_path methods w)
    as [[tried ok] w1] eqn:Hfetch.
  destruct (download_run run_tool str_CalledProcessError video_id start_time
              end_time output_path cookies_file w _ _ _ Hfetch)
    as (res & w2 & evs & -> & _ & Hok).
  destruct (fetch_attempts_prefix _ _ _ _ _ _ _ Hfetch) as [Hpre Hall].
  assert (Hcmd : commands_run evs = (tried ++ if ok then [trim] else [])%list).
  { destruct ok; [now destruct Hok as (_ & _ & ?)|].
    destruct Hok as (_ & _ & -> & _). now rewrite app_nil_r. }
  split; [apply build_download_methods_run|].
  split; [reflexivity|]. split; [exact Hpre|].
  split; [|split; [|split; [exact Hcmd|]]].
  - destruct ok.
    + split; [intros _; eapply fetch_attempts_ok, Hfetch|trivial].
    + rewrite (fetch_attempts_failed _ _ _ _ _ _
                 (planned_methods_nonempty _ _ _ _) Hfetch).
      split; discriminate.
  - intros ->. destruct Hok as (-> & _). split; [now apply Hall|reflexivity].
  - intros Hsame. rewrite Hcmd.
    rewrite (fetch_attempts_same_effects temp_path Hsame) in Hfetch.
    destruct (download_run run_tool' str_CalledProcessError' video_id
                start_time end_time output_path cookies_file w _ _ _ Hfetch)
      as (res' & w2' & evs' & -> & _ & Hok').
    cbn [snd]. destruct ok; [now destruct Hok' as (_ & _ & ?)|].
    destruct Hok' as (_ & _ & -> & _). now rewrite app_nil_r.
Qed.

End ExitStatus.

(** ** Manifest Reader and Run Orchestrator *)

Section Orchestrator.

Context {Env : Type}.
Variable run_tool :
  list string -> Env -> gmap (list string) Node ->
  Completed * Env * gmap (list string) Node.
Variable str_CalledProcessError : list string -> Completed -> string.

Implicit Types (w : World Env) (st : LoopState) (row : list string).


(** With tools that run to their end, a call of the Segment Acquirer
    returns, and it leaves only its own events. *)
Lemma download_returns video_id start_time end_time output_path cookies w :
  exists ok w' evs,
    download_youtube_segment run_tool str_CalledProcessError video_id
      start_time end_time output_path cookies w
    = (inr ok, w', evs)
    /\ Forall (fun ev => acquirer_event ev = true) evs.
Proof.
  destruct (fetch_attempts run_tool (temp_path_of output_path video_id)
              (planned_methods (fs w) cookies
                 (temp_path_of output_path video_id) (url_of video_id)) w)
    as [[tried ok] w1] eqn:Hfetch.
  destruct (download_run run_tool str_CalledProcessError video_id start_time
              end_time output_path cookies w _ _ _ Hfetch)
    as (res & w2 & evs & Hrun & Hacq & _).
  eauto.
Qed.

(** The label of a header row is never empty. *)
Lemma match_group_nonempty s g :
  match_group s = Some g -> PyStr.is_empty g = false.
Proof.
  unfold match_group. destruct (span_group s) as [[|c g'] [|c' t]];
    try discriminate. now intros [= <-].
Qed.

Lemma extract_prefix_nonempty header p :
  extract_prefix_from_header header = Some p -> PyStr.is_empty p = false.
Proof.
  unfold extract_prefix_from_header.
  destruct (re_search_group header) as [g|] eqn:E; [|discriminate].
  intros [= <-]. induction header as [|c r IH]; [discriminate|].
  cbn [re_search_group] in E. destruct (Ascii.eqb c "("); [|auto].
  destruct (match_group r) eqn:Hm; [|auto].
  injection E as <-. eapply match_group_nonempty, Hm.
Qed.

Lemma count_occurrence_insert video_id counts :
  count_occurrence video_id counts
  = <[video_id := next_index counts video_id]> counts.
Proof.
  unfold count_occurrence, next_index. now destruct (counts !! video_id).
Qed.

Lemma count_occurrence_lookup video_id counts :
  count_occurrence video_id counts !!! video_id = next_index counts video_id.
Proof.
  rewrite count_occurrence_insert. unfold lookup_total, map_lookup_total.
  now rewrite lookup_insert_eq.
Qed.

(** *** One row *)

Lemma process_row_header_unlabelled hc st row w :
  is_header_row row = true ->
  extract_prefix_from_header (nth 0 row EmptyString) = None ->
  process_row run_tool str_CalledProcessError hc st row w
  = (inr (with_prefix st None), w, []).
Proof. intros Hh Hp. unfold process_row. now rewrite Hh, Hp. Qed.

Lemma process_row_header_labelled hc st row w p :
  is_header_row row = true ->
  extract_prefix_from_header (nth 0 row EmptyString) = Some p ->
  process_row run_tool str_CalledProcessError hc st row w =
    match mkdir (Path.join wav_dir p) w with
    | (inl e, w', t) => (inl e, w', EvPrint (MsgProcessingPrefix p) :: t)
    | (inr _, w', t) =>
        (inr {| prefix := Some p;
                output_folder := Some (Path.join wav_dir p);
                video_id_counts := ∅ |},
         w',
         EvPrint (MsgProcessingPrefix p)
         :: (t ++ [EvPrint (MsgOutputFolder (Path.join wav_dir p))])%list)
    end.
Proof.
  intros Hh Hp. unfold process_row. rewrite Hh, Hp.
  rewrite (extract_prefix_nonempty _ _ Hp).
  unfold bind, print, emit, ret.
  destruct (mkdir (Path.join wav_dir p) w) as [[[e|[]] w'] t]; reflexivity.
Qed.

Lemma mkdir_events p w :
  exists r w', (mkdir p w = (r, w', []) \/ mkdir p w = (r, w', [EvMkdir p])).
Proof.
  unfold mkdir. destruct (lookup_node (fs w) p) as [[|]|]; eauto.
  destruct (lookup_node (fs w) (Path.parent p)) as [[|]|]; eauto.
Qed.

(** A data row that passes every check: the job is made from the loop
    variables and the row alone, the counter is advanced, and only then
    is the Segment Acquirer called; its result is dropped. *)
Lemma process_row_job hc st row w c0 c1 more pre folder s e :
  is_header_row row = false ->
  row = c0 :: c1 :: more ->
  prefix st = Some pre -> PyStr.is_empty pre = false ->
  output_folder st = Some folder ->
  PyStr.is_empty (PyStr.strip c0) = false ->
  PyStr.is_empty (PyStr.strip c1) = false ->
  String.length (PyStr.strip c0) = 11%nat ->
  parse_time_range (PyStr.strip c1) = Some (s, e) ->
  let video_id := PyStr.strip c0 in
  let j := job_for hc pre folder video_id s e
             (next_index (video_id_counts st) video_id) in
  exists ok w' dl,
    download_youtube_segment run_tool str_CalledProcessError video_id s e
      (output_path j) (cookies_file_path j) w
    = (inr ok, w', dl)
    /\ Forall (fun ev => acquirer_event ev = true) dl
    /\ process_row run_tool str_CalledProcessError hc st row w =
         (inr (advance st video_id), w',
          [EvPrint (MsgProcessing video_id (PyStr.strip c1));
           EvPrint (MsgStartEnd s e);
           EvPrint (MsgOutput (output_path j));
           EvJob j] ++ dl ++ [EvResult ok])%list.
Proof.
  intros Hh -> Hpre Hne Hfolder H0 H1 Hlen Hparse video_id j.
  subst video_id.
  destruct (download_returns (PyStr.strip c0) s e (output_path j)
              (cookies_file_path j) w) as (ok & w' & dl & Hdl & Hacq).
  exists ok, w', dl. split; [exact Hdl|]. split; [exact Hacq|].
  unfold process_row. rewrite Hh, Hpre, Hfolder, Hne.
  rewrite H0, H1. cbn [orb].
  rewrite Hlen. cbn [Nat.eqb negb].
  rewrite Hparse. rewrite count_occurrence_lookup.
  unfold bind at 1, print at 1, emit at 1.
  unfold bind at 1, print at 1, emit at 1.
  unfold bind at 1, print at 1, emit at 1.
  unfold bind at 1, emit at 1.
  unfold j, job_for in Hdl. cbn [output_path cookies_file_path] in Hdl.
  erewrite bind_inr by exact Hdl.
  unfold bind, emit, ret. cbn [app].
  unfold advance. rewrite count_occurrence_insert, Hpre, Hfolder.
  reflexivity.
Qed.

(** What can happen to a row that is not a header row: it is skipped
    (with at most a diagnostic), or its time range does not parse and
    [ValueError] is raised, or it passes every check. *)
Lemma process_row_data hc st row w :
  is_header_row row = false ->
  (exists evs,
      process_row run_tool str_CalledProcessError hc st row w = (inr st, w, evs)
      /\ Forall (fun ev => neutral_event ev = true
                           /\ auth_verdict ev = false
                           /\ manifest_event ev = false) evs)
  \/ (process_row run_tool str_CalledProcessError hc st row w
      = (inl ValueError, w, [])
      /\ exists c0 c1 more,
           row = c0 :: c1 :: more
           /\ parse_time_range (PyStr.strip c1) = None)
  \/ (exists c0 c1 more pre folder s e,
        row = c0 :: c1 :: more
        /\ prefix st = Some pre /\ PyStr.is_empty pre = false
        /\ output_folder st = Some folder
        /\ PyStr.is_empty (PyStr.strip c0) = false
        /\ PyStr.is_empty (PyStr.strip c1) = false
        /\ String.length (PyStr.strip c0) = 11%nat
        /\ parse_time_range (PyStr.strip c1) = Some (s, e)).
Proof.
  intros Hh. unfold process_row. rewrite Hh.
  destruct row as [|c0 [|c1 more]];
    [left; exists []; split; [reflexivity|constructor]..|].
  destruct (prefix st) as [pre|] eqn:Hpre;
    [|left; exists []; split; [reflexivity|constructor]].
  destruct (output_folder st) as [folder|] eqn:Hfolder;
    [|left; exists []; split; [reflexivity|constructor]].
  destruct (PyStr.is_empty pre) eqn:Hne;
    [left; exists []; split; [reflexivity|constructor]|].
  destruct (PyStr.is_empty (PyStr.strip c0)) eqn:H0;
    [left; exists []; split; [reflexivity|constructor]|].
  destruct (PyStr.is_empty (PyStr.strip c1)) eqn:H1;
    [left; exists []; split; [reflexivity|constructor]|].
  cbn [orb].
  destruct (Nat.eqb_spec (String.length (PyStr.strip c0)) 11) as [Hlen|Hlen].
  - cbn [negb].
    destruct (parse_time_range (PyStr.strip c1)) as [[s e]|] eqn:Hparse.
    + right. right. exists c0, c1, more, pre, folder, s, e. now repeat split.
    + right. left. split; [reflexivity|]. now exists c0, c1, more.
  - left. eexists. split; [reflexivity|]. now repeat constructor.
Qed.

Lemma acquirer_event_neutral ev :
  acquirer_event ev = true ->
  neutral_event ev = true /\ auth_verdict ev = false.
Proof. destruct ev as [[]| | | | | | |]; cbn; try discriminate; auto. Qed.

Lemma not_in_neutral (evs : list Event) j :
  Forall (fun ev => neutral_event ev = true) evs -> ~ In (EvJob j) evs.
Proof.
  intros H Hin. rewrite Forall_forall in H.
  apply list_elem_of_In in Hin. now apply H in Hin.
Qed.

Lemma acquirer_events_neutral (evs : list Event) :
  Forall (fun ev => acquirer_event ev = true) evs ->
  Forall (fun ev => neutral_event ev = true) evs.
Proof.
  intros H. eapply Forall_impl; [exact H|].
  intros ev Hev. now apply acquirer_event_neutral.
Qed.

Lemma process_rows_cons hc st row rest w :
  process_rows run_tool str_CalledProcessError hc st (row :: rest) w
  = bind (emit (EvRow row))
      (fun _ =>
         bind (process_row run_tool str_CalledProcessError hc st row)
           (fun st' =>
              process_rows run_tool str_CalledProcessError hc st' rest))
      w.
Proof. reflexivity. Qed.

(** Without an active category, rows that are not header rows are read
    and nothing else happens. *)
Lemma rows_without_category hc st :
  prefix st = None ->
  forall rows w,
    Forall (fun row => is_header_row row = false) rows ->
    process_rows run_tool str_CalledProcessError hc st rows w
    = (inr st, w, map EvRow rows).
Proof.
  intros Hpre. induction rows as [|row rows IH]; intros w Hall; [reflexivity|].
  apply Forall_cons in Hall as [Hh Hall].
  rewrite process_rows_cons. unfold bind at 1, emit at 1.
  assert (Hrow : process_row run_tool str_CalledProcessError hc st row w
                 = (inr st, w, [])).
  { unfold process_row. rewrite Hh, Hpre.
    now destruct row as [|c0 [|c1 more]]. }
  erewrite bind_inr by exact Hrow. now rewrite IH.
Qed.

Lemma process_rows_app hc st before rest w :
  process_rows run_tool str_CalledProcessError hc st (before ++ rest) w
  = bind (process_rows run_tool str_CalledProcessError hc st before)
      (fun st' => process_rows run_tool str_CalledProcessError hc st' rest)
      w.
Proof.
  revert st w. induction before as [|row before IH]; intros st w.
  - cbn [app process_rows]. unfold bind, ret.
    now destruct (process_rows _ _ _ _ rest w) as [[r w'] t].
  - rewrite <- app_comm_cons. cbn [process_rows]. unfold bind, emit.
    destruct (process_row _ _ hc st row w) as [[[e|st'] w'] t];
      [reflexivity|].
    specialize (IH st' w'). unfold bind in IH. rewrite IH.
    destruct (process_rows _ _ hc st' before w') as [[[e|st''] w''] t'];
      [reflexivity|].
    destruct (process_rows _ _ hc st'' rest w'') as [[r w3] t''].
    cbn [app]. now rewrite !app_assoc.
Qed.

(** C7. A row yields a job only if it is not a header row, a category is
    active, its first two cells are non-empty after trimming, and the
    first one trims to exactly 11 characters; the job carries that
    category and that reference.  In particular rows read before any
    header row leave no job: they are read and nothing else happens. *)
Theorem job_only_from_valid_data_row hc st row w r w' evs j :
  process_row run_tool str_CalledProcessError hc st row w = (r, w', evs) ->
  In (EvJob j) evs ->
  is_header_row row = false
  /\ (exists pre,
        prefix st = Some pre /\ pre <> EmptyString /\ category j = pre)
  /\ (exists c0 c1 more,
        row = c0 :: c1 :: more
        /\ PyStr.strip c0 <> EmptyString /\ PyStr.strip c1 <> EmptyString
        /\ String.length (PyStr.strip c0) = 11%nat
        /\ videoReference j = PyStr.strip c0)
  /\ (forall rows w0,
        Forall (fun row0 => is_header_row row0 = false) rows ->
        process_rows run_tool str_CalledProcessError hc initial_state rows w0
        = (inr initial_state, w0, map EvRow rows)).
Proof.
  intros Hrun Hin.
  assert (Hbefore : forall rows w0,
            Forall (fun row0 => is_header_row row0 = false) rows ->
            process_rows run_tool str_CalledProcessError hc initial_state
              rows w0
            = (inr initial_state, w0, map EvRow rows))
    by (intros; now apply rows_without_category).
  destruct (is_header_row row) eqn:Hh.
  - exfalso.
    destruct (extract_prefix_from_header (nth 0 row EmptyString))
      as [p|] eqn:Hp.
    + rewrite (process_row_header_labelled _ _ _ _ _ Hh Hp) in Hrun.
      destruct (mkdir_events (Path.join wav_dir p) w)
        as (r0 & w0 & [Hm|Hm]); rewrite Hm in Hrun;
        destruct r0 as [e|[]]; injection Hrun as <- <- <-;
        cbn in Hin; intuition discriminate.
    + rewrite (process_row_header_unlabelled _ _ _ _ Hh Hp) in Hrun.
      injection Hrun as <- <- <-. destruct Hin.
  - split; [reflexivity|].
    destruct (process_row_data hc st row w Hh)
      as [(evs0 & Hskip & Hneutral)|[[Habort _]|Hjob]].
    + exfalso. rewrite Hskip in Hrun. injection Hrun as <- <- <-.
      eapply not_in_neutral, Hin.
      eapply Forall_impl; [exact Hneutral|]. now intros ev [? _].
    + exfalso. rewrite Habort in Hrun. injection Hrun as <- <- <-.
      destruct Hin.
    + destruct Hjob as (c0 & c1 & more & pre & folder & s & e & Hrow & Hpre
                        & Hne & Hfolder & H0 & H1 & Hlen & Hparse).
      destruct (process_row_job hc st row w _ _ _ _ _ _ _ Hh Hrow Hpre Hne
                  Hfolder H0 H1 Hlen Hparse)
        as (ok & w1 & dl & _ & Hacq & Hshape).
      rewrite Hshape in Hrun. injection Hrun as <- <- <-.
      assert (Hj : j = job_for hc pre folder (PyStr.strip c0) s e
                         (next_index (video_id_counts st) (PyStr.strip c0))).
      { cbn in Hin. destruct Hin as [?|[?|[?|[Heq|Hin]]]];
          try discriminate; [now injection Heq|].
        apply in_app_or in Hin as [Hin|[?|[]]]; [|discriminate].
        exfalso. eapply not_in_neutral, Hin.
        now apply acquirer_events_neutral. }
      subst j. split; [|split; [|exact Hbefore]].
      * exists pre. repeat split; trivial. intros ->. discriminate.
      * exists c0, c1, more. repeat split; trivial; intros E;
          rewrite E in *; discriminate.
Qed.

(** C5, as the code has it. A header row whose first cell has the marker
    but no parenthesized label clears the active category and leaves the
    output folder and the segment counters as they were; it produces no
    job, and the rows after it that are not header rows are read and
    skipped. *)
Theorem unlabelled_header_clears_category hc st row w :
  is_header_row row = true ->
  extract_prefix_from_header (nth 0 row EmptyString) = None ->
  process_row run_tool str_CalledProcessError hc st row w
  = (inr {| prefix := None;
            output_folder := output_folder st;
            video_id_counts := video_id_counts st |}, w, [])
  /\ forall rows w0,
       Forall (fun row0 => is_header_row row0 = false) rows ->
       process_rows run_tool str_CalledProcessError hc
         (with_prefix st None) rows w0
       = (inr (with_prefix st None), w0, map EvRow rows).
Proof.
  intros Hh Hp. split.
  - now apply process_row_header_unlabelled.
  - intros rows w0. now apply rows_without_category.
Qed.

(** C3, as the code has it. When the time range of a data row that passed
    the earlier checks does not parse, [ValueError] leaves the loop: the
    rows before it have been worked on, the row itself is read, and no
    row after it is; nothing catches the error. *)
Theorem parse_failure_aborts_run hc st0 before rest w0 st w evs
    c0 c1 more pre folder :
  process_rows run_tool str_CalledProcessError hc st0 before w0
  = (inr st, w, evs) ->
  is_header_row (c0 :: c1 :: more) = false ->
  prefix st = Some pre -> PyStr.is_empty pre = false ->
  output_folder st = Some folder ->
  PyStr.is_empty (PyStr.strip c0) = false ->
  PyStr.is_empty (PyStr.strip c1) = false ->
  String.length (PyStr.strip c0) = 11%nat ->
  parse_time_range (PyStr.strip c1) = None ->
  process_rows run_tool str_CalledProcessError hc st0
    (before ++ (c0 :: c1 :: more) :: rest) w0
  = (inl ValueError, w, (evs ++ [EvRow (c0 :: c1 :: more)])%list).
Proof.
  intros Hbefore Hh Hpre Hne Hfolder H0 H1 Hlen Hparse.
  rewrite process_rows_app. erewrite bind_inr by exact Hbefore.
  rewrite process_rows_cons. unfold bind at 1, emit at 1.
  assert (Hrow : process_row run_tool str_CalledProcessError hc st
                   (c0 :: c1 :: more) w = (inl ValueError, w, [])).
  { unfold process_row. rewrite Hh, Hpre, Hfolder, Hne, H0, H1.
    cbn [orb]. rewrite Hlen. cbn [Nat.eqb negb]. now rewrite Hparse. }
  erewrite bind_inl by exact Hrow. reflexivity.
Qed.

(** C10. For a data row that yields a job, the job and its segment number
    are fixed, and the counter of the reference is advanced, before the
    Segment Acquirer is called.  Whatever the call does then, the row
    ends as the call ends: if it returns, [True] or [False] alike, the
    result is dropped and the loop variables after the row are the ones
    before it with the counter advanced, so that the next job for the
    reference gets the next number; if it raises, the row raises, after
    the same job. *)
Theorem counter_advances_whatever_the_outcome hc st row w
    c0 c1 more pre folder s e :
  is_header_row row = false ->
  row = c0 :: c1 :: more ->
  prefix st = Some pre -> PyStr.is_empty pre = false ->
  output_folder st = Some folder ->
  PyStr.is_empty (PyStr.strip c0) = false ->
  PyStr.is_empty (PyStr.strip c1) = false ->
  String.length (PyStr.strip c0) = 11%nat ->
  parse_time_range (PyStr.strip c1) = Some (s, e) ->
  let video_id := PyStr.strip c0 in
  let j := job_for hc pre folder video_id s e
             (next_index (video_id_counts st) video_id) in
  let planned :=
    [EvPrint (MsgProcessing video_id (PyStr.strip c1));
     EvPrint (MsgStartEnd s e);
     EvPrint (MsgOutput (output_path j));
     EvJob j] in
  forall outcome w' dl,
    download_youtube_segment run_tool str_CalledProcessError video_id s e
      (output_path j) (cookies_file_path j) w = (outcome, w', dl) ->
    process_row run_tool str_CalledProcessError hc st row w
    = match outcome with
      | inr ok =>
          (inr (advance st video_id), w',
           (planned ++ dl ++ [EvResult ok])%list)
      | inl exn => (inl exn, w', (planned ++ dl)%list)
      end
    /\ Forall (fun ev => acquirer_event ev = true) dl
    /\ video_id_counts (advance st video_id) !! video_id
       = Some (segmentIndex j)
    /\ next_index (video_id_counts (advance st video_id)) video_id
       = segmentIndex j + 1.
Proof.
  intros Hh -> Hpre Hne Hfolder H0 H1 Hlen Hparse video_id j planned
    outcome w' dl Hdl.
  split; [|split].
  - subst video_id planned. unfold process_row.
    rewrite Hh, Hpre, Hfolder, Hne. rewrite H0, H1. cbn [orb].
    rewrite Hlen. cbn [Nat.eqb negb].
    rewrite Hparse. rewrite count_occurrence_lookup.
    unfold bind at 1, print at 1, emit at 1.
    unfold bind at 1, print at 1, emit at 1.
    unfold bind at 1, print at 1, emit at 1.
    unfold bind at 1, emit at 1.
    unfold j, job_for in Hdl. cbn [output_path cookies_file_path] in Hdl.
    destruct outcome as [exn|ok].
    + erewrite bind_inl by exact Hdl. reflexivity.
    + erewrite bind_inr by exact Hdl.
      unfold bind, emit, ret. cbn [app].
      unfold advance. rewrite count_occurrence_insert, Hpre, Hfolder.
      reflexivity.
  - destruct (download_returns video_id s e (output_path j)
                (cookies_file_path j) w) as (ok & w1 & dl1 & Hrun & Hacq).
    rewrite Hrun in Hdl. now injection Hdl as <- <- <-.
  - unfold advance, next_index at 2. cbn [video_id_counts].
    rewrite lookup_insert_eq. now split.
Qed.

(** *** Segment numbers *)

Lemma jobs_in_category_neutral video_id (l : list Event) : forall h,
  Forall (fun ev => neutral_event ev = true) l ->
  jobs_in_category video_id (rev l ++ h) = jobs_in_category video_id h.
Proof.
  induction l as [|ev l IH]; intros h Hall; [reflexivity|].
  apply Forall_cons in Hall as [Hev Hall].
  cbn [rev]. rewrite <- app_assoc. cbn [app]. rewrite IH by exact Hall.
  destruct ev; try discriminate; reflexivity.
Qed.

Lemma indices_consistent_app (a b : list Event) : forall h,
  indices_consistent h (a ++ b)
  <-> indices_consistent h a /\ indices_consistent (rev a ++ h) b.
Proof.
  induction a as [|ev a IH]; intros h; cbn [app rev indices_consistent].
  - tauto.
  - rewrite IH, <- app_assoc. cbn [app]. tauto.
Qed.

Lemma indices_consistent_neutral (l : list Event) : forall h,
  Forall (fun ev => neutral_event ev = true) l -> indices_consistent h l.
Proof.
  induction l as [|ev l IH]; intros h Hall; [exact I|].
  apply Forall_cons in Hall as [Hev Hall]. cbn [indices_consistent].
  split; [|now apply IH]. destruct ev; try discriminate; exact I.
Qed.

Lemma next_index_agrees counts h video_id :
  counters_agree counts h ->
  next_index counts video_id = Z.of_nat (jobs_in_category video_id h).
Proof.
  intros Hc. unfold next_index. rewrite (Hc video_id).
  destruct (jobs_in_category video_id h); lia.
Qed.

Lemma introduces_category_header row :
  is_header_row row = false -> introduces_category row = false.
Proof. unfold introduces_category. now intros ->. Qed.

(** One row keeps the counters in step with the jobs handed out. *)
Lemma row_keeps_counters hc st row w res w' evs h :
  counters_agree (video_id_counts st) h ->
  process_row run_tool str_CalledProcessError hc st row w = (res, w', evs) ->
  indices_consistent (EvRow row :: h) evs
  /\ Forall (fun ev => auth_verdict ev = false) evs
  /\ forall st',
       res = inr st' ->
       counters_agree (video_id_counts st') (rev evs ++ EvRow row :: h).
Proof.
  intros Hc Hrun. destruct (is_header_row row) eqn:Hh.
  - destruct (extract_prefix_from_header (nth 0 row EmptyString))
      as [p|] eqn:Hp.
    + rewrite (process_row_header_labelled _ _ _ _ _ Hh Hp) in Hrun.
      assert (Hintro : introduces_category row = true).
      { unfold introduces_category.
        now rewrite Hh, Hp, (extract_prefix_nonempty _ _ Hp). }
      assert (Hn : Forall (fun ev => neutral_event ev = true) evs
                   /\ Forall (fun ev => auth_verdict ev = false) evs
                   /\ forall st', res = inr st' -> video_id_counts st' = ∅).
      { destruct (mkdir_events (Path.join wav_dir p) w)
          as (r0 & w1 & [Hm|Hm]); rewrite Hm in Hrun;
          destruct r0 as [e|[]]; injection Hrun as <- <- <-;
          (split; [now repeat constructor|]);
          (split; [now repeat constructor|]);
          intros st' [= <-]; reflexivity. }
      destruct Hn as (Hn & Hv & Hempty).
      split; [now apply indices_consistent_neutral|]. split; [exact Hv|].
      intros st' ->. rewrite (Hempty _ eq_refl). intros video_id.
      rewrite jobs_in_category_neutral by exact Hn.
      cbn [jobs_in_category]. rewrite Hintro. apply lookup_empty.
    + rewrite (process_row_header_unlabelled _ _ _ _ Hh Hp) in Hrun.
      injection Hrun as <- <- <-. split; [exact I|]. split; [constructor|].
      intros st' [= <-]. intros video_id. cbn [rev app jobs_in_category].
      unfold introduces_category. rewrite Hh, Hp. apply Hc.
  - pose proof (introduces_category_header _ Hh) as Hintro.
    destruct (process_row_data hc st row w Hh)
      as [(evs0 & Hskip & Hall)|[[Habort _]|Hjob]].
    + rewrite Hskip in Hrun. injection Hrun as <- <- <-.
      assert (Hn : Forall (fun ev => neutral_event ev = true) evs0)
        by (eapply Forall_impl; [exact Hall|]; now intros ev [? _]).
      split; [now apply indices_consistent_neutral|].
      split; [eapply Forall_impl; [exact Hall|]; now intros ev (_ & ? & _)|].
      intros st' [= <-]. intros video_id.
      rewrite jobs_in_category_neutral by exact Hn.
      cbn [jobs_in_category]. rewrite Hintro. apply Hc.
    + rewrite Habort in Hrun. injection Hrun as <- <- <-.
      split; [exact I|]. split; [constructor|]. discriminate.
    + destruct Hjob as (c0 & c1 & more & pre & folder & s & e & Hrow & Hpre
                        & Hne & Hfolder & H0 & H1 & Hlen & Hparse).
      destruct (process_row_job hc st row w _ _ _ _ _ _ _ Hh Hrow Hpre Hne
                  Hfolder H0 H1 Hlen Hparse)
        as (ok & w1 & dl & _ & Hacq & Hshape).
      rewrite Hshape in Hrun. injection Hrun as <- <- <-.
      assert (Hn : Forall (fun ev => neutral_event ev = true)
                     (dl ++ [EvResult ok])).
      { apply Forall_app. split; [now apply acquirer_events_neutral|].
        now repeat constructor. }
      pose proof (next_index_agrees _ _ (PyStr.strip c0) Hc) as Hnext.
      split; [|split].
      * cbn [indices_consistent job_for segmentIndex videoReference
               jobs_in_category]. rewrite Hintro.
        do 3 (split; [exact I|]). split; [exact Hnext|].
        now apply indices_consistent_neutral.
      * repeat (apply Forall_cons; split; [reflexivity|]).
        apply Forall_app. split; [|now repeat constructor].
        eapply Forall_impl; [exact Hacq|].
        intros ev Hev. now apply acquirer_event_neutral.
      * intros st' [= <-]. intros video_id.
        cbn [rev]. rewrite <- !app_assoc. cbn [app].
        rewrite jobs_in_category_neutral by exact Hn.
        cbn [jobs_in_category job_for videoReference].
        rewrite Hintro. unfold advance. cbn [video_id_counts].
        destruct (String.eqb_spec (PyStr.strip c0) video_id) as [<-|Hneq].
        -- rewrite lookup_insert_eq, Hnext. cbn [Nat.add]. reflexivity.
        -- rewrite lookup_insert_ne by exact Hneq. apply Hc.
Qed.

Lemma rows_keep_counters hc : forall rows st w res w' evs h,
  counters_agree (video_id_counts st) h ->
  process_rows run_tool str_CalledProcessError hc st rows w
  = (res, w', evs) ->
  indices_consistent h evs /\ Forall (fun ev => auth_verdict ev = false) evs.
Proof.
  induction rows as [|row rows IH]; intros st w res w' evs h Hc.
  - intros [= <- <- <-]. split; [exact I|constructor].
  - rewrite process_rows_cons. unfold bind at 1, emit at 1. unfold bind.
    destruct (process_row _ _ hc st row w) as [[r1 w1] t1] eqn:Hrow.
    destruct (row_keeps_counters _ _ _ _ _ _ _ _ Hc Hrow)
      as (Hidx & Hv & Hnext).
    destruct r1 as [e|st1].
    + intros [= <- <- <-]. cbn [app indices_consistent].
      split; [now split|]. now constructor.
    + destruct (process_rows _ _ hc st1 rows w1) as [[r2 w2] t2] eqn:Hrest.
      intros [= <- <- <-].
      destruct (IH _ _ _ _ _ _ (Hnext _ eq_refl) Hrest) as [Hidx2 Hv2].
      cbn [app indices_consistent]. split.
      * split; [exact I|]. apply indices_consistent_app. now split.
      * constructor; [reflexivity|]. apply Forall_app. now split.
Qed.

Lemma indices_consistent_split (before after : list Event) j : forall h,
  indices_consistent h (before ++ EvJob j :: after) ->
  segmentIndex j
  = Z.of_nat (jobs_in_category (videoReference j) (rev before ++ h)).
Proof.
  intros h H. apply indices_consistent_app in H as [_ H].
  now destruct H as [H _].
Qed.

(** C6. In the events of the loop over the manifest, every job carries
    as its segment number the number of jobs made for the same reference
    since the last header row that introduced a category: the k-th job of
    a reference in a category has number k-1.  A header row that
    introduces a category leaves the counters empty, so the count starts
    again at 0. *)
Theorem segment_indices_count_per_category hc rows w res w' evs
    before j after :
  process_rows run_tool str_CalledProcessError hc initial_state rows w
  = (res, w', evs) ->
  evs = (before ++ EvJob j :: after)%list ->
  segmentIndex j
  = Z.of_nat (jobs_in_category (videoReference j) (rev before))
  /\ (forall st row w0 st' w1 evs1,
        introduces_category row = true ->
        process_row run_tool str_CalledProcessError hc st row w0
        = (inr st', w1, evs1) ->
        video_id_counts st' = ∅
        /\ prefix st'
           = extract_prefix_from_header (nth 0 row EmptyString)).
Proof.
  intros Hrun ->. split.
  - assert (Hc : counters_agree (video_id_counts initial_state) [])
      by (intros video_id; apply lookup_empty).
    destruct (rows_keep_counters _ _ _ _ _ _ _ _ Hc Hrun) as [Hidx _].
    rewrite (indices_consistent_split _ _ _ _ Hidx). now rewrite app_nil_r.
  - intros st row w0 st' w1 evs1 Hintro Hrow.
    unfold introduces_category in Hintro.
    apply andb_true_iff in Hintro as [Hh Hp].
    destruct (extract_prefix_from_header (nth 0 row EmptyString))
      as [p|] eqn:Hp'; [|discriminate].
    rewrite (process_row_header_labelled _ _ _ _ _ Hh Hp') in Hrow.
    destruct (mkdir (Path.join wav_dir p) w0) as [[[e|[]] w2] t];
      [discriminate|].
    now injection Hrow as <- <- <-.
Qed.

(** *** Authorization *)

Section Authorization.

(** [os.path.expanduser("~")] *)
Variable home : list string.

Lemma any_exists_run paths w :
  any_exists paths w = (inr (existsb (node_exists (fs w)) paths), w, []).
Proof.
  induction paths as [|p paths IH]; [reflexivity|].
  cbn [any_exists existsb]. unfold bind, path_exists.
  fold (node_exists (fs w) p). destruct (node_exists (fs w) p); [reflexivity|].
  now rewrite IH.
Qed.

Lemma check_cookies_run w :
  check_cookies home w
  = (inr (node_exists (fs w) cookies_file,
          if negb (node_exists (fs w) cookies_file)
          then existsb (node_exists (fs w)) (all_browser_paths home)
          else false),
     w, []).
Proof.
  unfold check_cookies, bind, path_exists, ret.
  fold (node_exists (fs w) cookies_file).
  destruct (node_exists (fs w) cookies_file); cbn [negb]; [reflexivity|].
  now rewrite any_exists_run.
Qed.

Lemma mkdir_other p w r w' t :
  mkdir p w = (r, w', t) ->
  forall q, q <> p -> lookup_node (fs w') q = lookup_node (fs w) q.
Proof.
  unfold mkdir. intros H q Hq.
  destruct (lookup_node (fs w) p) as [[|]|];
    [now injection H as <- <- <-..|].
  destruct (lookup_node (fs w) (Path.parent p)) as [[|]|];
    try (now injection H as <- <- <-).
  injection H as <- <- <-. cbn [fs].
  destruct q as [|c q]; [reflexivity|]. cbn [lookup_node].
  now apply lookup_insert_ne.
Qed.

Lemma auth_paths_not_wav_dir q :
  q = cookies_file \/ In q (all_browser_paths home) -> q <> wav_dir.
Proof.
  intros Hq Heq. apply (f_equal last) in Heq.
  unfold wav_dir, Path.join in Heq. rewrite last_snoc in Heq.
  destruct Hq as [->|Hin]; [discriminate|].
  cbn in Hin.
  repeat (destruct Hin as [<-|Hin];
          [rewrite last_app_cons in Heq; discriminate|]).
  destruct Hin.
Qed.

Lemma has_authorization_mkdir w r w' t :
  mkdir wav_dir w = (r, w', t) ->
  node_exists (fs w') cookies_file = node_exists (fs w) cookies_file
  /\ existsb (node_exists (fs w')) (all_browser_paths home)
     = existsb (node_exists (fs w)) (all_browser_paths home).
Proof.
  intros Hm. pose proof (mkdir_other _ _ _ _ _ Hm) as Hsame.
  assert (Hq : forall q,
             q = cookies_file \/ In q (all_browser_paths home) ->
             node_exists (fs w') q = node_exists (fs w) q).
  { intros q Hq. unfold node_exists.
    now rewrite (Hsame q (auth_paths_not_wav_dir q Hq)). }
  split; [apply Hq; now left|].
  assert (Hall : forall l,
             (forall q, In q l -> In q (all_browser_paths home)) ->
             existsb (node_exists (fs w')) l
             = existsb (node_exists (fs w)) l).
  { induction l as [|q l IH]; intros Hl; [reflexivity|].
    cbn [existsb]. rewrite (Hq q) by (right; apply Hl; now left).
    rewrite IH; [reflexivity|]. intros q' ?. apply Hl. now right. }
  now apply Hall.
Qed.

(** C8. Without a stored credential file and without any of the browser
    credential directories, the run ends with a non-zero exit status, and
    nothing about the manifest has happened: it was not opened, no row
    was read, no job made, no tool run.  In every run that gets past the
    creation of the [wav] directory the outcome of the check is announced
    exactly once, and whatever concerns the manifest comes after it. *)
Theorem authorization_checked_once_before_manifest manifest w :
  let '(res, w', evs) :=
    main run_tool home str_CalledProcessError manifest w in
  (has_authorization home (fs w) = false ->
     exit_status res <> 0
     /\ Forall (fun ev => manifest_event ev = false) evs)
  /\ ((mkdir wav_dir w).1.1 = inr tt ->
      exists before verdict after,
        evs = (before ++ verdict :: after)%list
        /\ Forall (fun ev => auth_verdict ev = false
                             /\ manifest_event ev = false) before
        /\ auth_verdict verdict = true
        /\ Forall (fun ev => auth_verdict ev = false) after).
Proof.
  unfold main. unfold bind at 1.
  destruct (mkdir wav_dir w) as [[r0 w0] t0] eqn:Hm.
  destruct (has_authorization_mkdir _ _ _ _ Hm) as [Hfile Hbrowser].
  assert (Ht0 : Forall (fun ev => auth_verdict ev = false
                                  /\ manifest_event ev = false) t0
                /\ (forall e, r0 = inl e -> t0 = [])).
  { destruct (mkdir_events wav_dir w) as (r1 & w1 & [H1|H1]);
      rewrite Hm in H1; injection H1 as -> -> ->.
    - split; [constructor|trivial].
    - split; [now repeat constructor|].
      intros e ->. unfold mkdir in Hm.
      destruct (lookup_node (fs w) wav_dir) as [[|]|]; try discriminate.
      destruct (lookup_node (fs w) (Path.parent wav_dir)) as [[|]|];
        discriminate. }
  destruct Ht0 as [Ht0 Hfail].
  destruct r0 as [e|[]].
  { rewrite (Hfail e eq_refl). split; [|discriminate].
    intros _. split; [|constructor]. destruct e; cbn; try lia.
    exfalso. unfold mkdir in Hm.
    destruct (lookup_node (fs w) wav_dir) as [[|]|]; try discriminate.
    destruct (lookup_node (fs w) (Path.parent wav_dir)) as [[|]|];
      discriminate. }
  erewrite bind_inr by apply check_cookies_run.
  rewrite Hfile, Hbrowser. unfold has_authorization.
  destruct (node_exists (fs w) cookies_file) eqn:Hc; cbn [negb andb orb].
  - unfold bind at 1, print at 1, emit at 1.
    unfold bind at 1, emit at 1. unfold bind, ret.
    destruct (process_rows _ _ true initial_state manifest w0)
      as [[r2 w2] t2] eqn:Hrows.
    assert (Hc0 : counters_agree (video_id_counts initial_state) [])
      by (intros video_id; apply lookup_empty).
    destruct (rows_keep_counters _ _ _ _ _ _ _ _ Hc0 Hrows) as [_ Hv].
    destruct r2 as [e|st2]; (split; [discriminate|]); intros _;
      eexists t0, _, _; (split; [reflexivity|]);
      (split; [exact Ht0|]); (split; [reflexivity|]);
      rewrite ?app_nil_r; constructor; trivial.
  - destruct (existsb (node_exists (fs w)) (all_browser_paths home)) eqn:Hb;
      cbn [negb andb].
    + unfold bind at 1, print at 1, emit at 1.
      unfold bind at 1, emit at 1. unfold bind, ret.
      destruct (process_rows _ _ false initial_state manifest w0)
        as [[r2 w2] t2] eqn:Hrows.
      assert (Hc0 : counters_agree (video_id_counts initial_state) [])
        by (intros video_id; apply lookup_empty).
      destruct (rows_keep_counters _ _ _ _ _ _ _ _ Hc0 Hrows) as [_ Hv].
      destruct r2 as [e|st2]; (split; [discriminate|]); intros _;
        eexists t0, _, _; (split; [reflexivity|]);
        (split; [exact Ht0|]); (split; [reflexivity|]);
        rewrite ?app_nil_r; constructor; trivial.
    + unfold bind, print, emit, raise. cbn [app]. split.
      * intros _. split; [cbn; lia|].
        apply Forall_app. split; [|now repeat constructor].
        eapply Forall_impl; [exact Ht0|]. now intros ev [_ ?].
      * intros _. eexists t0, _, []. split; [reflexivity|].
        split; [exact Ht0|]. split; [reflexivity|constructor].
Qed.

End Authorization.

End Orchestrator.

(** ** More on the Time Parser *)

Section TimeRanges.

Import PyStr.

Lemma all_chars_impl (p q : ascii -> bool) s :
  (forall c, p c = true -> q c = true) ->
  all_chars p s = true -> all_chars q s = true.
Proof.
  intros Hpq. induction s as [|c r IH]; [trivial|].
  cbn [all_chars]. intros [Hc Hr]%andb_true_iff.
  now rewrite (Hpq c Hc), IH.
Qed.

Lemma all_chars_app p s t :
  all_chars p (s ++ t) = all_chars p s && all_chars p t.
Proof.
  induction s as [|c r IH]; [reflexivity|].
  rewrite append_String. cbn [all_chars]. now rewrite IH, andb_assoc.
Qed.

Lemma all_chars_lstrip p q s :
  all_chars p s = true -> all_chars p (lstrip q s) = true.
Proof.
  induction s as [|c r IH]; [trivial|]. cbn [lstrip].
  destruct (q c); [|trivial].
  cbn [all_chars]. intros [_ Hr]%andb_true_iff. now apply IH.
Qed.

Lemma all_chars_rstrip p q s :
  all_chars p s = true -> all_chars p (rstrip q s) = true.
Proof.
  induction s as [|c r IH]; [trivial|]. cbn [rstrip all_chars].
  intros [Hc Hr]%andb_true_iff.
  destruct (is_empty (rstrip q r) && q c); [reflexivity|].
  cbn [all_chars]. now rewrite Hc, IH.
Qed.

Lemma all_chars_strip p s :
  all_chars p s = true -> all_chars p (strip s) = true.
Proof. intros H. now apply all_chars_rstrip, all_chars_lstrip. Qed.

(** The parts of a split: none holds the separator, and a character the
    text does not have is in none of them. *)
Lemma split_parts_free sep s :
  Forall (fun p => all_chars (other_than sep) p = true) (split sep s).
Proof.
  induction s as [|c r IH]; [now repeat constructor|].
  cbn [split]. destruct (Ascii.eqb c sep) eqn:E.
  - now constructor.
  - destruct (split sep r) as [|h t].
    + repeat constructor. cbn [all_chars]. unfold other_than. now rewrite E.
    + apply Forall_cons in IH as [Hh Ht]. constructor; [|exact Ht].
      cbn [all_chars]. unfold other_than at 1. now rewrite E.
Qed.

Lemma split_parts_chars p sep s :
  all_chars p s = true ->
  Forall (fun part => all_chars p part = true) (split sep s).
Proof.
  induction s as [|c r IH]; [now repeat constructor|].
  cbn [split all_chars]. intros [Hc Hr]%andb_true_iff.
  specialize (IH Hr). destruct (Ascii.eqb c sep).
  - now constructor.
  - destruct (split sep r) as [|h t].
    + repeat constructor. cbn [all_chars]. now rewrite Hc.
    + apply Forall_cons in IH as [Hh Ht]. constructor; [|exact Ht].
      cbn [all_chars]. now rewrite Hc.
Qed.

Lemma split_free_app sep s t :
  all_chars (other_than sep) s = true ->
  split sep (s ++ String sep t) = s :: split sep t.
Proof.
  induction s as [|c r IH].
  - intros _. rewrite append_empty_l. cbn [split].
    now rewrite Ascii.eqb_refl.
  - cbn [all_chars]. intros [Hc Hr]%andb_true_iff.
    rewrite append_String. cbn [split].
    unfold other_than in Hc. apply negb_true_iff in Hc. rewrite Hc.
    now rewrite IH.
Qed.

Lemma split_free sep s :
  all_chars (other_than sep) s = true -> split sep s = [s].
Proof.
  induction s as [|c r IH]; [reflexivity|].
  cbn [all_chars split]. intros [Hc Hr]%andb_true_iff.
  unfold other_than in Hc. apply negb_true_iff in Hc. rewrite Hc.
  now rewrite IH.
Qed.

(** Without a minus sign in the text, [int] gives no negative number. *)
Lemma int_without_minus s v :
  all_chars (other_than "-") s = true -> int s = Some v -> 0 <= v.
Proof.
  intros Hs. unfold int.
  pose proof (all_chars_lstrip _ is_int_space _ Hs) as Ht.
  destruct (lstrip is_int_space s) as [|c r].
  - discriminate.
  - destruct c as [[] [] [] [] [] [] [] []];
      try (cbn in Ht; discriminate);
      (destruct (scan_unsigned _) as [[n rest]|]; [|discriminate]);
      (destruct (is_empty _); [|discriminate]);
      intros [= <-]; lia.
Qed.

Lemma time_to_seconds_without_minus t v :
  all_chars (other_than "-") t = true -> time_to_seconds t = Some v -> 0 <= v.
Proof.
  intros Ht. unfold time_to_seconds.
  pose proof (split_parts_chars _ ":" _ Ht) as Hparts.
  assert (Hint : forall p x, In p (split ":" t) -> int p = Some x -> 0 <= x).
  { intros p x Hin. apply int_without_minus.
    rewrite Forall_forall in Hparts. apply Hparts. now apply list_elem_of_In. }
  clear Hparts.
  destruct (split ":" t) as [|p0 [|p1 [|p2 [|p3 ps]]]]; [discriminate| | | |].
  - intros Hv. eapply Hint; [|exact Hv]. now left.
  - destruct (int p0) as [a|] eqn:E0; [|discriminate].
    destruct (int p1) as [b|] eqn:E1; [|discriminate].
    cbn. intros [= <-].
    pose proof (Hint p0 a ltac:(now left) E0).
    pose proof (Hint p1 b ltac:(right; now left) E1). lia.
  - destruct (int p0) as [a|] eqn:E0; [|discriminate].
    destruct (int p1) as [b|] eqn:E1; [|discriminate].
    destruct (int p2) as [c|] eqn:E2; [|discriminate].
    cbn. intros [= <-].
    pose proof (Hint p0 a ltac:(now left) E0).
    pose proof (Hint p1 b ltac:(right; now left) E1).
    pose proof (Hint p2 c ltac:(right; right; now left) E2). lia.
  - intros Hv. eapply Hint; [|exact Hv]. now left.
Qed.

Lemma parse_time_range_ends time_str start_time end_time :
  parse_time_range time_str = Some (start_time, end_time) ->
  0 <= start_time /\ 0 <= end_time.
Proof.
  unfold parse_time_range.
  pose proof (split_parts_free "-" time_str) as Hfree.
  destruct (split "-" time_str) as [|a [|b [|c l]]]; try discriminate.
  apply Forall_cons in Hfree as [Ha Hb%Forall_cons]. destruct Hb as [Hb _].
  destruct (time_to_seconds (strip a)) as [x|] eqn:Ex; [|discriminate].
  destruct (time_to_seconds (strip b)) as [y|] eqn:Ey; [|discriminate].
  cbn. intros [= <- <-]. split.
  - eapply time_to_seconds_without_minus; [|exact Ex].
    now apply all_chars_strip.
  - eapply time_to_seconds_without_minus; [|exact Ey].
    now apply all_chars_strip.
Qed.

(** X1. [parse_time_range] succeeds only on a text with exactly one [-],
    and then both ends are non-negative: the minus sign is the separator,
    so no component can carry one. *)
Theorem parse_time_range_nonnegative time_str start_time end_time :
  parse_time_range time_str = Some (start_time, end_time) ->
  length (split "-" time_str) = 2%nat
  /\ 0 <= start_time /\ 0 <= end_time.
Proof.
  intros Hparse. split; [|exact (parse_time_range_ends _ _ _ Hparse)].
  unfold parse_time_range in Hparse.
  now destruct (split "-" time_str) as [|a [|b [|c l]]].
Qed.

Lemma digits_only_time_chars s :
  digits_only s = true -> all_chars time_char s = true.
Proof.
  induction s as [|c r IH]; [trivial|]. cbn [digits_only all_chars].
  intros [Hc Hr]%andb_true_iff. unfold time_char at 1.
  now rewrite Hc, IH.
Qed.

Lemma format_time_chars n :
  0 <= n -> all_chars time_char (format_time n) = true.
Proof.
  intros Hn.
  assert (Hf : forall z, 0 <= z -> all_chars time_char (format_02d z) = true)
    by (intros; now apply digits_only_time_chars, format_02d_digits).
  assert (0 <= n mod 60) by (apply Z.mod_pos_bound; lia).
  assert (0 <= n mod 3600 < 3600) by (apply Z.mod_pos_bound; lia).
  assert (0 <= n mod 3600 / 60) by (apply Z.div_pos; lia).
  assert (0 <= n / 3600) by (apply Z.div_pos; lia).
  unfold format_time. destruct (0 <? n / 3600);
    rewrite !all_chars_app, !Hf by assumption; reflexivity.
Qed.

Lemma time_char_no_minus c : time_char c = true -> other_than "-" c = true.
Proof.
  destruct c as [[] [] [] [] [] [] [] []]; vm_compute; congruence.
Qed.

Lemma time_char_no_space c : time_char c = true -> negb (is_space c) = true.
Proof.
  destruct c as [[] [] [] [] [] [] [] []]; vm_compute; congruence.
Qed.

Lemma lstrip_id p s :
  all_chars (fun c => negb (p c)) s = true -> lstrip p s = s.
Proof.
  destruct s as [|c r]; [trivial|]. cbn [all_chars lstrip].
  intros [Hc _]%andb_true_iff. apply negb_true_iff in Hc. now rewrite Hc.
Qed.

Lemma rstrip_id p s :
  all_chars (fun c => negb (p c)) s = true -> rstrip p s = s.
Proof.
  induction s as [|c r IH]; [trivial|]. cbn [all_chars rstrip].
  intros [Hc Hr]%andb_true_iff. apply negb_true_iff in Hc.
  now rewrite Hc, andb_false_r, IH.
Qed.

Lemma strip_format_time n : 0 <= n -> strip (format_time n) = format_time n.
Proof.
  intros Hn.
  assert (H : all_chars (fun c => negb (is_space c)) (format_time n) = true).
  { eapply all_chars_impl; [apply time_char_no_space|].
    now apply format_time_chars. }
  unfold strip. now rewrite (lstrip_id _ _ H), (rstrip_id _ _ H).
Qed.

(** X2. A range written with [format_time] on both sides of a [-] parses
    back to the two numbers of seconds. *)
Theorem parse_time_range_of_format_time start_time end_time :
  0 <= start_time -> 0 <= end_time ->
  parse_time_range (format_time start_time ++ "-" ++ format_time end_time)
  = Some (start_time, end_time).
Proof.
  intros Hs He. unfold parse_time_range.
  assert (Hfree : forall n, 0 <= n ->
            all_chars (other_than "-") (format_time n) = true).
  { intros n Hn. eapply all_chars_impl; [apply time_char_no_minus|].
    now apply format_time_chars. }
  rewrite append_String, append_empty_l.
  rewrite split_free_app, split_free by now apply Hfree.
  rewrite !strip_format_time by assumption.
  now rewrite !time_to_seconds_format_time by assumption.
Qed.

(** X3. [format_time] loses nothing: two different non-negative numbers of
    seconds are never written alike. *)
Theorem format_time_injective n m :
  0 <= n -> 0 <= m -> format_time n = format_time m -> n = m.
Proof.
  intros Hn Hm Heq.
  pose proof (time_to_seconds_format_time n Hn) as H1.
  rewrite Heq, (time_to_seconds_format_time m Hm) in H1. congruence.
Qed.

Lemma dec_digits_one fuel n acc :
  (n < 10)%N -> dec_digits fuel n acc = String (digit_char n) acc.
Proof.
  intros Hn. destruct fuel; cbn [dec_digits];
    rewrite ?N.mod_small by lia; [reflexivity|].
  destruct (N.ltb_spec n 10); [reflexivity|lia].
Qed.

Lemma str_N_length_below_100 n :
  (n < 100)%N -> (String.length (str_N n) <= 2)%nat.
Proof.
  intros Hn. unfold str_N. destruct (N.ltb_spec n 10) as [Hlt|Hge].
  - rewrite dec_digits_one by lia. cbn. lia.
  - assert (Hlog : (3 <= N.log2 n)%N).
    { change 3%N with (N.log2 10). now apply N.log2_le_mono. }
    destruct (N.to_nat (N.log2 n)) as [|f] eqn:Ef; [lia|].
    cbn [dec_digits]. destruct (N.ltb_spec n 10); [lia|].
    rewrite dec_digits_one; [cbn; lia|].
    apply N.Div0.div_lt_upper_bound. lia.
Qed.

Lemma format_02d_length z :
  0 <= z < 100 -> String.length (format_02d z) = 2%nat.
Proof.
  intros Hz. pose proof (format_02d_width z ltac:(lia)) as Hw.
  unfold format_02d in *. destruct (Z.ltb_spec z 0); [lia|].
  rewrite zeros_length in *.
  pose proof (str_N_length_below_100 (Z.to_N z) ltac:(lia)). lia.
Qed.

Lemma append_length (s t : string) :
  String.length (s ++ t) = (String.length s + String.length t)%nat.
Proof.
  induction s as [|c r IH]; [reflexivity|].
  rewrite append_String. cbn [String.length]. now rewrite IH.
Qed.

Lemma dec_digits_grows fuel : forall n acc,
  (String.length acc < String.length (dec_digits fuel n acc))%nat.
Proof.
  induction fuel as [|f IH]; intros n acc; cbn [dec_digits].
  - cbn. lia.
  - destruct (n <? 10)%N; [cbn; lia|].
    specialize (IH (n / 10)%N (String (digit_char (n mod 10)) acc)).
    cbn [String.length] in IH. lia.
Qed.

Lemma str_N_length_from_100 n :
  (100 <= n)%N -> (2 < String.length (str_N n))%nat.
Proof.
  intros Hn. unfold str_N.
  assert (Hlog : (6 <= N.log2 n)%N).
  { change 6%N with (N.log2 100). now apply N.log2_le_mono. }
  destruct (N.to_nat (N.log2 n)) as [|[|f]] eqn:Ef; [lia|lia|].
  assert (10 <= n / 10)%N by (apply N.div_le_lower_bound; lia).
  cbn [dec_digits].
  destruct (N.ltb_spec n 10); [lia|].
  destruct (N.ltb_spec (n / 10) 10); [lia|].
  match goal with
  | |- (_ < String.length (dec_digits f ?k ?acc))%nat =>
      pose proof (dec_digits_grows f k acc) as Hg
  end.
  cbn [String.length] in Hg. lia.
Qed.

(** X4. The width of what [format_time] writes: five characters, [MM:SS],
    below one hour; eight, [HH:MM:SS], from one hour to a hundred hours;
    from then on the hours take the digits they need. *)
Theorem format_time_width n :
  0 <= n ->
  (n < 3600 -> String.length (format_time n) = 5%nat)
  /\ (3600 <= n < 360000 -> String.length (format_time n) = 8%nat)
  /\ (360000 <= n -> (8 < String.length (format_time n))%nat).
Proof.
  intros Hn.
  assert (0 <= n mod 60 < 60) by (apply Z.mod_pos_bound; lia).
  assert (0 <= n mod 3600 < 3600) by (apply Z.mod_pos_bound; lia).
  assert (0 <= n mod 3600 / 60 < 60).
  { split; [apply Z.div_pos; lia|]. apply Z.div_lt_upper_bound; lia. }
  split; [|split].
  - intros Hlt. rewrite format_time_short by lia.
    rewrite !append_length, !format_02d_length; [reflexivity|lia|].
    split; [apply Z.div_pos; lia|]. apply Z.div_lt_upper_bound; lia.
  - intros [Hge Hlt]. rewrite format_time_long by lia.
    rewrite !append_length, !format_02d_length; [reflexivity|lia|lia|].
    split; [apply Z.div_pos; lia|]. apply Z.div_lt_upper_bound; lia.
  - intros Hge. rewrite format_time_long by lia.
    rewrite !append_length, !(format_02d_length (n mod 60)),
      !(format_02d_length (n mod 3600 / 60)) by lia.
    assert (Hh : 100 <= n / 3600) by (apply Z.div_le_lower_bound; lia).
    assert (2 < String.length (format_02d (n / 3600)))%nat; [|cbn; lia].
    unfold format_02d. destruct (Z.ltb_spec (n / 3600) 0); [lia|].
    rewrite zeros_length.
    pose proof (str_N_length_from_100 (Z.to_N (n / 3600)) ltac:(lia)). lia.
Qed.

End TimeRanges.

(** ** The label of a header row *)

Section HeaderLabel.

Import PyStr.

Lemma span_group_app g rest :
  all_chars (other_than ")") g = true ->
  span_group (g ++ String ")" rest) = (g, String ")" rest).
Proof.
  induction g as [|c r IH].
  - intros _. now rewrite append_empty_l.
  - cbn [all_chars]. intros [Hc Hr]%andb_true_iff.
    rewrite append_String. cbn [span_group].
    unfold other_than in Hc. apply negb_true_iff in Hc. rewrite Hc.
    now rewrite IH.
Qed.

Lemma span_group_spec s :
  s = (span_group s).1 ++ (span_group s).2
  /\ all_chars (other_than ")") (span_group s).1 = true
  /\ ((span_group s).2 = EmptyString
      \/ exists t, (span_group s).2 = String ")" t).
Proof.
  induction s as [|c r IH]; [now repeat split; left|].
  cbn [span_group]. destruct (Ascii.eqb_spec c ")") as [->|Hc].
  - cbn. repeat split. right. now eexists.
  - destruct (span_group r) as [g t]. cbn [fst snd] in *.
    destruct IH as (Hr & Hg & Ht). repeat split.
    + rewrite append_String. now f_equal.
    + cbn [all_chars]. unfold other_than at 1.
      destruct (Ascii.eqb_spec c ")"); [contradiction|]. exact Hg.
    + exact Ht.
Qed.

Lemma match_group_app g rest :
  g <> EmptyString -> all_chars (other_than ")") g = true ->
  match_group (g ++ String ")" rest) = Some g.
Proof.
  intros Hne Hg. unfold match_group. rewrite span_group_app by exact Hg.
  now destruct g.
Qed.

Lemma match_group_sound s g :
  match_group s = Some g ->
  g <> EmptyString /\ all_chars (other_than ")") g = true
  /\ exists rest, s = g ++ String ")" rest.
Proof.
  unfold match_group. destruct (span_group_spec s) as (Hs & Hg & Ht).
  destruct (span_group s) as [[|c g'] [|c' t]]; try discriminate.
  cbn [fst snd] in *. intros [= <-]. split; [discriminate|].
  split; [exact Hg|]. destruct Ht as [?|[t' [= -> ->]]]; [discriminate|].
  now exists t'.
Qed.

Lemma startswith_app p r : startswith p (p ++ r) = true.
Proof.
  induction p as [|c p IH]; [reflexivity|].
  rewrite append_String. cbn [startswith]. now rewrite Ascii.eqb_refl.
Qed.

Lemma startswith_inv p s : startswith p s = true -> exists r, s = p ++ r.
Proof.
  revert s. induction p as [|c p IH]; intros s; [now exists s|].
  destruct s as [|d s]; [discriminate|]. cbn [startswith].
  intros [Hc Hs]%andb_true_iff. apply Ascii.eqb_eq in Hc as ->.
  destruct (IH s Hs) as [r ->]. now exists r.
Qed.

Lemma contains_tail p c s :
  contains p s = true -> contains p (String c s) = true.
Proof. intros H. cbn [contains]. rewrite H. apply orb_true_r. Qed.

Lemma contains_here p s : startswith p s = true -> contains p s = true.
Proof. intros H. destruct s; cbn [contains]; now rewrite H. Qed.

(** X5. The label of a header: [extract_prefix_from_header] returns a
    non-empty text without [")"] that stands between parentheses in the
    header; it returns nothing only when the header has no such text; and
    when the header has no ["("] before its first parenthesized text, that
    text is the label, whatever follows. *)
Theorem extract_prefix_characterised header :
  (forall g,
      extract_prefix_from_header header = Some g ->
      g <> EmptyString /\ all_chars (other_than ")") g = true
      /\ contains ("(" ++ g ++ ")") header = true)
  /\ (extract_prefix_from_header header = None ->
      forall g,
        g <> EmptyString -> all_chars (other_than ")") g = true ->
        contains ("(" ++ g ++ ")") header = false)
  /\ (forall before g after,
        all_chars (other_than "(") before = true ->
        g <> EmptyString -> all_chars (other_than ")") g = true ->
        header = before ++ "(" ++ g ++ ")" ++ after ->
        extract_prefix_from_header header = Some g).
Proof.
  assert (Hx : extract_prefix_from_header header = re_search_group header).
  { unfold extract_prefix_from_header.
    now destruct (re_search_group header). }
  rewrite Hx. clear Hx. split; [|split].
  - induction header as [|c r IH]; intros g; [discriminate|].
    cbn [re_search_group]. destruct (Ascii.eqb_spec c "(") as [->|Hc].
    + destruct (match_group r) as [g'|] eqn:Hm.
      * intros [= <-].
        destruct (match_group_sound _ _ Hm) as (Hne & Hg & rest & ->).
        repeat split; trivial. apply contains_here.
        rewrite append_String, append_empty_l.
        cbn [startswith]. rewrite Ascii.eqb_refl. cbn [andb].
        replace (g' ++ String ")" rest) with ((g' ++ ")") ++ rest).
        -- apply startswith_app.
        -- clear. induction g' as [|c g IH]; [reflexivity|].
           rewrite !append_String. now f_equal.
      * intros H. destruct (IH g H) as (? & ? & ?). repeat split; trivial.
        now apply contains_tail.
    + intros H. destruct (IH g H) as (? & ? & ?). repeat split; trivial.
      now apply contains_tail.
  - intros Hnone g Hne Hg.
    destruct (contains ("(" ++ g ++ ")") header) eqn:Hc; [|reflexivity].
    exfalso. revert Hnone Hc. induction header as [|c r IH].
    + cbn. rewrite append_String. cbn. discriminate.
    + cbn [re_search_group contains]. intros Hnone Hc.
      apply orb_true_iff in Hc as [Hs|Hc].
      * apply startswith_inv in Hs as [rest Hs].
        rewrite append_String, append_empty_l, append_String in Hs.
        injection Hs as -> ->. rewrite Ascii.eqb_refl in Hnone.
        replace ((g ++ ")") ++ rest) with (g ++ String ")" rest) in Hnone.
        -- now rewrite (match_group_app _ _ Hne Hg) in Hnone.
        -- clear. induction g as [|c g IH]; [reflexivity|].
           rewrite !append_String. now f_equal.
      * apply IH; [|exact Hc].
        destruct (Ascii.eqb c "("); [|exact Hnone].
        now destruct (match_group r).
  - intros before g after Hb Hne Hg ->.
    induction before as [|c b IH].
    + rewrite append_empty_l, append_String, append_empty_l.
      cbn [re_search_group]. rewrite Ascii.eqb_refl.
      replace (g ++ ")" ++ after) with (g ++ String ")" after)
        by now rewrite (append_String ")" EmptyString), append_empty_l.
      now rewrite (match_group_app _ _ Hne Hg).
    + cbn [all_chars] in Hb. apply andb_true_iff in Hb as [Hc Hb].
      rewrite append_String. cbn [re_search_group].
      unfold other_than in Hc. apply negb_true_iff in Hc. rewrite Hc.
      now apply IH.
Qed.

End HeaderLabel.

(** ** More on the Segment Acquirer *)

Section AcquirerOutcome.

Context {Env : Type}.
Variable run_tool :
  list string -> Env -> gmap (list string) Node ->
  Completed * Env * gmap (list string) Node.
Variable str_CalledProcessError : list string -> Completed -> string.

Implicit Types (w : World Env).

(** X6. Whenever a call of the Segment Acquirer returns, with [True] or
    with [False], the temporary artifact does not exist afterwards. *)
Theorem temporary_artifact_never_left video_id start_time end_time
    output_path cookies_file w :
  let '(res, w', evs) :=
    download_youtube_segment run_tool str_CalledProcessError video_id
      start_time end_time output_path cookies_file w in
  forall ok,
    res = inr ok ->
    lookup_node (fs w') (temp_path_of output_path video_id) = None.
Proof.
  destruct (fetch_attempts run_tool (temp_path_of output_path video_id)
              (planned_methods (fs w) cookies_file
                 (temp_path_of output_path video_id) (url_of video_id)) w)
    as [[tried ok] w1] eqn:Hfetch.
  destruct (download_run run_tool str_CalledProcessError video_id start_time
              end_time output_path cookies_file w _ _ _ Hfetch)
    as (res & w2 & evs & -> & _ & Hok).
  intros ok' _.
  destruct ok.
  - destruct Hok as (_ & -> & _). apply temp_path_lookup_without.
  - destruct Hok as (_ & -> & _). apply temp_path_lookup_without.
Qed.

(** X7. The Segment Acquirer returns [True] exactly when a fetch attempt
    left a non-empty artifact and the transcode command, run on the world
    that attempt left, reported exit status 0. *)
Theorem returns_true_iff_transcoded video_id start_time end_time
    output_path cookies_file w :
  let temp_path := temp_path_of output_path video_id in
  let trim :=
    trim_cmd temp_path (format_time start_time) (end_time - start_time)
      output_path in
  let '(tried, ok, w1) :=
    fetch_attempts run_tool temp_path
      (planned_methods (fs w) cookies_file temp_path (url_of video_id)) w in
  let '(res, w', evs) :=
    download_youtube_segment run_tool str_CalledProcessError video_id
      start_time end_time output_path cookies_file w in
  res = inr (ok && (returncode (run_tool trim (env w1) (fs w1)).1.1 =? 0))
  /\ (ok = true -> last (commands_run evs) = Some trim).
Proof.
  intros temp_path trim.
  destruct (fetch_attempts run_tool temp_path _ w)
    as [[tried ok] w1] eqn:Hfetch.
  destruct (download_run run_tool str_CalledProcessError video_id start_time
              end_time output_path cookies_file w _ _ _ Hfetch)
    as (res & w2 & evs & -> & _ & Hok).
  destruct ok.
  - destruct Hok as (-> & _ & Hcmd). split; [reflexivity|].
    intros _. rewrite Hcmd. apply last_snoc.
  - destruct Hok as (-> & _). split; [reflexivity|discriminate].
Qed.

Lemma fetch_attempts_nonempty temp_path methods w :
  methods <> [] -> (fetch_attempts run_tool temp_path methods w).1.1 <> [].
Proof.
  destruct methods as [|m rest]; [congruence|]. intros _.
  cbn [fetch_attempts]. destruct (run_tool m (env w) (fs w)) as [[r e'] f'].
  destruct (artifact_nonempty f' temp_path); [discriminate|].
  now destruct (fetch_attempts run_tool temp_path rest _) as [[tried ok] w1].
Qed.

Lemma planned_methods_are_fetch f cookies_file temp_path url :
  Forall (fun cmd => is_fetch cmd = true /\ is_transcode cmd = false)
    (planned_methods f cookies_file temp_path url).
Proof.
  unfold planned_methods. destruct cookies_file as [c|];
    [destruct (bool_decide _)|]; repeat constructor.
Qed.

Lemma planned_methods_length f cookies_file temp_path url :
  length (planned_methods f cookies_file temp_path url)
  = match cookies_file with
    | Some c => if node_exists f c then 4%nat else 3%nat
    | None => 3%nat
    end.
Proof.
  unfold planned_methods, node_exists. destruct cookies_file as [c|];
    [destruct (bool_decide _)|]; reflexivity.
Qed.

Lemma filter_all_true {A} (p : A -> bool) (l : list A) :
  Forall (fun x => p x = true) l -> filter (fun x => p x) l = l.
Proof.
  induction l as [|x l IH]; [reflexivity|]. intros [Hx Hl]%Forall_cons.
  rewrite filter_cons, decide_True by (rewrite Hx; exact I).
  now rewrite IH.
Qed.

Lemma filter_all_false {A} (p : A -> bool) (l : list A) :
  Forall (fun x => p x = false) l -> filter (fun x => p x) l = [].
Proof.
  induction l as [|x l IH]; [reflexivity|]. intros [Hx Hl]%Forall_cons.
  rewrite filter_cons, decide_False by (rewrite Hx; exact id).
  now apply IH.
Qed.

(** The commands of one call: the planned methods up to the one that
    succeeds, or all of them, and then the transcode command if one
    succeeded. *)
Lemma download_commands_shape video_id start_time end_time output_path
    cookies_file w :
  let temp_path := temp_path_of output_path video_id in
  exists tried rest (ok : bool),
    planned_methods (fs w) cookies_file temp_path (url_of video_id)
    = (tried ++ rest)%list
    /\ tried <> []
    /\ commands_run
         (download_youtube_segment run_tool str_CalledProcessError video_id
            start_time end_time output_path cookies_file w).2
       = (tried ++ if ok then
            [trim_cmd temp_path (format_time start_time)
               (end_time - start_time) output_path]
          else [])%list.
Proof.
  intros temp_path.
  set (methods := planned_methods (fs w) cookies_file temp_path
                    (url_of video_id)).
  destruct (fetch_attempts run_tool temp_path methods w)
    as [[tried ok] w1] eqn:Hfetch.
  destruct (download_run run_tool str_CalledProcessError video_id start_time
              end_time output_path cookies_file w _ _ _ Hfetch)
    as (res & w2 & evs & -> & _ & Hok).
  cbn [snd].
  destruct (fetch_attempts_prefix _ _ _ _ _ _ _ Hfetch) as [[rest Hpre] _].
  pose proof (fetch_attempts_nonempty temp_path methods w
                (planned_methods_nonempty _ _ _ _)) as Hne.
  rewrite Hfetch in Hne. cbn [fst] in Hne.
  exists tried, rest, ok. split; [exact Hpre|]. split; [exact Hne|].
  destruct ok; [now destruct Hok as (_ & _ & ?)|].
  destruct Hok as (_ & _ & -> & _). now rewrite app_nil_r.
Qed.

(** X8. One call of the Segment Acquirer runs the fetch tool at least once
    and at most three times, four when a stored credential file is given
    and exists; it runs the transcode tool at most once; and it runs
    nothing else. *)
Theorem commands_of_one_call video_id start_time end_time output_path
    cookies_file w :
  let cmds :=
    commands_run
      (download_youtube_segment run_tool str_CalledProcessError video_id
         start_time end_time output_path cookies_file w).2 in
  (1 <= length (filter (fun cmd => is_fetch cmd) cmds)
   <= match cookies_file with
      | Some c => if node_exists (fs w) c then 4 else 3
      | None => 3
      end)%nat
  /\ (length (filter (fun cmd => is_transcode cmd) cmds) <= 1)%nat
  /\ Forall (fun cmd => is_fetch cmd = true \/ is_transcode cmd = true) cmds.
Proof.
  intros cmds. subst cmds.
  destruct (download_commands_shape video_id start_time end_time output_path
              cookies_file w) as (tried & rest & ok & Hpre & Hne & ->).
  pose proof (planned_methods_are_fetch (fs w) cookies_file
                (temp_path_of output_path video_id) (url_of video_id))
    as Hall.
  rewrite Hpre in Hall. apply Forall_app in Hall as [Htried _].
  pose proof (planned_methods_length (fs w) cookies_file
                (temp_path_of output_path video_id) (url_of video_id))
    as Hlen.
  rewrite Hpre, length_app in Hlen.
  assert (Hf : filter (fun cmd => is_fetch cmd) tried = tried).
  { apply filter_all_true. eapply Forall_impl; [exact Htried|].
    now intros cmd [? _]. }
  assert (Ht : filter (fun cmd => is_transcode cmd) tried = []).
  { apply filter_all_false. eapply Forall_impl; [exact Htried|].
    now intros cmd [_ ?]. }
  rewrite !filter_app, Hf, Ht, length_app.
  assert (length tried <> 0)%nat by (destruct tried; [congruence|discriminate]).
  assert (Hft : forall t s d o,
            filter (fun cmd => is_fetch cmd) [trim_cmd t s d o] = []
            /\ filter (fun cmd => is_transcode cmd) [trim_cmd t s d o]
               = [trim_cmd t s d o]) by (intros; split; reflexivity).
  split; [|split].
  - destruct ok; [rewrite (proj1 (Hft _ _ _ _))|];
      cbn; destruct cookies_file as [c|];
      try destruct (node_exists (fs w) c); lia.
  - destruct ok; [rewrite (proj2 (Hft _ _ _ _))|]; cbn; lia.
  - apply Forall_app_2.
    + eapply Forall_impl; [exact Htried|]. now intros cmd [? _]; left.
    + destruct ok; constructor; [now right|constructor].
Qed.

(** X9. A non-empty file already at the temporary path, which the fetch
    tool leaves in place, is taken for the result of the first attempt:
    that attempt is the only one, and the transcode command follows. *)
Theorem stale_artifact_counts_as_fetched video_id start_time end_time
    output_path cookies_file w :
  let temp_path := temp_path_of output_path video_id in
  artifact_nonempty (fs w) temp_path = true ->
  (forall cmd e f,
      artifact_nonempty f temp_path = true ->
      artifact_nonempty (run_tool cmd e f).2 temp_path = true) ->
  exists first,
    head (planned_methods (fs w) cookies_file temp_path (url_of video_id))
    = Some first
    /\ commands_run
         (download_youtube_segment run_tool str_CalledProcessError video_id
            start_time end_time output_path cookies_file w).2
       = [first;
          trim_cmd temp_path (format_time start_time)
            (end_time - start_time) output_path].
Proof.
  intros temp_path Hstale Hkeeps.
  set (methods := planned_methods (fs w) cookies_file temp_path
                    (url_of video_id)).
  destruct methods as [|first rest] eqn:Hm.
  { now destruct (planned_methods_nonempty (fs w) cookies_file temp_path
                    (url_of video_id)). }
  exists first. split; [reflexivity|].
  assert (Hfetch : fetch_attempts run_tool temp_path methods w
                   = ([first], true,
                      {| fs := (run_tool first (env w) (fs w)).2;
                         env := (run_tool first (env w) (fs w)).1.2 |})).
  { rewrite Hm. cbn [fetch_attempts].
    pose proof (Hkeeps first (env w) (fs w) Hstale) as Hk.
    destruct (run_tool first (env w) (fs w)) as [[r e'] f'].
    cbn [fst snd] in *. now rewrite Hk. }
  destruct (download_run run_tool str_CalledProcessError video_id start_time
              end_time output_path cookies_file w _ _ _ Hfetch)
    as (res & w2 & evs & -> & _ & _ & _ & Hcmd).
  exact Hcmd.
Qed.

End AcquirerOutcome.

(** ** Output names *)

Section OutputNames.

Lemma append_same_length (a b x y : string) :
  String.length a = String.length b -> a ++ x = b ++ y -> a = b /\ x = y.
Proof.
  revert b. induction a as [|c a IH]; intros [|d b] Hlen; try discriminate.
  - rewrite !append_empty_l. now split.
  - rewrite !append_String. intros [= -> Heq]. injection Hlen as Hlen.
    destruct (IH _ Hlen Heq) as [-> ->]. now split.
Qed.

Lemma append_cancel_r (a b s : string) : a ++ s = b ++ s -> a = b.
Proof.
  intros H.
  assert (Hlen : String.length a = String.length b).
  { apply (f_equal String.length) in H. rewrite !append_length in H. lia. }
  now destruct (append_same_length _ _ _ _ Hlen H).
Qed.

Lemma str_N_injective a b : PyStr.str_N a = PyStr.str_N b -> a = b.
Proof.
  intros H. pose proof (scan_str_N a) as Ha.
  rewrite H, scan_str_N in Ha. now injection Ha.
Qed.

Lemma str_Z_injective a b :
  0 <= a -> 0 <= b -> PyStr.str_Z a = PyStr.str_Z b -> a = b.
Proof.
  unfold PyStr.str_Z. intros Ha Hb.
  destruct (Z.ltb_spec a 0), (Z.ltb_spec b 0); try lia.
  intros Heq%str_N_injective. lia.
Qed.

(** The path of a segment tells its category, its reference and its
    number. *)
Lemma segment_path_injective c1 v1 n1 c2 v2 n2 :
  String.length v1 = String.length v2 -> 0 <= n1 -> 0 <= n2 ->
  segment_path c1 v1 n1 = segment_path c2 v2 n2 ->
  c1 = c2 /\ v1 = v2 /\ n1 = n2.
Proof.
  unfold segment_path, Path.join. intros Hlen H1 H2 H.
  apply app_inj_tail in H as [H Hname]. apply app_inj_tail in H as [_ ->].
  destruct (append_same_length _ _ _ _ eq_refl Hname) as [_ Hname1].
  destruct (append_same_length "-" "-" _ _ eq_refl Hname1) as [_ Hname2].
  destruct (append_same_length _ _ _ _ Hlen Hname2) as [-> Hname3].
  destruct (append_same_length "_seg" "_seg" _ _ eq_refl Hname3)
    as [_ Hname4].
  apply append_cancel_r, str_Z_injective in Hname4; auto.
Qed.

Lemma jobs_in_category_grows video_id (mid : list Event) : forall h,
  Forall (fun ev => opens_category ev = false) mid ->
  (jobs_in_category video_id h
   <= jobs_in_category video_id (rev mid ++ h))%nat.
Proof.
  induction mid as [|ev mid IH]; intros h Hall; [reflexivity|].
  apply Forall_cons in Hall as [Hev Hall].
  cbn [rev]. rewrite <- app_assoc. cbn [app].
  etransitivity; [|apply IH, Hall].
  destruct ev; cbn [jobs_in_category]; try lia.
  cbn [opens_category] in Hev. now rewrite Hev.
Qed.

Lemma no_opening_events (evs : list Event) :
  forallb (fun ev => negb (opens_category ev)) evs = true ->
  Forall (fun ev => opens_category ev = false) evs.
Proof.
  induction evs as [|ev evs IH]; [constructor|]. cbn [forallb].
  intros [Hev Hevs]%andb_true_iff. constructor; [|now apply IH].
  now destruct (opens_category ev).
Qed.

Lemma quiet_neutral (evs : list Event) :
  Forall (fun ev => quiet_event ev = true) evs ->
  Forall (fun ev => neutral_event ev = true) evs.
Proof.
  intros H. eapply Forall_impl; [exact H|]. now intros [].
Qed.

End OutputNames.

(** ** A whole run *)

Section WholeRun.

Context {Env : Type}.
Variable run_tool :
  list string -> Env -> gmap (list string) Node ->
  Completed * Env * gmap (list string) Node.
Variable str_CalledProcessError : list string -> Completed -> string.

Implicit Types (w : World Env) (st : LoopState) (row : list string).

Lemma jobs_of_app (a b : list Event) :
  jobs_of (a ++ b) = (jobs_of a ++ jobs_of b)%list.
Proof. induction a as [|[] a IH]; cbn; rewrite ?IH; reflexivity. Qed.

Lemma results_of_app (a b : list Event) :
  results_of (a ++ b) = (results_of a ++ results_of b)%list.
Proof. induction a as [|[] a IH]; cbn; rewrite ?IH; reflexivity. Qed.

Lemma quiet_events (evs : list Event) :
  Forall (fun ev => quiet_event ev = true) evs ->
  jobs_of evs = [] /\ results_of evs = [] /\ commands_run evs = [].
Proof.
  induction evs as [|ev evs IH]; [easy|]. intros [Hev Hevs]%Forall_cons.
  destruct ev; try discriminate; now apply IH.
Qed.

Lemma acquirer_events_no_job (evs : list Event) :
  Forall (fun ev => acquirer_event ev = true) evs ->
  jobs_of evs = [] /\ results_of evs = [].
Proof.
  induction evs as [|ev evs IH]; [easy|]. intros [Hev Hevs]%Forall_cons.
  destruct ev; try discriminate; now apply IH.
Qed.

Lemma mkdir_outcome p w :
  exists r w' t,
    mkdir p w = (r, w', t)
    /\ Forall (fun ev => quiet_event ev = true) t
    /\ (r = inr tt \/ r = inl OSError /\ w' = w /\ t = []).
Proof.
  unfold mkdir. destruct (lookup_node (fs w) p) as [[|]|].
  - do 3 eexists. split; [reflexivity|]. split; [constructor|]. now right.
  - do 3 eexists. split; [reflexivity|]. split; [constructor|]. now left.
  - destruct (lookup_node (fs w) (Path.parent p)) as [[|]|];
      do 3 eexists; (split; [reflexivity|]);
      (split; [now repeat constructor|]); auto.
Qed.

(** What one row of the manifest can do: nothing that concerns a job (a
    header row, a row that is skipped), end the run (the folder of a
    category cannot be made, the time range does not parse), or make one
    job and hand it to the Segment Acquirer. *)
Lemma process_row_outcome hc st row w :
  (exists st' w' evs,
      process_row run_tool str_CalledProcessError hc st row w
      = (inr st', w', evs)
      /\ Forall (fun ev => quiet_event ev = true) evs
      /\ (st' = st \/ st' = with_prefix st None
          \/ exists p,
               st' = {| prefix := Some p;
                        output_folder := Some (Path.join wav_dir p);
                        video_id_counts := ∅ |}))
  \/ (exists w' evs,
        process_row run_tool str_CalledProcessError hc st row w
        = (inl OSError, w', evs)
        /\ Forall (fun ev => quiet_event ev = true) evs
        /\ introduces_category row = true)
  \/ (process_row run_tool str_CalledProcessError hc st row w
      = (inl ValueError, w, [])
      /\ exists c0 c1 more,
           row = c0 :: c1 :: more
           /\ parse_time_range (PyStr.strip c1) = None)
  \/ (exists c0 c1 more pre folder s e ok w' dl,
        row = c0 :: c1 :: more
        /\ prefix st = Some pre /\ PyStr.is_empty pre = false
        /\ output_folder st = Some folder
        /\ String.length (PyStr.strip c0) = 11%nat
        /\ parse_time_range (PyStr.strip c1) = Some (s, e)
        /\ let j := job_for hc pre folder (PyStr.strip c0) s e
                      (next_index (video_id_counts st) (PyStr.strip c0)) in
           download_youtube_segment run_tool str_CalledProcessError
             (PyStr.strip c0) s e (output_path j) (cookies_file_path j) w
           = (inr ok, w', dl)
           /\ Forall (fun ev => acquirer_event ev = true) dl
           /\ process_row run_tool str_CalledProcessError hc st row w
              = (inr (advance st (PyStr.strip c0)), w',
                 [EvPrint (MsgProcessing (PyStr.strip c0) (PyStr.strip c1));
                  EvPrint (MsgStartEnd s e);
                  EvPrint (MsgOutput (output_path j));
                  EvJob j] ++ dl ++ [EvResult ok])%list).
Proof.
  destruct (is_header_row row) eqn:Hh.
  - destruct (extract_prefix_from_header (nth 0 row EmptyString))
      as [p|] eqn:Hp.
    + rewrite (process_row_header_labelled _ _ _ _ _ _ _ Hh Hp).
      destruct (mkdir_outcome (Path.join wav_dir p) w)
        as (r & w' & t & -> & Ht & [->|(-> & -> & ->)]).
      * left. do 3 eexists. split; [reflexivity|]. split.
        -- constructor; [reflexivity|]. apply Forall_app_2; [exact Ht|].
           now repeat constructor.
        -- right. right. now exists p.
      * right. left. do 2 eexists. split; [reflexivity|].
        split; [now repeat constructor|]. unfold introduces_category.
        now rewrite Hh, Hp, (extract_prefix_nonempty _ _ Hp).
    + rewrite (process_row_header_unlabelled _ _ _ _ _ _ Hh Hp).
      left. do 3 eexists. split; [reflexivity|]. split; [constructor|].
      right. now left.
  - destruct (process_row_data run_tool str_CalledProcessError hc st row w Hh)
      as [(evs0 & Hskip & Hall)|[[Habort Hrow]|Hjob]].
    + left. exists st, w, evs0. split; [exact Hskip|]. split; [|now left].
      eapply Forall_impl; [exact Hall|].
      intros [] (Hn & _ & Hm); try discriminate; reflexivity.
    + right. right. left. now split.
    + right. right. right.
      destruct Hjob as (c0 & c1 & more & pre & folder & s & e & Hrow & Hpre
                        & Hne & Hfolder & H0 & H1 & Hlen & Hparse).
      destruct (process_row_job run_tool str_CalledProcessError hc st row w
                  _ _ _ _ _ _ _ Hh Hrow Hpre Hne Hfolder H0 H1 Hlen Hparse)
        as (ok & w1 & dl & Hdl & Hacq & Hshape).
      exists c0, c1, more, pre, folder, s, e, ok, w1, dl.
      now repeat split.
Qed.

(** A property of traces that holds of every row's events holds of the
    events of the loop over the rows. *)
Lemma rows_invariant (Inv : LoopState -> Prop) (Good : list Event -> Prop) hc :
  Good [] ->
  (forall a b, Good a -> Good b -> Good (a ++ b)%list) ->
  (forall row, Good [EvRow row]) ->
  (forall st row w r w' evs,
      Inv st ->
      process_row run_tool str_CalledProcessError hc st row w = (r, w', evs) ->
      Good evs /\ forall st', r = inr st' -> Inv st') ->
  forall rows st w r w' evs,
    Inv st ->
    process_rows run_tool str_CalledProcessError hc st rows w = (r, w', evs) ->
    Good evs.
Proof.
  intros Hnil Happ Hread Hrow.
  induction rows as [|row rows IH]; intros st w r w' evs Hinv.
  - now intros [= <- <- <-].
  - rewrite process_rows_cons. unfold bind at 1, emit at 1. unfold bind.
    destruct (process_row _ _ hc st row w) as [[r1 w1] t1] eqn:H1.
    destruct (Hrow _ _ _ _ _ _ Hinv H1) as [Hgood Hnext].
    destruct r1 as [e|st1].
    + intros [= <- <- <-]. now apply (Happ [EvRow row]).
    + destruct (process_rows _ _ hc st1 rows w1) as [[r2 w2] t2] eqn:H2.
      intros [= <- <- <-]. apply (Happ [EvRow row]); [apply Hread|].
      apply Happ; [exact Hgood|]. eapply IH; [|exact H2]. now apply Hnext.
Qed.

(** Every row keeps the loop variables settled, and makes its job as
    planned. *)
Lemma row_jobs_planned hc st row w r w' evs :
  settled st ->
  process_row run_tool str_CalledProcessError hc st row w = (r, w', evs) ->
  Forall (job_as_planned hc) (jobs_of evs)
  /\ forall st', r = inr st' -> settled st'.
Proof.
  intros [Hfold Hcnt] Hrun.
  destruct (process_row_outcome hc st row w)
    as [(st1 & w1 & evs1 & H & Hq & Hst)
       |[(w1 & evs1 & H & Hq & _)|[[H _]|Hjob]]].
  - rewrite H in Hrun. injection Hrun as <- <- <-.
    destruct (quiet_events _ Hq) as (-> & _). split; [constructor|].
    intros st' [= <-]. destruct Hst as [->|[->|[p ->]]].
    + now split.
    + split; [discriminate|exact Hcnt].
    + split; [now intros p' [= <-]|].
      intros v n. cbn [video_id_counts]. rewrite lookup_empty. discriminate.
  - rewrite H in Hrun. injection Hrun as <- <- <-.
    destruct (quiet_events _ Hq) as (-> & _). split; [constructor|discriminate].
  - rewrite H in Hrun. injection Hrun as <- <- <-.
    split; [constructor|discriminate].
  - destruct Hjob as (c0 & c1 & more & pre & folder & s & e & ok & w1 & dl
                      & Hrow & Hpre & Hne & Hfolder & Hlen & Hparse
                      & Hdl & Hacq & Hshape).
    rewrite Hshape in Hrun. injection Hrun as <- <- <-.
    cbn [app jobs_of]. rewrite jobs_of_app.
    destruct (acquirer_events_no_job _ Hacq) as [-> _]. cbn [app jobs_of].
    assert (Hnext : 0 <= next_index (video_id_counts st) (PyStr.strip c0)).
    { unfold next_index.
      destruct (video_id_counts st !! PyStr.strip c0) as [n|] eqn:E; [|lia].
      apply Hcnt in E. lia. }
    split.
    + constructor; [|constructor].
      pose proof (Hfold _ Hpre) as Hf. rewrite Hfolder in Hf.
      injection Hf as ->.
      destruct (parse_time_range_ends _ _ _ Hparse) as [Hs He].
      unfold job_as_planned, job_for, segment_path.
      cbn [category videoReference start_time end_time segmentIndex
             output_path cookies_file_path].
      now repeat split.
    + intros st' [= <-]. unfold advance. split.
      * exact Hfold.
      * cbn [video_id_counts]. intros v n.
        destruct (decide (PyStr.strip c0 = v)) as [<-|Hneq].
        -- rewrite lookup_insert_eq. now intros [= <-].
        -- rewrite lookup_insert_ne by exact Hneq. apply Hcnt.
Qed.

Lemma initial_state_settled : settled initial_state.
Proof.
  split; [discriminate|]. intros v n. cbn. rewrite lookup_empty. discriminate.
Qed.

Lemma rows_jobs_planned hc rows st w r w' evs :
  settled st ->
  process_rows run_tool str_CalledProcessError hc st rows w = (r, w', evs) ->
  Forall (job_as_planned hc) (jobs_of evs).
Proof.
  apply (rows_invariant settled
           (fun evs => Forall (job_as_planned hc) (jobs_of evs))).
  - constructor.
  - intros a b Ha Hb. rewrite jobs_of_app. now apply Forall_app_2.
  - constructor.
  - intros st0 row w0 r0 w0' evs0. apply row_jobs_planned.
Qed.

(** How the loop over the rows can end. *)
Lemma rows_end hc : forall rows st w r w' evs,
  process_rows run_tool str_CalledProcessError hc st rows w = (r, w', evs) ->
  match r with
  | inr _ => True
  | inl ValueError =>
      exists c0 c1 more,
        In (c0 :: c1 :: more) rows
        /\ parse_time_range (PyStr.strip c1) = None
  | inl OSError => exists row, In row rows /\ introduces_category row = true
  | inl _ => False
  end.
Proof.
  induction rows as [|row rows IH]; intros st w r w' evs.
  - now intros [= <- <- <-].
  - rewrite process_rows_cons. unfold bind at 1, emit at 1. unfold bind.
    assert (Hlater : forall st1 w1 r2 w2 t2,
               process_rows run_tool str_CalledProcessError hc st1 rows w1
               = (r2, w2, t2) ->
               match r2 with
               | inr _ => True
               | inl ValueError =>
                   exists c0 c1 more,
                     In (c0 :: c1 :: more) (row :: rows)
                     /\ parse_time_range (PyStr.strip c1) = None
               | inl OSError =>
                   exists row', In row' (row :: rows)
                                /\ introduces_category row' = true
               | inl _ => False
               end).
    { intros st1 w1 r2 w2 t2 H2. apply IH in H2.
      destruct r2 as [[| | |]|]; try exact H2.
      - destruct H2 as (c0 & c1 & more & Hin & Hp).
        exists c0, c1, more. split; [now right|exact Hp].
      - destruct H2 as (row' & Hin & Hp). exists row'.
        split; [now right|exact Hp]. }
    destruct (process_row_outcome hc st row w)
      as [(st1 & w1 & evs1 & -> & _)
         |[(w1 & evs1 & -> & _ & Hintro)
          |[[-> (c0 & c1 & more & -> & Hp)]|Hjob]]].
    + destruct (process_rows _ _ hc st1 rows w1) as [[r2 w2] t2] eqn:H2.
      intros [= <- <- <-]. eapply Hlater, H2.
    + intros [= <- <- <-]. exists row. split; [now left|exact Hintro].
    + intros [= <- <- <-]. exists c0, c1, more. split; [now left|exact Hp].
    + destruct Hjob as (c0 & c1 & more & pre & folder & s & e & ok & w1 & dl
                        & _ & _ & _ & _ & _ & _ & _ & _ & ->).
      destruct (process_rows _ _ hc _ rows w1) as [[r2 w2] t2] eqn:H2.
      intros [= <- <- <-]. eapply Hlater, H2.
Qed.

(** One row: at most one job, with its result, and the commands of one
    call of the Segment Acquirer. *)
Lemma row_counts hc st row w r w' evs :
  process_row run_tool str_CalledProcessError hc st row w = (r, w', evs) ->
  length (results_of evs) = length (jobs_of evs)
  /\ (length (jobs_of evs) <= 1)%nat
  /\ (length (jobs_of evs) <= length (commands_run evs)
      <= (if hc then 5 else 4) * length (jobs_of evs))%nat.
Proof.
  intros Hrun.
  destruct (process_row_outcome hc st row w)
    as [(st1 & w1 & evs1 & H & Hq & _)
       |[(w1 & evs1 & H & Hq & _)|[[H _]|Hjob]]].
  1, 2: rewrite H in Hrun; injection Hrun as <- <- <-;
    destruct (quiet_events _ Hq) as (-> & -> & ->); cbn; lia.
  - rewrite H in Hrun. injection Hrun as <- <- <-. cbn. lia.
  - destruct Hjob as (c0 & c1 & more & pre & folder & s & e & ok & w1 & dl
                      & _ & _ & _ & _ & _ & _ & Hdl & Hacq & Hshape).
    rewrite Hshape in Hrun. injection Hrun as <- <- <-.
    cbn [app jobs_of results_of commands_run].
    rewrite jobs_of_app, results_of_app, commands_run_app.
    destruct (acquirer_events_no_job _ Hacq) as [-> ->].
    cbn [app jobs_of results_of commands_run length].
    rewrite app_nil_r.
    destruct (download_commands_shape run_tool str_CalledProcessError
                (PyStr.strip c0) s e
                (output_path
                   (job_for hc pre folder (PyStr.strip c0) s e
                      (next_index (video_id_counts st) (PyStr.strip c0))))
                (cookies_file_path
                   (job_for hc pre folder (PyStr.strip c0) s e
                      (next_index (video_id_counts st) (PyStr.strip c0))))
                w) as (tried & rest & fetched & Hpre & Hne & Hcmd).
    rewrite Hdl in Hcmd. cbn [snd] in Hcmd. rewrite Hcmd, length_app.
    apply (f_equal length) in Hpre.
    rewrite planned_methods_length, length_app in Hpre.
    cbn [job_for cookies_file_path] in Hpre.
    assert (length tried <> 0)%nat
      by (destruct tried; [congruence|discriminate]).
    destruct fetched, hc; try destruct (node_exists (fs w) cookies_file);
      cbn [length]; lia.
Qed.

Lemma rows_counts hc : forall rows st w r w' evs,
  process_rows run_tool str_CalledProcessError hc st rows w = (r, w', evs) ->
  length (results_of evs) = length (jobs_of evs)
  /\ (length (jobs_of evs) <= length rows)%nat
  /\ (length (jobs_of evs) <= length (commands_run evs)
      <= (if hc then 5 else 4) * length (jobs_of evs))%nat.
Proof.
  induction rows as [|row rows IH]; intros st w r w' evs.
  - intros [= <- <- <-]. cbn. lia.
  - rewrite process_rows_cons. unfold bind at 1, emit at 1. unfold bind.
    destruct (process_row _ _ hc st row w) as [[r1 w1] t1] eqn:H1.
    apply row_counts in H1. destruct r1 as [e|st1].
    + intros [= <- <- <-]. cbn [app jobs_of results_of commands_run length].
      lia.
    + destruct (process_rows _ _ hc st1 rows w1) as [[r2 w2] t2] eqn:H2.
      apply IH in H2. intros [= <- <- <-].
      cbn [app jobs_of results_of commands_run].
      rewrite jobs_of_app, results_of_app, commands_run_app, !length_app.
      cbn [length]. destruct hc; lia.
Qed.

Section Main.

(** [os.path.expanduser("~")] *)
Variable home : list string.

(** The three ways through [main]: the [wav] directory cannot be made;
    there is no authorization; the manifest is read. *)
Lemma main_run manifest w :
  let hc := node_exists (fs w) cookies_file in
  exists r0 w0 t0,
    mkdir wav_dir w = (r0, w0, t0)
    /\ Forall (fun ev => quiet_event ev = true) t0
    /\ ((r0 = inl OSError
         /\ main run_tool home str_CalledProcessError manifest w
            = (inl OSError, w0, t0))
        \/ (r0 = inr tt /\ has_authorization home (fs w) = false
            /\ main run_tool home str_CalledProcessError manifest w
               = (inl (SystemExit 1), w0,
                  (t0 ++ [EvPrint MsgCookiesRequired])%list))
        \/ (r0 = inr tt /\ has_authorization home (fs w) = true
            /\ exists r w' t,
                 process_rows run_tool str_CalledProcessError hc
                   initial_state manifest w0 = (r, w', t)
                 /\ main run_tool home str_CalledProcessError manifest w
                    = (match r with inl e => inl e | inr _ => inr tt end,
                       w',
                       (t0 ++ EvPrint (if hc
                                       then MsgUsingCookiesFile cookies_file
                                       else MsgUsingBrowserCookies)
                           :: EvOpen csv_path :: t)%list))).
Proof.
  intros hc.
  destruct (mkdir_outcome wav_dir w) as (r0 & w0 & t0 & Hm & Ht & Hr).
  exists r0, w0, t0. split; [exact Hm|]. split; [exact Ht|].
  destruct (has_authorization_mkdir home _ _ _ _ Hm) as [Hfile Hbrowser].
  destruct Hr as [->|(-> & -> & ->)].
  2: { left. split; [reflexivity|]. unfold main.
       now erewrite bind_inl by exact Hm. }
  right. unfold has_authorization. subst hc.
  destruct (node_exists (fs w) cookies_file) eqn:Hc;
    [|destruct (existsb (node_exists (fs w)) (all_browser_paths home))
        eqn:Hb]; cbn [negb andb orb].
  1, 2: right; split; [reflexivity|]; split; [reflexivity|];
    destruct (process_rows run_tool str_CalledProcessError _ initial_state
                manifest w0) as [[r2 w2] t2] eqn:Hrows;
    exists r2, w2, t2; split; [reflexivity|];
    unfold main; erewrite bind_inr by exact Hm;
    erewrite bind_inr by apply check_cookies_run;
    rewrite Hfile, Hbrowser; cbn [negb andb];
    unfold bind, print, emit, ret; rewrite Hrows;
    destruct r2 as [e|st2]; cbn [app]; rewrite ?app_nil_r; reflexivity.
  left. split; [reflexivity|]. split; [reflexivity|].
  unfold main. erewrite bind_inr by exact Hm.
  erewrite bind_inr by apply check_cookies_run.
  rewrite Hfile, Hbrowser. reflexivity.
Qed.

(** The jobs of a run are the jobs of the loop over the manifest. *)
Lemma main_jobs manifest w :
  let hc := node_exists (fs w) cookies_file in
  jobs_of (main run_tool home str_CalledProcessError manifest w).2 = []
  \/ exists w0 r w' t,
       process_rows run_tool str_CalledProcessError hc initial_state
         manifest w0 = (r, w', t)
       /\ jobs_of (main run_tool home str_CalledProcessError manifest w).2
          = jobs_of t.
Proof.
  intros hc.
  destruct (main_run manifest w)
    as (r0 & w0 & t0 & _ & Ht
        & [[_ ->]|[(_ & _ & ->)|(_ & _ & r & w' & t & Hrows & ->)]]);
    destruct (quiet_events _ Ht) as (Hj & _); cbn [snd].
  - now left.
  - left. now rewrite jobs_of_app, Hj.
  - right. exists w0, r, w', t. split; [exact Hrows|].
    now rewrite jobs_of_app, Hj.
Qed.

Lemma main_jobs_planned manifest w :
  Forall (job_as_planned (node_exists (fs w) cookies_file))
    (jobs_of (main run_tool home str_CalledProcessError manifest w).2).
Proof.
  destruct (main_jobs manifest w) as [->|(w0 & r & w' & t & Hrows & ->)];
    [constructor|].
  exact (rows_jobs_planned _ _ _ _ _ _ _ initial_state_settled Hrows).
Qed.


(** Through a whole run the segment numbers count the jobs of a reference
    in its category. *)
Lemma main_indices manifest w :
  indices_consistent []
    (main run_tool home str_CalledProcessError manifest w).2.
Proof.
  destruct (main_run manifest w)
    as (r0 & w0 & t0 & _ & Ht
        & [[_ ->]|[(_ & _ & ->)|(_ & _ & r & w' & t & Hrows & ->)]]);
    cbn [snd]; apply quiet_neutral in Ht.
  - now apply indices_consistent_neutral.
  - apply indices_consistent_neutral, Forall_app_2; [exact Ht|].
    now repeat constructor.
  - set (verdict := EvPrint _).
    change (t0 ++ verdict :: EvOpen csv_path :: t)%list
      with (t0 ++ [verdict; EvOpen csv_path] ++ t)%list.
    rewrite app_assoc.
    assert (Hn : Forall (fun ev => neutral_event ev = true)
                   (t0 ++ [verdict; EvOpen csv_path])).
    { apply Forall_app_2; [exact Ht|]. now repeat constructor. }
    apply indices_consistent_app.
    split; [now apply indices_consistent_neutral|].
    eapply rows_keep_counters; [|exact Hrows].
    intros video_id. rewrite jobs_in_category_neutral by exact Hn.
    apply lookup_empty.
Qed.

(** X11. Between two header rows that introduce a category no output
    path is used twice: two jobs of a run with no such header row read
    between them, whose categories and references are single path
    segments, have different output paths. *)
Theorem output_paths_distinct_within_category manifest w before j1 mid j2
    after :
  (main run_tool home str_CalledProcessError manifest w).2
  = (before ++ EvJob j1 :: mid ++ EvJob j2 :: after)%list ->
  Forall (fun ev => opens_category ev = false) mid ->
  plain_job j1 = true -> plain_job j2 = true ->
  output_path j1 <> output_path j2.
Proof.
  intros Hevs Hmid _ _ Heq.
  pose proof (main_indices manifest w) as Hidx.
  pose proof (main_jobs_planned manifest w) as Hall.
  rewrite Hevs in Hidx, Hall.
  pose proof (indices_consistent_split _ _ _ _ Hidx) as H1.
  assert (Hre : (before ++ EvJob j1 :: mid ++ EvJob j2 :: after)%list
                = ((before ++ EvJob j1 :: mid) ++ EvJob j2 :: after)%list)
    by now rewrite <- app_assoc.
  rewrite Hre in Hidx.
  pose proof (indices_consistent_split _ _ _ _ Hidx) as H2.
  rewrite app_nil_r in H1, H2. rewrite rev_app_distr in H2.
  cbn [rev] in H2. rewrite <- app_assoc in H2. cbn [app] in H2.
  rewrite jobs_of_app in Hall. cbn [jobs_of] in Hall.
  apply Forall_app in Hall as [_ [Hj1 Hall]%Forall_cons].
  rewrite jobs_of_app in Hall. cbn [jobs_of] in Hall.
  apply Forall_app in Hall as [_ [Hj2 _]%Forall_cons].
  destruct Hj1 as (_ & Hl1 & _ & _ & Hn1 & Hp1 & _).
  destruct Hj2 as (_ & Hl2 & _ & _ & Hn2 & Hp2 & _).
  rewrite Hp1, Hp2 in Heq.
  apply segment_path_injective in Heq as (_ & Hv & Hn);
    [|congruence|assumption..].
  pose proof (jobs_in_category_grows (videoReference j2) mid
                (EvJob j1 :: rev before) Hmid) as Hgrow.
  cbn [jobs_in_category] in Hgrow.
  rewrite Hv, String.eqb_refl in Hgrow. rewrite Hv in H1. lia.
Qed.

(** X12. A run never ends with the [CalledProcessError] of a tool: a
    non-zero exit status is caught where the tool is called.  [sys.exit]
    is called with status 1, and only when there was no authorization
    source; and a run that returns had one. *)
Theorem tool_failure_never_ends_run manifest w :
  match (main run_tool home str_CalledProcessError manifest w).1.1 with
  | inr _ => has_authorization home (fs w) = true
  | inl (SystemExit status) =>
      status = 1 /\ has_authorization home (fs w) = false
  | inl (CalledProcessError _ _) => False
  | inl _ => True
  end.
Proof.
  destruct (main_run manifest w)
    as (r0 & w0 & t0 & Hm & _
        & [[-> ->]|[(_ & Hno & ->)|(_ & Hyes & r & w' & t & Hrows & ->)]]);
    cbn [fst].
  - exact I.
  - now split.
  - apply rows_end in Hrows. destruct r as [[| | |]|]; auto; easy.
Qed.

(** X13. In the events of a run a result follows its job: there are as
    many results as jobs when the run returns, and at most one job is
    without its result otherwise.  A row makes at most one job.  The
    commands run are those of the jobs: at least one for each result, and
    at most five for each job, four when there is no stored credential
    file. *)
Theorem jobs_results_and_commands manifest w :
  let '(res, _, evs) :=
    main run_tool home str_CalledProcessError manifest w in
  (length (results_of evs) <= length (jobs_of evs)
   <= S (length (results_of evs)))%nat
  /\ (forall u, res = inr u ->
      length (results_of evs) = length (jobs_of evs))
  /\ (length (jobs_of evs) <= length manifest)%nat
  /\ (length (results_of evs) <= length (commands_run evs)
      <= (if node_exists (fs w) cookies_file then 5 else 4)
         * length (jobs_of evs))%nat.
Proof.
  destruct (main_run manifest w)
    as (r0 & w0 & t0 & _ & Ht
        & [[_ ->]|[(_ & _ & ->)|(_ & _ & r & w' & t & Hrows & ->)]]);
    destruct (quiet_events _ Ht) as (Hj & Hr & Hc).
  - rewrite Hj, Hr, Hc. cbn. repeat split; try lia; discriminate.
  - rewrite jobs_of_app, results_of_app, commands_run_app, Hj, Hr, Hc.
    cbn. repeat split; try lia; discriminate.
  - rewrite jobs_of_app, results_of_app, commands_run_app, Hj, Hr, Hc.
    cbn [app jobs_of results_of commands_run].
    destruct (rows_counts _ _ _ _ _ _ _ Hrows) as (Hsame & Hrows' & Hcmd).
    rewrite Hsame. repeat split; lia.
Qed.

(** X14. The temporary artifact of a job is not the segment of any job of
    the run, for jobs whose categories and references are single path
    segments: what the Segment Acquirer removes at the end of a call is
    not the output path of any of them. *)
Theorem temporary_artifact_is_no_segment manifest w j1 j2 :
  In j1 (jobs_of (main run_tool home str_CalledProcessError manifest w).2) ->
  In j2 (jobs_of (main run_tool home str_CalledProcessError manifest w).2) ->
  plain_job j1 = true -> plain_job j2 = true ->
  temp_path_of (output_path j1) (videoReference j1) <> output_path j2.
Proof.
  intros H1%list_elem_of_In H2%list_elem_of_In _ _ Heq.
  pose proof (main_jobs_planned manifest w) as Hall.
  rewrite Forall_forall in Hall.
  destruct (Hall _ H1) as (_ & Hl1 & _ & _ & _ & Hp1 & _).
  destruct (Hall _ H2) as (Hc2 & Hl2 & _ & _ & _ & Hp2 & _).
  rewrite Hp1, Hp2 in Heq. unfold temp_path_of, segment_path in Heq.
  unfold Path.join, Path.parent in Heq.
  rewrite removelast_last in Heq.
  apply app_inj_tail in Heq as [_ Hname].
  apply (f_equal String.length) in Hname.
  rewrite !append_length, Hl1, Hl2 in Hname.
  destruct (category j2); [discriminate|]. cbn [String.length] in Hname. lia.
Qed.

End Main.

End WholeRun.

(** ** The plan of a run and the tools *)

Section Plan.

Context {Env : Type}.
Variables tool1 tool2 :
  list string -> Env -> gmap (list string) Node ->
  Completed * Env * gmap (list string) Node.
Variables str1 str2 : list string -> Completed -> string.

Implicit Types (w : World Env) (st : LoopState) (row : list string).

(** A row that ends the run leaves no job; a row that does not leaves the
    same loop variables and the same job whatever the tools do. *)
Lemma row_plan_same hc st row w1 w2 r1 r2 w1' w2' e1 e2 :
  process_row tool1 str1 hc st row w1 = (r1, w1', e1) ->
  process_row tool2 str2 hc st row w2 = (r2, w2', e2) ->
  (forall e, r1 = inl e -> jobs_of e1 = [])
  /\ (forall e, r2 = inl e -> jobs_of e2 = [])
  /\ (forall s1 s2,
        r1 = inr s1 -> r2 = inr s2 -> s1 = s2 /\ jobs_of e1 = jobs_of e2).
Proof.
  intros H1 H2.
  assert (Hquiet : forall tool str w r w' evs,
             process_row tool str hc st row w = (r, w', evs) ->
             forall e, r = inl e -> jobs_of evs = []).
  { intros tool str w r w' evs H e ->.
    destruct (process_row_outcome tool str hc st row w)
      as [(st1 & w1'' & evs1 & H' & _)
         |[(w1'' & evs1 & H' & Hq & _)|[[H' _]|Hjob]]].
    - rewrite H' in H. discriminate.
    - rewrite H' in H. injection H as <- <- <-. now apply quiet_events.
    - rewrite H' in H. now injection H as <- <- <-.
    - destruct Hjob as (c0 & c1 & more & pre & folder & s & e0 & ok & w1''
                        & dl & _ & _ & _ & _ & _ & _ & _ & _ & H').
      rewrite H' in H. discriminate. }
  split; [exact (Hquiet _ _ _ _ _ _ H1)|].
  split; [exact (Hquiet _ _ _ _ _ _ H2)|].
  intros s1 s2 -> ->. clear Hquiet.
  destruct (is_header_row row) eqn:Hh.
  - destruct (extract_prefix_from_header (nth 0 row EmptyString))
      as [p|] eqn:Hp.
    + rewrite (process_row_header_labelled _ _ _ _ _ _ _ Hh Hp) in H1.
      rewrite (process_row_header_labelled _ _ _ _ _ _ _ Hh Hp) in H2.
      destruct (mkdir_outcome (Path.join wav_dir p) w1)
        as (ra & wa & ta & Ha & Hqa & _).
      destruct (mkdir_outcome (Path.join wav_dir p) w2)
        as (rb & wb & tb & Hb & Hqb & _).
      rewrite Ha in H1. rewrite Hb in H2.
      destruct ra as [?|[]]; [discriminate|].
      destruct rb as [?|[]]; [discriminate|].
      injection H1 as <- <- <-. injection H2 as <- <- <-.
      split; [reflexivity|]. cbn [jobs_of]. rewrite !jobs_of_app.
      destruct (quiet_events _ Hqa) as (-> & _).
      now destruct (quiet_events _ Hqb) as (-> & _).
    + rewrite (process_row_header_unlabelled _ _ _ _ _ _ Hh Hp) in H1.
      rewrite (process_row_header_unlabelled _ _ _ _ _ _ Hh Hp) in H2.
      injection H1 as <- <- <-. now injection H2 as <- <- <-.
  - assert (Hcases : forall tool str w s w' evs,
               process_row tool str hc st row w = (inr s, w', evs) ->
               (s = st /\ jobs_of evs = []
                /\ forall c0 c1 more pre folder a b,
                     row = c0 :: c1 :: more ->
                     prefix st = Some pre -> PyStr.is_empty pre = false ->
                     output_folder st = Some folder ->
                     PyStr.is_empty (PyStr.strip c0) = false ->
                     PyStr.is_empty (PyStr.strip c1) = false ->
                     String.length (PyStr.strip c0) = 11%nat ->
                     parse_time_range (PyStr.strip c1) = Some (a, b) ->
                     False)
               \/ exists c0 c1 more pre folder a b,
                    row = c0 :: c1 :: more
                    /\ prefix st = Some pre /\ PyStr.is_empty pre = false
                    /\ output_folder st = Some folder
                    /\ PyStr.is_empty (PyStr.strip c0) = false
                    /\ PyStr.is_empty (PyStr.strip c1) = false
                    /\ String.length (PyStr.strip c0) = 11%nat
                    /\ parse_time_range (PyStr.strip c1) = Some (a, b)
                    /\ s = advance st (PyStr.strip c0)
                    /\ jobs_of evs
                       = [job_for hc pre folder (PyStr.strip c0) a b
                            (next_index (video_id_counts st)
                               (PyStr.strip c0))]).
    { intros tool str w s w' evs H.
      destruct (process_row_data tool str hc st row w Hh)
        as [(evs0 & Hskip & Hall)|[[Habort _]|Hjob]].
      - left. rewrite Hskip in H. injection H as <- <- <-.
        assert (Hn : jobs_of evs0 = []).
        { clear -Hall. induction evs0 as [|ev l IH]; [reflexivity|].
          apply Forall_cons in Hall as [(Hev & _) Hl].
          destruct ev; try discriminate; now apply IH. }
        split; [reflexivity|]. split; [exact Hn|].
        intros c0 c1 more pre folder a b Hrow Hpre Hne Hfolder Hc0 Hc1 Hlen
          Hparse.
        destruct (process_row_job tool str hc st row w _ _ _ _ _ _ _ Hh Hrow
                    Hpre Hne Hfolder Hc0 Hc1 Hlen Hparse)
          as (ok & w1'' & dl & _ & _ & Hshape).
        rewrite Hshape in Hskip. injection Hskip as _ _ <-.
        discriminate Hn.
      - rewrite Habort in H. discriminate.
      - right.
        destruct Hjob as (c0 & c1 & more & pre & folder & a & b & Hrow & Hpre
                          & Hne & Hfolder & Hc0 & Hc1 & Hlen & Hparse).
        destruct (process_row_job tool str hc st row w _ _ _ _ _ _ _ Hh Hrow
                    Hpre Hne Hfolder Hc0 Hc1 Hlen Hparse)
          as (ok & w1'' & dl & _ & Hacq & Hshape).
        rewrite Hshape in H. injection H as <- <- <-.
        exists c0, c1, more, pre, folder, a, b.
        do 8 (split; [assumption|]). split; [reflexivity|].
        cbn [app jobs_of]. rewrite jobs_of_app.
        now destruct (acquirer_events_no_job _ Hacq) as [-> _]. }
    destruct (Hcases _ _ _ _ _ _ H1) as [(-> & -> & Hno1)|Hjob1],
             (Hcases _ _ _ _ _ _ H2) as [(-> & -> & Hno2)|Hjob2].
    + now split.
    + exfalso.
      destruct Hjob2 as (c0 & c1 & more & pre & folder & a & b & Hrow & Hpre
                         & Hne & Hfolder & Hc0 & Hc1 & Hlen & Hparse & _).
      exact (Hno1 _ _ _ _ _ _ _ Hrow Hpre Hne Hfolder Hc0 Hc1 Hlen Hparse).
    + exfalso.
      destruct Hjob1 as (c0 & c1 & more & pre & folder & a & b & Hrow & Hpre
                         & Hne & Hfolder & Hc0 & Hc1 & Hlen & Hparse & _).
      exact (Hno2 _ _ _ _ _ _ _ Hrow Hpre Hne Hfolder Hc0 Hc1 Hlen Hparse).
    + destruct Hjob1 as (c0 & c1 & more & pre & folder & a & b & Hrow & Hpre
                         & _ & Hfolder & _ & _ & _ & Hparse & -> & ->).
      destruct Hjob2 as (c0' & c1' & more' & pre' & folder' & a' & b' & Hrow'
                         & Hpre' & _ & Hfolder' & _ & _ & _ & Hparse' & ->
                         & ->).
      rewrite Hrow in Hrow'. injection Hrow' as <- <- <-.
      rewrite Hpre in Hpre'. injection Hpre' as <-.
      rewrite Hfolder in Hfolder'. injection Hfolder' as <-.
      rewrite Hparse in Hparse'. injection Hparse' as <- <-.
      now split.
Qed.

Lemma rows_plan_same hc : forall rows st w1 w2 r1 r2 w1' w2' e1 e2,
  process_rows tool1 str1 hc st rows w1 = (r1, w1', e1) ->
  process_rows tool2 str2 hc st rows w2 = (r2, w2', e2) ->
  (jobs_of e1 `prefix_of` jobs_of e2 \/ jobs_of e2 `prefix_of` jobs_of e1)
  /\ (forall s1 s2, r1 = inr s1 -> r2 = inr s2 -> jobs_of e1 = jobs_of e2).
Proof.
  induction rows as [|row rows IH]; intros st w1 w2 r1 r2 w1' w2' e1 e2.
  - intros [= <- <- <-] [= <- <- <-]. split; [now left|reflexivity].
  - rewrite !process_rows_cons. unfold bind at 1, emit at 1. unfold bind at 1.
    destruct (process_row tool1 str1 hc st row w1) as [[ra wa] ta] eqn:Ha.
    intros H1. unfold bind at 1, emit at 1. unfold bind at 1.
    destruct (process_row tool2 str2 hc st row w2) as [[rb wb] tb] eqn:Hb.
    intros H2.
    destruct (row_plan_same _ _ _ _ _ _ _ _ _ _ _ Ha Hb)
      as (Hla & Hlb & Hsame).
    destruct ra as [ea|sa].
    { injection H1 as <- <- <-. cbn [app jobs_of].
      rewrite (Hla _ eq_refl). split; [left; apply prefix_nil|discriminate]. }
    destruct rb as [eb|sb].
    { injection H2 as <- <- <-. cbn [app jobs_of].
      rewrite (Hlb _ eq_refl).
      split; [right; apply prefix_nil|discriminate]. }
    destruct (Hsame _ _ eq_refl eq_refl) as [<- Hjobs].
    destruct (process_rows tool1 str1 hc sa rows wa) as [[rc wc] tc] eqn:Hc.
    destruct (process_rows tool2 str2 hc sa rows wb) as [[rd wd] td] eqn:Hd.
    injection H1 as <- <- <-. injection H2 as <- <- <-.
    destruct (IH _ _ _ _ _ _ _ _ _ Hc Hd) as [Hpre Heq].
    cbn [app jobs_of]. rewrite !jobs_of_app, Hjobs. split.
    + destruct Hpre as [Hpre|Hpre]; [left|right]; now apply prefix_app.
    + intros s1 s2 -> ->. now rewrite (Heq _ _ eq_refl eq_refl).
Qed.

(** X15. What a run plans does not depend on the tools.  Of two runs over
    the same manifest, both with or both without the stored credential
    file, the jobs of one are the first jobs of the other; and two runs
    that both return make the same jobs, whatever the tools did and
    reported. *)
Theorem job_plan_independent_of_tools home1 home2 manifest w1 w2 :
  node_exists (fs w1) cookies_file = node_exists (fs w2) cookies_file ->
  let run1 := main tool1 home1 str1 manifest w1 in
  let run2 := main tool2 home2 str2 manifest w2 in
  (jobs_of run1.2 `prefix_of` jobs_of run2.2
   \/ jobs_of run2.2 `prefix_of` jobs_of run1.2)
  /\ (run1.1.1 = inr tt -> run2.1.1 = inr tt ->
      jobs_of run1.2 = jobs_of run2.2).
Proof.
  intros Hfile run1 run2. subst run1 run2.
  destruct (main_run tool1 str1 home1 manifest w1)
    as (ra & wa & ta & _ & Hta
        & [[_ ->]|[(_ & _ & ->)|(_ & _ & r1 & w1' & e1 & Hrows1 & ->)]]);
    destruct (quiet_events _ Hta) as (Hja & _); cbn [fst snd].
  1, 2: rewrite ?jobs_of_app, Hja;
    (split; [left; apply prefix_nil|discriminate]).
  destruct (main_run tool2 str2 home2 manifest w2)
    as (rb & wb & tb & _ & Htb
        & [[_ ->]|[(_ & _ & ->)|(_ & _ & r2 & w2' & e2 & Hrows2 & ->)]]);
    destruct (quiet_events _ Htb) as (Hjb & _); cbn [fst snd].
  1, 2: rewrite ?(jobs_of_app tb), Hjb;
    (split; [right; apply prefix_nil|discriminate]).
  rewrite <- Hfile in Hrows2.
  destruct (rows_plan_same _ _ _ _ _ _ _ _ _ _ _ Hrows1 Hrows2)
    as [Hpre Heq].
  rewrite !jobs_of_app, Hja, Hjb. cbn [app jobs_of]. split; [exact Hpre|].
  destruct r1 as [?|s1]; [discriminate|].
  destruct r2 as [?|s2]; [discriminate|].
  intros _ _. exact (Heq _ _ eq_refl eq_refl).
Qed.

End Plan.

(** ** The cells of a data row *)

Section Cells.

Context {Env : Type}.
Variable run_tool :
  list string -> Env -> gmap (list string) Node ->
  Completed * Env * gmap (list string) Node.
Variable str_CalledProcessError : list string -> Completed -> string.

Import PyStr.

Lemma rstrip_idempotent p s : rstrip p (rstrip p s) = rstrip p s.
Proof.
  induction s as [|c r IH]; [reflexivity|]. cbn [rstrip].
  destruct (is_empty (rstrip p r) && p c) eqn:E; [reflexivity|].
  cbn [rstrip]. now rewrite IH, E.
Qed.

Lemma lstrip_rstrip p s :
  lstrip p (rstrip p (lstrip p s)) = rstrip p (lstrip p s).
Proof.
  induction s as [|c r IH]; [reflexivity|]. cbn [lstrip].
  destruct (p c) eqn:E; [exact IH|]. cbn [rstrip].
  rewrite E, andb_false_r. cbn [lstrip]. now rewrite E.
Qed.

Lemma strip_idempotent s : strip (strip s) = strip s.
Proof. unfold strip. now rewrite lstrip_rstrip, rstrip_idempotent. Qed.

Lemma lstrip_suffix p s : exists a, s = a ++ lstrip p s.
Proof.
  induction s as [|c r [a IH]]; [now exists EmptyString|]. cbn [lstrip].
  destruct (p c); [|now exists EmptyString].
  exists (String c a). rewrite append_String. now rewrite <- IH.
Qed.

Lemma rstrip_prefix p s : exists b, s = rstrip p s ++ b.
Proof.
  induction s as [|c r [b IH]]; [now exists EmptyString|]. cbn [rstrip].
  destruct (is_empty (rstrip p r) && p c).
  - now exists (String c r).
  - exists b. rewrite append_String. now rewrite <- IH.
Qed.

Lemma lower_app a b : lower (a ++ b) = lower a ++ lower b.
Proof.
  induction a as [|c a IH]; [reflexivity|].
  rewrite append_String. cbn [lower]. now rewrite IH, append_String.
Qed.

Lemma startswith_app_l p x y :
  startswith p x = true -> startswith p (x ++ y) = true.
Proof.
  revert x. induction p as [|a p IH]; intros x; [reflexivity|].
  destruct x as [|b x]; [discriminate|]. rewrite append_String.
  cbn [startswith]. intros [-> H]%andb_true_iff. now rewrite (IH _ H).
Qed.

Lemma contains_app_l p x y : contains p x = true -> contains p (x ++ y) = true.
Proof.
  induction x as [|c x IH].
  - cbn [contains]. rewrite orb_false_r. intros H.
    apply contains_here. now apply (startswith_app_l p EmptyString).
  - rewrite append_String. cbn [contains].
    intros [H|H]%orb_true_iff; apply orb_true_iff.
    + left. now apply (startswith_app_l p (String c x)).
    + right. now apply IH.
Qed.

Lemma contains_app_r p x y : contains p y = true -> contains p (x ++ y) = true.
Proof.
  intros H. induction x as [|c x IH]; [exact H|].
  rewrite append_String. now apply contains_tail.
Qed.

(** What is found in a trimmed and lowered text is in the lowered text. *)
Lemma contains_lower_strip p s :
  contains p (lower (strip s)) = true -> contains p (lower s) = true.
Proof.
  unfold strip. intros H.
  destruct (lstrip_suffix is_space s) as [a Ha].
  destruct (rstrip_prefix is_space (lstrip is_space s)) as [b Hb].
  rewrite Ha, lower_app. apply contains_app_r.
  rewrite Hb, lower_app. now apply contains_app_l.
Qed.

(** X16. The first two cells of a row that is not a header row count
    without the white space around them, and its other cells do not count
    at all: the row is processed as the row of its two trimmed cells. *)
Theorem cells_are_trimmed hc st c0 c1 more more' (w : World Env) :
  is_header_row (c0 :: c1 :: more) = false ->
  process_row run_tool str_CalledProcessError hc st
    (strip c0 :: strip c1 :: more') w
  = process_row run_tool str_CalledProcessError hc st (c0 :: c1 :: more) w.
Proof.
  intros Hh.
  assert (Hh' : is_header_row (strip c0 :: strip c1 :: more') = false).
  { cbn [is_header_row] in *.
    destruct (contains "id (" (lower (strip c0))) eqn:E; [|reflexivity].
    apply contains_lower_strip in E. congruence. }
  unfold process_row. rewrite Hh, Hh'. cbv beta iota.
  now rewrite !strip_idempotent.
Qed.

End Cells.

(** * The properties at work on sample worlds *)

Import Sample.

(** ** Time Parser *)

Example parse_time_range_doc : parse_time_range "4:15-6:15" = Some (255, 375).
Proof. reflexivity. Qed.

Example format_time_examples :
  map format_time [0; 255; 3599; 3600; 3725; 360000]
  = ["00:00"; "04:15"; "59:59"; "01:00:00"; "01:02:05"; "100:00:00"].
Proof. reflexivity. Qed.

Example int_examples :
  map PyStr.int
    [" 5 "; "+5"; "-5"; "1_0"; "1__0"; "_1"; "1_"; "007"; ""; "- 5"]
  = [Some 5; Some 5; Some (-5); Some 10; None; None; None; Some 7; None; None].
Proof. reflexivity. Qed.

Example extract_prefix_examples :
  map extract_prefix_from_header
    ["id (SC),time"; "id ()"; "id (()"; "id (a"; "id ((a)b)"]
  = [Some "SC"; None; Some "("; None; Some "(a"].
Proof. reflexivity. Qed.

Lemma time_token_round_trip_witness :
  exists n,
    time_to_seconds "4:15" = Some n /\ 0 <= n /\
    time_to_seconds (format_time n) = Some n /\
    format_time n =
      (if n <? 3600
       then PyStr.format_02d (n / 60) ++ ":" ++ PyStr.format_02d (n mod 60)
       else PyStr.format_02d (n / 3600) ++ ":"
            ++ PyStr.format_02d ((n mod 3600) / 60)
            ++ ":" ++ PyStr.format_02d (n mod 60)) /\
    Forall (fun field => PyStr.digits_only field = true
                         /\ (2 <= String.length field)%nat)
      (PyStr.split ":" (format_time n)).
Proof. apply (time_token_round_trip "4:15"). reflexivity. Defined.

(** C4 as stated fails: a token of four components, one of them not a
    number, converts to the value of its first component. *)
Lemma time_to_seconds_four_components :
  (3 < length (PyStr.split ":" "1:x:3:4"))%nat
  /\ In "x" (PyStr.split ":" "1:x:3:4") /\ PyStr.int "x" = None
  /\ time_to_seconds "1:x:3:4" = Some 1.
Proof. vm_compute. repeat split; [lia|tauto]. Qed.

Lemma time_to_seconds_failure_witness :
  time_to_seconds "4:x" = None /\ time_to_seconds "1:x:3:4" = PyStr.int "1".
Proof.
  split.
  - apply (time_to_seconds_failure "4:x"). left. split; [vm_compute; lia|].
    apply Exists_cons. right. apply Exists_cons. now left.
  - apply (time_to_seconds_failure "1:x:3:4"). vm_compute. lia.
Defined.

(** ** Segment Acquirer *)

(** Tolerant success: the fetch tool reports exit status 1 but leaves 100
    bytes; the loop stops after that one attempt and the transcode command
    is run. *)
Example tolerant_success :
  match download_youtube_segment scripted_tool str_error video 10 20
          out_seg0 None tolerant with
  | (res, w', evs) =>
      res = inr true
      /\ returncodes evs = [1; 0]
      /\ map is_transcode (commands_run evs) = [false; true]
      /\ fs w' !! out_seg0 = Some (File 40)
      /\ fs w' !! temp_path_of out_seg0 video = None
  end.
Proof. now vm_compute. Qed.

(** With every fetch failing, the three browser methods are tried in the
    fixed order and nothing else is run. *)
Example browser_methods_in_order :
  map (fun cmd => nth 10 cmd EmptyString)
    (commands_run
       (download_youtube_segment scripted_tool str_error video 10 20
          out_seg0 None failing).2)
  = ["chrome"; "safari"; "firefox"].
Proof. now vm_compute. Qed.

Lemma fetch_attempts_in_fixed_order_witness :
  commands_run
    (download_youtube_segment quiet_tool str_error video 10 20 out_seg0
       None tolerant).2
  = commands_run
      (download_youtube_segment scripted_tool str_error video 10 20 out_seg0
         None tolerant).2.
Proof.
  pose proof (fetch_attempts_in_fixed_order scripted_tool quiet_tool
                str_error str_error video 10 20 out_seg0 None tolerant) as H.
  cbv zeta in H.
  destruct (fetch_attempts _ _ _ _) as [[tried ok] w1].
  destruct (download_youtube_segment scripted_tool _ _ _ _ _ _ _)
    as [[res w2] evs].
  destruct H as (_ & _ & _ & _ & _ & _ & Hsame).
  apply Hsame. intros cmd e f. unfold quiet_tool.
  now destruct (scripted_tool cmd e f) as [[r e'] f'].
Defined.

Lemma exhausted_fetch_witness :
  match download_youtube_segment scripted_tool str_error video 10 20
          out_seg0 None failing with
  | (res, w', evs) =>
      res = inr false
      /\ In (EvPrint (MsgErrorDownloading video)) evs
      /\ lookup_node (fs w') (temp_path_of out_seg0 video) = None
      /\ Forall (fun cmd => is_transcode cmd = false) (commands_run evs)
  end.
Proof.
  pose proof (exhausted_fetch_reports_failure scripted_tool str_error video
                10 20 out_seg0 None failing) as H.
  cbv zeta in H.
  assert (Hok : (fetch_attempts scripted_tool (temp_path_of out_seg0 video)
                   (planned_methods (fs failing) None
                      (temp_path_of out_seg0 video) (url_of video))
                   failing).1.2 = false) by (vm_compute; reflexivity).
  destruct (fetch_attempts _ _ _ _) as [[tried ok] w1].
  cbn [fst snd] in Hok. subst ok.
  destruct (H tried w1 eq_refl) as (evs & -> & Hin & Hgone & Hcmds).
  now repeat split.
Defined.

(** ** Manifest Reader and Run Orchestrator *)

Lemma job_only_from_valid_data_row_witness :
  is_header_row data_row = false
  /\ (exists pre,
        prefix in_SC = Some pre /\ pre <> EmptyString
        /\ category (job_for false "SC" folder_SC video 10 20 0) = pre)
  /\ (exists c0 c1 more,
        data_row = c0 :: c1 :: more
        /\ PyStr.strip c0 <> EmptyString /\ PyStr.strip c1 <> EmptyString
        /\ String.length (PyStr.strip c0) = 11%nat
        /\ videoReference (job_for false "SC" folder_SC video 10 20 0)
           = PyStr.strip c0)
  /\ (forall rows w0,
        Forall (fun row0 => is_header_row row0 = false) rows ->
        process_rows scripted_tool str_error false initial_state rows w0
        = (inr initial_state, w0, map EvRow rows)).
Proof.
  apply (job_only_from_valid_data_row scripted_tool str_error false in_SC
           data_row failing
           (process_row scripted_tool str_error false in_SC data_row
              failing).1.1
           (process_row scripted_tool str_error false in_SC data_row
              failing).1.2
           (process_row scripted_tool str_error false in_SC data_row
              failing).2).
  - now destruct (process_row _ _ _ _ _ _) as [[r w'] evs].
  - vm_compute. tauto.
Defined.

(** C5 as stated fails: after a header row without a label the category is
    no longer the previous one, and the data row that follows yields no
    job. *)
Lemma unlabelled_header_counterexample :
  is_header_row ["id ("; "time"] = true
  /\ extract_prefix_from_header "id (" = None
  /\ match process_row scripted_tool str_error false in_SC
             ["id ("; "time"] failing with
     | (inr st', _, _) => prefix st' <> prefix in_SC
     | _ => False
     end
  /\ jobs_of (run fs_browser [] manifest_unlabelled).2 = [].
Proof. vm_compute. repeat split. discriminate. Qed.

Lemma unlabelled_header_witness :
  process_row scripted_tool str_error false in_SC ["id ("; "time"] failing
  = (inr {| prefix := None;
            output_folder := output_folder in_SC;
            video_id_counts := video_id_counts in_SC |}, failing, [])
  /\ forall rows w0,
       Forall (fun row0 => is_header_row row0 = false) rows ->
       process_rows scripted_tool str_error false (with_prefix in_SC None)
         rows w0
       = (inr (with_prefix in_SC None), w0, map EvRow rows).
Proof.
  apply (unlabelled_header_clears_category scripted_tool str_error false
           in_SC ["id ("; "time"] failing); reflexivity.
Defined.

(** C3 as stated fails: a time range that does not parse ends the run with
    an uncaught [ValueError]; the row after it is never read. *)
Lemma parse_failure_counterexample :
  match run fs_browser [] manifest_bad_time with
  | (res, _, evs) =>
      res = inl ValueError
      /\ exit_status res <> 0
      /\ ~ In (EvRow data_row) evs
      /\ jobs_of evs = []
  end.
Proof.
  vm_compute. repeat split; try discriminate. intuition discriminate.
Qed.

Lemma parse_failure_aborts_run_witness :
  process_rows scripted_tool str_error false in_SC
    ([] ++ [video; "soon"] :: [data_row]) failing
  = (inl ValueError, failing, ([] ++ [EvRow [video; "soon"]])%list).
Proof.
  apply (parse_failure_aborts_run scripted_tool str_error false in_SC []
           [data_row] failing in_SC failing [] video "soon" [] "SC"
           folder_SC); reflexivity.
Defined.

Lemma counter_advances_witness :
  exists ok w' dl,
    process_row scripted_tool str_error false in_SC data_row failing
    = (inr (advance in_SC video), w',
       [EvPrint (MsgProcessing video "0:10-0:20");
        EvPrint (MsgStartEnd 10 20);
        EvPrint (MsgOutput (output_path (job_for false "SC" folder_SC video
                                           10 20 0)));
        EvJob (job_for false "SC" folder_SC video 10 20 0)]
       ++ dl ++ [EvResult ok])%list
    /\ ok = false
    /\ Forall (fun ev => acquirer_event ev = true) dl
    /\ video_id_counts (advance in_SC video) !! video
       = Some (segmentIndex (job_for false "SC" folder_SC video 10 20 0))
    /\ next_index (video_id_counts (advance in_SC video)) video
       = segmentIndex (job_for false "SC" folder_SC video 10 20 0) + 1.
Proof.
  pose proof (counter_advances_whatever_the_outcome scripted_tool str_error
                false in_SC data_row failing video "0:10-0:20" [] "SC"
                folder_SC 10 20 eq_refl eq_refl eq_refl eq_refl eq_refl
                eq_refl eq_refl eq_refl eq_refl) as H.
  cbv zeta in H.
  assert (Hres : (download_youtube_segment scripted_tool str_error
                    (PyStr.strip video) 10 20
                    (output_path
                       (job_for false "SC" folder_SC (PyStr.strip video) 10
                          20 (next_index (video_id_counts in_SC)
                                (PyStr.strip video))))
                    (cookies_file_path
                       (job_for false "SC" folder_SC (PyStr.strip video) 10
                          20 (next_index (video_id_counts in_SC)
                                (PyStr.strip video))))
                    failing).1.1 = inr false) by (vm_compute; reflexivity).
  destruct (download_youtube_segment _ _ _ _ _ _ _ _) as [[outcome w'] dl].
  cbn [fst] in Hres. subst outcome.
  destruct (H _ w' dl eq_refl) as (Hrow & Hacq & Hcount & Hnext).
  exists false, w', dl. now repeat split.
Defined.

(** The first job for a reference fails to download, the second succeeds:
    the numbers are 0 and 1, and only the file of segment 1 exists. *)
Example failed_download_leaves_gap :
  match main scripted_tool home str_error manifest_twice first_fails with
  | (_, w', evs) =>
      map segmentIndex (jobs_of evs) = [0; 1]
      /\ results_of evs = [false; true]
      /\ fs w' !! out_seg0 = None
      /\ fs w' !! Path.join folder_SC "SC-abcdefghijk_seg1.wav"
         = Some (File 40)
  end.
Proof. now vm_compute. Qed.

(** A second header row starts the numbers again. *)
Example segment_indices_two_categories :
  map (fun j => (category j, segmentIndex j))
    (jobs_of events_two_categories)
  = [("SC", 0); ("SC", 1); ("XY", 0)].
Proof. now vm_compute. Qed.

Lemma segment_indices_witness :
  segmentIndex (job_for false "SC" folder_SC video 3600 3610 1)
  = Z.of_nat (jobs_in_category
                (videoReference (job_for false "SC" folder_SC video 3600
                                   3610 1))
                (rev (take 25 events_two_categories)))
  /\ (forall st row w0 st' w1 evs1,
        introduces_category row = true ->
        process_row scripted_tool str_error false st row w0
        = (inr st', w1, evs1) ->
        video_id_counts st' = ∅
        /\ prefix st' = extract_prefix_from_header (nth 0 row EmptyString)).
Proof.
  eapply (segment_indices_count_per_category scripted_tool str_error false
            manifest_two_categories failing
            (process_rows scripted_tool str_error false initial_state
               manifest_two_categories failing).1.1
            (process_rows scripted_tool str_error false initial_state
               manifest_two_categories failing).1.2
            events_two_categories
            (take 25 events_two_categories) _
            (drop 26 events_two_categories)).
  - unfold events_two_categories.
    destruct (process_rows _ _ _ _ _ _) as [[r w'] evs]. reflexivity.
  - vm_compute. reflexivity.
Defined.

Lemma authorization_witness :
  match run fs_bare [] manifest_twice with
  | (res, _, evs) =>
      exit_status res <> 0
      /\ Forall (fun ev => manifest_event ev = false) evs
  end
  /\ match run fs_browser [] manifest_twice with
     | (_, _, evs) =>
         exists before verdict after,
           evs = (before ++ verdict :: after)%list
           /\ Forall (fun ev => auth_verdict ev = false
                                /\ manifest_event ev = false) before
           /\ auth_verdict verdict = true
           /\ Forall (fun ev => auth_verdict ev = false) after
     end.
Proof.
  pose proof (authorization_checked_once_before_manifest scripted_tool
                str_error home manifest_twice (world fs_bare [])) as H1.
  pose proof (authorization_checked_once_before_manifest scripted_tool
                str_error home manifest_twice (world fs_browser [])) as H2.
  unfold run.
  destruct (main _ _ _ _ (world fs_bare [])) as [[res1 w1] evs1].
  destruct (main _ _ _ _ (world fs_browser [])) as [[res2 w2] evs2].
  split; [apply H1; reflexivity|apply H2; reflexivity].
Defined.

(** ** More on the Time Parser *)

Lemma parse_time_range_nonnegative_witness :
  length (PyStr.split "-" "4:15-6:15") = 2%nat /\ 0 <= 255 /\ 0 <= 375.
Proof. apply (parse_time_range_nonnegative "4:15-6:15"). reflexivity. Defined.

(** A reversed range parses as well: nothing compares the two ends. *)
Example parse_time_range_reversed :
  parse_time_range "6:15-4:15" = Some (375, 255).
Proof. reflexivity. Qed.

Lemma parse_time_range_of_format_time_witness :
  parse_time_range (format_time 255 ++ "-" ++ format_time 3725)
  = Some (255, 3725).
Proof. apply (parse_time_range_of_format_time 255 3725); lia. Defined.

Lemma format_time_injective_witness : 75 = 60 + 15.
Proof. apply format_time_injective; [lia|lia|reflexivity]. Defined.

Lemma format_time_width_witness :
  String.length (format_time 255) = 5%nat
  /\ String.length (format_time 3725) = 8%nat
  /\ (8 < String.length (format_time 360000))%nat.
Proof.
  split; [|split].
  - apply (format_time_width 255); lia.
  - apply (format_time_width 3725); lia.
  - apply (format_time_width 360000); lia.
Defined.

(** ** The label of a header row *)

Lemma extract_prefix_characterised_witness :
  PyStr.contains "(SC)" "id (SC),time (s)" = true
  /\ PyStr.contains "(x)" "id (" = false
  /\ extract_prefix_from_header "id (SC),time (s)" = Some "SC".
Proof.
  destruct (extract_prefix_characterised "id (SC),time (s)")
    as (Hsound & _ & Hfirst).
  destruct (extract_prefix_characterised "id (") as (_ & Hnone & _).
  split; [|split].
  - now apply (Hsound "SC").
  - now apply (Hnone eq_refl "x").
  - now apply (Hfirst "id " "SC" ",time (s)").
Defined.

(** ** Segment Acquirer *)

Lemma returns_true_iff_transcoded_witness :
  last (commands_run
          (download_youtube_segment scripted_tool str_error video 10 20
             out_seg0 None tolerant).2)
  = Some (trim_cmd (temp_path_of out_seg0 video) (format_time 10) (20 - 10)
            out_seg0).
Proof.
  pose proof (returns_true_iff_transcoded scripted_tool str_error video 10 20
                out_seg0 None tolerant) as H.
  cbv zeta in H.
  assert (Hok : (fetch_attempts scripted_tool (temp_path_of out_seg0 video)
                   (planned_methods (fs tolerant) None
                      (temp_path_of out_seg0 video) (url_of video))
                   tolerant).1.2 = true) by (vm_compute; reflexivity).
  destruct (fetch_attempts _ _ _ _) as [[tried ok] w1].
  cbn [fst snd] in Hok. subst ok.
  destruct (download_youtube_segment _ _ _ _ _ _ _ _) as [[res w'] evs].
  cbn [snd]. now apply H.
Defined.

Lemma temporary_artifact_never_left_witness :
  lookup_node
    (fs (download_youtube_segment scripted_tool str_error video 10 20
           out_seg0 None tolerant).1.2)
    (temp_path_of out_seg0 video) = None.
Proof.
  pose proof (temporary_artifact_never_left scripted_tool str_error video 10
                20 out_seg0 None tolerant) as H.
  assert (Hres : (download_youtube_segment scripted_tool str_error video 10
                    20 out_seg0 None tolerant).1.1 = inr true)
    by (vm_compute; reflexivity).
  destruct (download_youtube_segment scripted_tool str_error video 10 20
              out_seg0 None tolerant) as [[res w'] evs].
  cbn [fst snd] in Hres |- *. exact (H true Hres).
Defined.

(** The transcode command fails after a fetch that went well: the call
    returns [False], and the temporary artifact is gone all the same. *)
Example transcode_failure :
  match download_youtube_segment scripted_tool str_error video 10 20
          out_seg0 None (world fs_browser [(0, Some 100%N); (1, None)]) with
  | (res, w', evs) =>
      res = inr false
      /\ map is_transcode (commands_run evs) = [false; true]
      /\ fs w' !! temp_path_of out_seg0 video = None
      /\ fs w' !! out_seg0 = None
  end.
Proof. now vm_compute. Qed.

Lemma stale_artifact_witness :
  exists first,
    head (planned_methods (fs Leftover.stale) None
            (temp_path_of out_seg0 video) (url_of video)) = Some first
    /\ commands_run
         (download_youtube_segment Leftover.idle_tool str_error video 10 20
            out_seg0 None Leftover.stale).2
       = [first;
          trim_cmd (temp_path_of out_seg0 video) (format_time 10) (20 - 10)
            out_seg0].
Proof.
  apply (stale_artifact_counts_as_fetched Leftover.idle_tool str_error video
           10 20 out_seg0 None Leftover.stale).
  - vm_compute. reflexivity.
  - intros cmd e f Hthere. exact Hthere.
Defined.

(** ** A whole run *)


Lemma output_paths_distinct_witness :
  output_path (job_for false "SC" folder_SC video 10 20 0)
  <> output_path (job_for false "SC" folder_SC video 30 40 1).
Proof.
  apply (output_paths_distinct_within_category scripted_tool str_error home
           manifest_twice failing
           (take 10 (run fs_browser [] manifest_twice).2)
           (job_for false "SC" folder_SC video 10 20 0)
           (take 16 (drop 11 (run fs_browser [] manifest_twice).2))
           (job_for false "SC" folder_SC video 30 40 1)
           (drop 28 (run fs_browser [] manifest_twice).2)).
  - vm_compute. reflexivity.
  - apply no_opening_events. vm_compute. reflexivity.
  - reflexivity.
  - reflexivity.
Defined.

(** The same label twice: the numbers start again, and the second section
    writes to the path the first one wrote to. *)
Example repeated_category_reuses_path :
  map output_path
    (jobs_of (run fs_browser []
                [["id (SC)"]; data_row; ["id (SC)"]; data_row]).2)
  = [out_seg0; out_seg0].
Proof. now vm_compute. Qed.

(** On the sample manifest, with every call of a tool failing, the run
    returns, with a result for each of its two jobs. *)
Example run_with_failing_tools :
  match run fs_browser [] manifest_twice with
  | (res, _, evs) =>
      res = inr tt
      /\ results_of evs = [false; false]
      /\ length (commands_run evs) = 6%nat
  end.
Proof. now vm_compute. Qed.

Lemma jobs_results_and_commands_witness :
  length (results_of
            (main scripted_tool home str_error manifest_twice failing).2)
  = length (jobs_of
              (main scripted_tool home str_error manifest_twice failing).2).
Proof.
  pose proof (jobs_results_and_commands scripted_tool str_error home
                manifest_twice failing) as H.
  assert (Hres : (main scripted_tool home str_error manifest_twice
                    failing).1.1 = inr tt) by (vm_compute; reflexivity).
  destruct (main scripted_tool home str_error manifest_twice failing)
    as [[res w'] evs].
  cbn [fst snd] in Hres |- *. destruct H as (_ & Hsame & _).
  exact (Hsame tt Hres).
Defined.

Lemma temporary_artifact_is_no_segment_witness :
  temp_path_of out_seg0 video
  <> output_path (job_for false "SC" folder_SC video 30 40 1).
Proof.
  apply (temporary_artifact_is_no_segment scripted_tool str_error home
           manifest_twice failing
           (job_for false "SC" folder_SC video 10 20 0)
           (job_for false "SC" folder_SC video 30 40 1));
    [vm_compute; tauto..|reflexivity|reflexivity].
Defined.

Lemma job_plan_independent_of_tools_witness :
  jobs_of (main scripted_tool home str_error manifest_twice first_fails).2
  = jobs_of (main quiet_tool home str_error manifest_twice tolerant).2.
Proof.
  apply (job_plan_independent_of_tools scripted_tool quiet_tool str_error
           str_error home home manifest_twice first_fails tolerant);
    vm_compute; reflexivity.
Defined.

Lemma cells_are_trimmed_witness :
  process_row scripted_tool str_error false in_SC data_row failing
  = process_row scripted_tool str_error false in_SC
      ["  abcdefghijk "; " 0:10-0:20  "; "a note"] failing.
Proof.
  exact (cells_are_trimmed scripted_tool str_error false in_SC
           "  abcdefghijk " " 0:10-0:20  " ["a note"] [] failing eq_refl).
Defined.
